(** * rangrez-backend: event and booking routes

    A shallow embedding of the Express route handlers of the event-ticketing
    backend (routes/eventRoutes.js and the two revisions of
    routes/bookingRoutes.js) together with the properties that its
    specification states about them.

    Each handler is a function from the request to a computation over the
    [World]: the two collections of the document database, the media store,
    the mail outbox and a log of the calls made on the database.
    An [await] on a collaborator is a step of that computation; exceptions
    that the handler's own code raises (a property read on [undefined], a
    method missing on a value, a failed cast of a query argument) are
    results of the computation and are caught by the handler's [catch].
    Collaborators themselves answer; an unreachable database, media store or
    mail transport, which every [catch] also turns into a 500, is outside
    the model, and so is [console.error].  The two list routes, which only
    read and sort by [createdAt], are left out. *)

From Stdlib Require Import ZArith QArith Qround Qpower String Ascii List Bool Lia Lqa.
From Stdlib Require Import Floats.SpecFloat.
From stdpp Require Import base option list strings gmap pretty.

Local Open Scope string_scope.
Local Open Scope Z_scope.

(** ** JavaScript values *)

Module Js.

(** The values a parsed request body can hold.  Arrays and objects are
    kept opaque: the handlers only test them for truthiness. *)
Inductive value : Type :=
| VUndefined
| VNull
| VBool (b : bool)
| VNum (q : Q)
| VStr (s : string)
| VObject.

(** ToBoolean. *)
Definition truthy (v : value) : bool :=
  match v with
  | VUndefined | VNull => false
  | VBool b => b
  | VNum q => negb (Qeq_bool q 0)
  | VStr s => negb (String.eqb s "")
  | VObject => true
  end.

(** [a || b] *)
Definition or (a b : value) : value := if truthy a then a else b.

(** Property read [o.k] on a plain object: [undefined] when absent. *)
Definition prop (o : gmap string value) (k : string) : value :=
  default VUndefined (o !! k).

(** SameValueZero, the comparison of [Array.prototype.includes].  Two
    objects are the same only when they are one object, which a freshly
    parsed body value and an array literal never are. *)
Definition same_value_zero (a b : value) : bool :=
  match a, b with
  | VUndefined, VUndefined => true
  | VNull, VNull => true
  | VBool x, VBool y => Bool.eqb x y
  | VNum x, VNum y => Qeq_bool x y
  | VStr x, VStr y => String.eqb x y
  | _, _ => false
  end.

(** [l.includes(v)] *)
Definition includes (l : list value) (v : value) : bool :=
  existsb (fun x => same_value_zero x v) l.

(** [s.replace(pat, rep)] with a string pattern: the first occurrence of
    [pat] is replaced, the rest of [s] is kept.  (Dollar sequences of the
    replacement are not interpreted; the replacement used by the routes
    is a base64 data URL.) *)
Fixpoint replace (pat rep s : string) : string :=
  if String.prefix pat s
  then rep ++ String.substring (String.length pat) (String.length s - String.length pat) s
  else match s with
       | EmptyString => EmptyString
       | String c s' => String c (replace pat rep s')
       end.

(** Exceptions raised by the handlers' own code. *)
Inductive exn : Type :=
| TypeError (what : string)
| CastError (path : string) (v : string).

End Js.

Export Js(value(..), exn(..)).

(** ** Numbers *)

Module Double.

(** JavaScript numbers are binary64 floating-point numbers.  A finite one
    is kept as the rational it denotes; an arithmetic operation yields the
    exact result rounded to the nearest binary64 number, ties to even.
    (Infinities and NaN are not modelled: the handlers compute below
    [2 ^ 20].) *)

(** [floor(log2 x)] for a positive rational. *)
Definition ilog2 (x : Q) : Z :=
  let d := Z.log2 (Qnum x) - Z.log2 (Zpos (Qden x)) in
  if Qle_bool (2 ^ d) x then d else d - 1.

(** The exponent of the unit in the last place of [x]: 53 significant
    bits, and never below the smallest subnormal. *)
Definition ulp_exp (x : Q) : Z := Z.max (ilog2 x - 52) (-1074).

(** Round to the nearest integer, ties to even. *)
Definition rne (x : Q) : Z :=
  let f := Qfloor x in
  match (x - inject_Z f ?= 1 # 2)%Q with
  | Lt => f
  | Gt => f + 1
  | Eq => if Z.even f then f else f + 1
  end.

(** The binary64 number nearest to [x]. *)
Definition round (x : Q) : Q :=
  match (x ?= 0)%Q with
  | Eq => 0
  | Gt => inject_Z (rne (x / 2 ^ ulp_exp x)) * 2 ^ ulp_exp x
  | Lt => - (inject_Z (rne ((- x) / 2 ^ ulp_exp (- x))) * 2 ^ ulp_exp (- x))
  end%Q.

(** [x * y] and [x + y] *)
Definition mul (x y : Q) : Q := round (x * y).
Definition add (x y : Q) : Q := round (x + y).

(** [x] is a binary64 number. *)
Definition representable (x : Q) : Prop := (round x == x)%Q.

(** The rational a finite number of the standard library's specification
    of IEEE 754 denotes. *)
Definition of_spec (f : spec_float) : Q :=
  match f with
  | S754_finite s m e => (if s then -1 else 1) * inject_Z (Zpos m) * 2 ^ e
  | _ => 0
  end%Q.

End Double.

(** ** Object identifiers *)

Module ObjectId.

(** A 12-byte identifier, kept as its numeric value. *)
Definition t : Type := N.

Definition hex_val (c : ascii) : option N :=
  let n := N_of_ascii c in
  if ((48 <=? n) && (n <=? 57))%N then Some (n - 48)%N
  else if ((97 <=? n) && (n <=? 102))%N then Some (n - 87)%N
  else if ((65 <=? n) && (n <=? 70))%N then Some (n - 55)%N
  else None.

(** The character class [[0-9a-fA-F]]. *)
Definition is_hex (c : ascii) : bool :=
  match hex_val c with Some _ => true | None => false end.

Fixpoint all_hex (s : string) : bool :=
  match s with
  | EmptyString => true
  | String c s' => is_hex c && all_hex s'
  end.

(** [id.match(/^[0-9a-fA-F]{24}$/)], as a truth value. *)
Definition matches (id : string) : bool :=
  (String.length id =? 24)%nat && all_hex id.

Fixpoint hex_value (s : string) (acc : N) : option N :=
  match s with
  | EmptyString => Some acc
  | String c s' =>
      match hex_val c with
      | Some d => hex_value s' (16 * acc + d)%N
      | None => None
      end
  end.

(** Mongoose's cast of a query argument to an ObjectId: a string of 24
    hexadecimal characters is read as 12 bytes, in either letter case;
    anything else is a CastError. *)
Definition cast (s : string) : option t :=
  if matches s then hex_value s 0%N else None.

Definition hex_digit (d : N) : ascii :=
  if (d <? 10)%N then ascii_of_N (48 + d) else ascii_of_N (87 + d).

Fixpoint hex_of (k : nat) (n : N) (acc : string) : string :=
  match k with
  | O => acc
  | S k' => hex_of k' (n / 16)%N (String (hex_digit (n mod 16)%N) acc)
  end.

(** The identifier as clients see it in a JSON response: 24 lower-case
    hexadecimal characters. *)
Definition to_string (i : t) : string := hex_of 24 i EmptyString.

Definition limit : N := (2 ^ 96)%N.

End ObjectId.

(** ** Documents *)

Module Event.

(** Modelled from the spec: models/Event.js is not part of the sources;
    section 3 of the specification lists these fields of an event
    document and no constraint on them, so a document holds the ten text
    fields as they were given, the image URL and the ordered sponsor
    logo URLs.  ([createdAt] only orders the list route.) *)
Record t : Type := mk {
  _id : ObjectId.t;
  title : value;
  description : value;
  date : value;
  location : value;
  category : value;
  address : value;
  standardPrice : value;
  vipPrice : value;
  eventTime : value;
  refreshments : value;
  imageUrl : string;
  sponsorLogos : list string;
}.

(** The ten text fields that create and update read from the body. *)
Inductive field : Type :=
| Title | Description | Date | Location | Category
| Address | StandardPrice | VipPrice | EventTime | Refreshments.

Definition fields : list field :=
  [Title; Description; Date; Location; Category;
   Address; StandardPrice; VipPrice; EventTime; Refreshments].

(** The body key of a field. *)
Definition key (f : field) : string :=
  match f with
  | Title => "title" | Description => "description" | Date => "date"
  | Location => "location" | Category => "category"
  | Address => "address" | StandardPrice => "standardPrice"
  | VipPrice => "vipPrice" | EventTime => "eventTime"
  | Refreshments => "refreshments"
  end.

(** The stored value of a field. *)
Definition get (f : field) (e : t) : value :=
  match f with
  | Title => title e | Description => description e | Date => date e
  | Location => location e | Category => category e
  | Address => address e | StandardPrice => standardPrice e
  | VipPrice => vipPrice e | EventTime => eventTime e
  | Refreshments => refreshments e
  end.

End Event.

Module Booking.

(** Modelled from the spec: models/Booking.js is not part of the
    sources; section 3 of the specification gives the fields of a booking
    document, [ticketNumber] an integer and [status] defaulting to
    Pending.  The attendee fields and [eventId] are held as given (no
    foreign key is enforced). *)
Record t : Type := mk {
  _id : ObjectId.t;
  firstName : value;
  lastName : value;
  contactNumber : value;
  emailAddress : value;
  cityName : value;
  ticketType : value;
  eventId : value;
  ticketNumber : Z;
  receiptImage : string;
  status : value;
}.

Definition default_status : value := VStr "Pending".

(** A booking after [.populate("eventId")]: the reference is replaced by
    the event it names, or by [null] when there is none. *)
Record populated : Type := mkPopulated {
  doc : t;
  event : option Event.t;
}.

Definition set_status (s : value) (b : t) : t :=
  mk (_id b) (firstName b) (lastName b) (contactNumber b) (emailAddress b)
     (cityName b) (ticketType b) (eventId b) (ticketNumber b)
     (receiptImage b) s.

End Booking.

(** ** Requests and responses *)

(** A file held in memory by multer. *)
Record File : Type := { buffer : string }.

(** What a handler reads from [req]: the path parameter of its route
    ([req.params.id] or [req.params.ticketNumber]), the parsed body (the
    empty object when nothing was parsed), [req.file] of [upload.single]
    and [req.files] of [upload.fields].  [files] is [None] when
    [req.files] is undefined, which is the case of every request that is
    not multipart. *)
Record Request : Type := {
  param : string;
  body : gmap string value;
  file : option File;
  files : option (gmap string (list File));
}.

(** The HTML part of a ticket mail: the caller's HTML after substitution
    (first revision) or the built-in entry pass filled in from the booking
    and its event, whose image refers to the attachment [cid:qrCodeImg]
    (second revision; the markup itself is not reproduced). *)
Inductive Html : Type :=
| CallerHtml (html : string)
| EntryPass (booking : Booking.populated).

Record Attachment : Type := {
  filename : string;
  content : string;
  cid : string;
}.

(** The argument of [transporter.sendMail]. *)
Record Mail : Type := {
  from : string;
  to : value;
  subject : value;
  text : option value;
  html : Html;
  attachments : list Attachment;
}.

(** The JSON bodies the routes answer with. *)
Inductive Json : Type :=
| Message (message : string)
| EventJson (event : Event.t)
| BookingJson (booking : Booking.populated)
| WithBooking (message : string) (booking : Booking.t)
| Verification (valid : bool) (message : string) (booking : option Booking.populated)
| EmailSent (message : string) (qrCode : option string)
| Failure (message : string) (error : exn).

(** [res.status(code).json(payload)]; [res.json] alone answers 200. *)
Record Response : Type := { statusCode : nat; json : Json }.

(** ** The world of a request *)

Inductive Model : Type := Events | Bookings.

(** A call on a model or on one of its documents. *)
Inductive DbOp : Type :=
| FindById (m : Model) (id : ObjectId.t)
| FindOne (m : Model) (ticketNumber : Z)
| Save (m : Model) (id : ObjectId.t)
| DeleteOne (m : Model) (id : ObjectId.t)
| FindByIdAndUpdate (m : Model) (id : ObjectId.t).

(** An object kept by the media store. *)
Record Upload : Type := { folder : string; data : string; secure_url : string }.

Record World : Type := mkWorld {
  events : list Event.t;        (* the Event collection, oldest first *)
  bookings : list Booking.t;    (* the Booking collection, oldest first *)
  nextId : ObjectId.t;          (* the identifier the next document gets *)
  media : list Upload;          (* the media store *)
  outbox : list Mail;           (* the mails handed to the transport *)
  dbLog : list DbOp;            (* the database calls made so far *)
  random : nat -> Q;            (* the numbers Math.random() yields *)
  draws : nat;                  (* how many of them were drawn *)
}.

(** What is configured outside the sources: the process environment, the
    third-party encoders, the URL the media store gives an object, the
    schema's cast of a ticket number and the admin middleware. *)
Record Env : Type := {
  CLIENT_URI : string;
  EMAIL_USER : string;
  toDataURL : string -> string;                 (* QRCode.toDataURL *)
  toBuffer : string -> string;                  (* QRCode.toBuffer *)
  cloud_url : string -> string -> nat -> string; (* folder, data, objects stored so far *)
  castNumber : string -> option Z;              (* None: CastError *)
  authAdmin : Request -> option Response;       (* None: next() *)
}.

(** ** Computations *)

Inductive Outcome (A : Type) : Type :=
| Returned (a : A)
| Thrown (e : exn).
Arguments Returned {A} a.
Arguments Thrown {A} e.

Definition M (A : Type) : Type := World -> Outcome A * World.

#[global] Instance M_ret : MRet M := fun A a w => (Returned a, w).

#[global] Instance M_bind : MBind M := fun A B f m w =>
  match m w with
  | (Returned a, w') => f a w'
  | (Thrown e, w') => (Thrown e, w')
  end.

Definition throw {A : Type} (e : exn) : M A := fun w => (Thrown e, w).

(** [try { body } catch (error) { handler }] *)
Definition try_catch {A : Type} (body : M A) (handler : exn -> M A) : M A :=
  fun w =>
    match body w with
    | (Returned a, w') => (Returned a, w')
    | (Thrown e, w') => handler e w'
    end.

Definition respond (code : nat) (payload : Json) : M Response :=
  mret {| statusCode := code; json := payload |}.

Definition Handler : Type := Request -> M Response.

(** ** Collaborators *)

Definition set_events (l : list Event.t) (w : World) : World :=
  mkWorld l (bookings w) (nextId w) (media w) (outbox w) (dbLog w) (random w) (draws w).
Definition set_bookings (l : list Booking.t) (w : World) : World :=
  mkWorld (events w) l (nextId w) (media w) (outbox w) (dbLog w) (random w) (draws w).
Definition set_nextId (i : ObjectId.t) (w : World) : World :=
  mkWorld (events w) (bookings w) i (media w) (outbox w) (dbLog w) (random w) (draws w).
Definition set_media (l : list Upload) (w : World) : World :=
  mkWorld (events w) (bookings w) (nextId w) l (outbox w) (dbLog w) (random w) (draws w).
Definition set_outbox (l : list Mail) (w : World) : World :=
  mkWorld (events w) (bookings w) (nextId w) (media w) l (dbLog w) (random w) (draws w).
Definition set_dbLog (l : list DbOp) (w : World) : World :=
  mkWorld (events w) (bookings w) (nextId w) (media w) (outbox w) l (random w) (draws w).
Definition set_draws (n : nat) (w : World) : World :=
  mkWorld (events w) (bookings w) (nextId w) (media w) (outbox w) (dbLog w) (random w) n.

(** A call is made on the database. *)
Definition query (op : DbOp) (w : World) : World := set_dbLog (dbLog w ++ [op]) w.

(** The ObjectId that [new Event(..)] or [new Booking(..)] gives the
    document.  Modelled from the spec: identity is generated by the
    persistence layer on creation; here the identifiers are handed out in
    sequence. *)
Definition new_id : M ObjectId.t :=
  fun w => (Returned (nextId w), set_nextId (N.succ (nextId w)) w).

(** [Math.random()] *)
Definition Math_random : M Q :=
  fun w => (Returned (random w (draws w)), set_draws (S (draws w)) w).

(** [uploadToCloudinary(buffer, folder)] of the event routes, which
    resolves to [result.secure_url], and [uploadBufferToCloudinary] of the
    booking routes, which resolves to [result] and of which only
    [secure_url] is read. *)
Definition uploadToCloudinary (env : Env) (buf : string) (dir : string) : M string :=
  fun w =>
    let url := cloud_url env dir buf (length (media w)) in
    (Returned url,
     set_media (media w ++ [{| folder := dir; data := buf; secure_url := url |}]) w).

(** [transporter.sendMail(mail)] *)
Definition sendMail (m : Mail) : M unit :=
  fun w => (Returned tt, set_outbox (outbox w ++ [m]) w).

Module EventDb.

Definition lookup (i : ObjectId.t) (l : list Event.t) : option Event.t :=
  List.find (fun e => N.eqb (Event._id e) i) l.

(** [Event.findById(id)]: the argument is cast first, and a failed cast
    rejects before anything is asked of the database. *)
Definition findById (id : string) : M (option Event.t) :=
  match ObjectId.cast id with
  | None => throw (CastError "_id" id)
  | Some i => fun w => (Returned (lookup i (events w)), query (FindById Events i) w)
  end.

(** [doc.save()] of a document made by [new Event(..)]. *)
Definition insert (d : Event.t) : M Event.t :=
  fun w => (Returned d, query (Save Events (Event._id d)) (set_events (events w ++ [d]) w)).

Fixpoint put (d : Event.t) (l : list Event.t) : list Event.t :=
  match l with
  | [] => []
  | e :: l' => if N.eqb (Event._id e) (Event._id d) then d :: l' else e :: put d l'
  end.

(** [doc.save()] of a document that was fetched and assigned to. *)
Definition update (d : Event.t) : M Event.t :=
  fun w => (Returned d, query (Save Events (Event._id d)) (set_events (put d (events w)) w)).

Fixpoint remove (i : ObjectId.t) (l : list Event.t) : list Event.t :=
  match l with
  | [] => []
  | e :: l' => if N.eqb (Event._id e) i then l' else e :: remove i l'
  end.

(** [doc.deleteOne()] *)
Definition deleteOne (d : Event.t) : M unit :=
  fun w => (Returned tt,
            query (DeleteOne Events (Event._id d)) (set_events (remove (Event._id d) (events w)) w)).

End EventDb.

Module BookingDb.

Definition lookup (i : ObjectId.t) (l : list Booking.t) : option Booking.t :=
  List.find (fun b => N.eqb (Booking._id b) i) l.

(** [Booking.findById(id)] *)
Definition findById (id : string) : M (option Booking.t) :=
  match ObjectId.cast id with
  | None => throw (CastError "_id" id)
  | Some i => fun w => (Returned (lookup i (bookings w)), query (FindById Bookings i) w)
  end.

(** [Booking.findOne({ ticketNumber })]: the first document, in the
    order of the collection, whose ticket number is the one the path
    segment casts to. *)
Definition findOne (env : Env) (ticketNumber : string) : M (option Booking.t) :=
  match castNumber env ticketNumber with
  | None => throw (CastError "ticketNumber" ticketNumber)
  | Some n => fun w =>
      (Returned (List.find (fun b => Z.eqb (Booking.ticketNumber b) n) (bookings w)),
       query (FindOne Bookings n) w)
  end.

(** The identifier a booking refers to, when [eventId] holds the text of
    one. *)
Definition reference (b : Booking.t) : option ObjectId.t :=
  match Booking.eventId b with
  | VStr s => ObjectId.cast s
  | _ => None
  end.

(** [.populate("eventId")] on the result of a query: the referenced
    event is looked up and put in place of the reference. *)
Definition populate (found : option Booking.t) : M (option Booking.populated) :=
  match found with
  | None => mret None
  | Some b =>
      match reference b with
      | Some i => fun w =>
          (Returned (Some (Booking.mkPopulated b (EventDb.lookup i (events w)))),
           query (FindById Events i) w)
      | None => mret (Some (Booking.mkPopulated b None))
      end
  end.

(** [doc.save()] of a document made by [new Booking(..)]. *)
Definition insert (d : Booking.t) : M unit :=
  fun w => (Returned tt, query (Save Bookings (Booking._id d)) (set_bookings (bookings w ++ [d]) w)).

Fixpoint remove (i : ObjectId.t) (l : list Booking.t) : list Booking.t :=
  match l with
  | [] => []
  | b :: l' => if N.eqb (Booking._id b) i then l' else b :: remove i l'
  end.

(** [doc.deleteOne()] *)
Definition deleteOne (d : Booking.t) : M unit :=
  fun w => (Returned tt,
            query (DeleteOne Bookings (Booking._id d))
                  (set_bookings (remove (Booking._id d) (bookings w)) w)).

Fixpoint set_status (i : ObjectId.t) (s : value) (l : list Booking.t) : list Booking.t :=
  match l with
  | [] => []
  | b :: l' =>
      if N.eqb (Booking._id b) i then Booking.set_status s b :: l'
      else b :: set_status i s l'
  end.

(** [Booking.findByIdAndUpdate(id, { status }, { new: true })]: the
    document after the update, or [null] when none has this id. *)
Definition findByIdAndUpdate (id : string) (s : value) : M (option Booking.t) :=
  match ObjectId.cast id with
  | None => throw (CastError "_id" id)
  | Some i => fun w =>
      (Returned (Booking.set_status s <$> lookup i (bookings w)),
       query (FindByIdAndUpdate Bookings i) (set_bookings (set_status i s (bookings w)) w))
  end.

End BookingDb.

(** ** routes/eventRoutes.js *)

Module EventRoutes.

(** [req.files.name]: a read on [undefined] when the request carried no
    multipart body. *)
Definition files_prop (req : Request) (name : string) : M (option (list File)) :=
  match files req with
  | None => throw (TypeError "Cannot read properties of undefined")
  | Some fs => mret (fs !! name)
  end.

(** [list[0].buffer] *)
Definition first_buffer (l : list File) : M string :=
  match l with
  | f :: _ => mret (buffer f)
  | [] => throw (TypeError "Cannot read properties of undefined (reading 'buffer')")
  end.

(** The loop over [req.files.sponsorLogos]: every file is uploaded in
    turn and its URL pushed. *)
Fixpoint upload_logos (env : Env) (l : list File) : M (list string) :=
  match l with
  | [] => mret []
  | f :: l' =>
      url ← uploadToCloudinary env (buffer f) "events/sponsors";
      urls ← upload_logos env l';
      mret (url :: urls)
  end.

(** POST /add *)
Definition add (env : Env) : Handler := fun req =>
  try_catch
    (let b := body req in
     image ← files_prop req "imageUrl";
     imageUrl ← match image with
                | Some l => buf ← first_buffer l; uploadToCloudinary env buf "events"
                | None => mret ""
                end;
     logos ← files_prop req "sponsorLogos";
     sponsorLogos ← match logos with
                    | Some l => upload_logos env l
                    | None => mret []
                    end;
     i ← new_id;
     let newEvent :=
       Event.mk i
         (Js.prop b "title") (Js.prop b "description") (Js.prop b "date")
         (Js.prop b "location") (Js.prop b "category") (Js.prop b "address")
         (Js.prop b "standardPrice") (Js.prop b "vipPrice")
         (Js.prop b "eventTime") (Js.prop b "refreshments")
         imageUrl sponsorLogos in
     savedEvent ← EventDb.insert newEvent;
     respond 201 (EventJson savedEvent))
    (fun err => respond 500 (Message "Failed to create event")).

(** GET /:id *)
Definition get : Handler := fun req =>
  try_catch
    (let id := param req in
     if negb (ObjectId.matches id) then respond 400 (Message "Invalid event ID")
     else
       event ← EventDb.findById id;
       match event with
       | None => respond 404 (Message "Event not found")
       | Some e => respond 200 (EventJson e)
       end)
    (fun err => respond 500 (Message "Failed to fetch event")).

(** The ten assignments [event.f = f || event.f]. *)
Definition assign (b : gmap string value) (e : Event.t) : Event.t :=
  Event.mk (Event._id e)
    (Js.or (Js.prop b "title") (Event.title e))
    (Js.or (Js.prop b "description") (Event.description e))
    (Js.or (Js.prop b "date") (Event.date e))
    (Js.or (Js.prop b "location") (Event.location e))
    (Js.or (Js.prop b "category") (Event.category e))
    (Js.or (Js.prop b "address") (Event.address e))
    (Js.or (Js.prop b "standardPrice") (Event.standardPrice e))
    (Js.or (Js.prop b "vipPrice") (Event.vipPrice e))
    (Js.or (Js.prop b "eventTime") (Event.eventTime e))
    (Js.or (Js.prop b "refreshments") (Event.refreshments e))
    (Event.imageUrl e) (Event.sponsorLogos e).

Definition set_imageUrl (u : string) (e : Event.t) : Event.t :=
  Event.mk (Event._id e) (Event.title e) (Event.description e) (Event.date e)
    (Event.location e) (Event.category e) (Event.address e)
    (Event.standardPrice e) (Event.vipPrice e) (Event.eventTime e)
    (Event.refreshments e) u (Event.sponsorLogos e).

Definition set_sponsorLogos (l : list string) (e : Event.t) : Event.t :=
  Event.mk (Event._id e) (Event.title e) (Event.description e) (Event.date e)
    (Event.location e) (Event.category e) (Event.address e)
    (Event.standardPrice e) (Event.vipPrice e) (Event.eventTime e)
    (Event.refreshments e) (Event.imageUrl e) l.

(** PUT /:id *)
Definition put (env : Env) : Handler := fun req =>
  try_catch
    (let id := param req in
     if negb (ObjectId.matches id) then respond 400 (Message "Invalid event ID")
     else
       found ← EventDb.findById id;
       match found with
       | None => respond 404 (Message "Event not found")
       | Some event =>
           let event := assign (body req) event in
           image ← files_prop req "imageUrl";
           event ← match image with
                   | Some l =>
                       buf ← first_buffer l;
                       url ← uploadToCloudinary env buf "events";
                       mret (set_imageUrl url event)
                   | None => mret event
                   end;
           logos ← files_prop req "sponsorLogos";
           event ← match logos with
                   | Some l =>
                       sponsorLogos ← upload_logos env l;
                       mret (set_sponsorLogos sponsorLogos event)
                   | None => mret event
                   end;
           updatedEvent ← EventDb.update event;
           respond 200 (EventJson updatedEvent)
       end)
    (fun err => respond 500 (Message "Failed to update event")).

(** DELETE /:id *)
Definition delete : Handler := fun req =>
  try_catch
    (let id := param req in
     if negb (ObjectId.matches id) then respond 400 (Message "Invalid event ID")
     else
       found ← EventDb.findById id;
       match found with
       | None => respond 404 (Message "Event not found")
       | Some event =>
           _ ← EventDb.deleteOne event;
           respond 200 (Message "Event deleted successfully")
       end)
    (fun err => respond 500 (Message "Failed to delete event")).

(** A route behind [authAdmin]: the handler runs only when the
    middleware calls [next()]. *)
Definition admin_only (env : Env) (h : Handler) : Handler := fun req =>
  match authAdmin env req with
  | Some refusal => mret refusal
  | None => h req
  end.

Definition route_add (env : Env) : Handler := admin_only env (add env).
Definition route_put (env : Env) : Handler := admin_only env (put env).
Definition route_delete (env : Env) : Handler := admin_only env delete.

End EventRoutes.

(** ** routes/bookingRoutes.js, first revision *)

(** [Math.floor] *)
Definition Math_floor (x : Q) : Z := Qfloor x.

(** [validStatuses] *)
Definition validStatuses : list value :=
  [VStr "Pending"; VStr "Paid"; VStr "Unpaid"; VStr "Cancelled"].

(** [htmlContent.replace(pat, rep)]: only a string has the method. *)
Definition call_replace (v : value) (pat rep : string) : M string :=
  match v with
  | VStr s => mret (Js.replace pat rep s)
  | _ => throw (TypeError "htmlContent.replace is not a function")
  end.

Definition dquote : string := String (ascii_of_nat 34) EmptyString.

(** The sender, [Event Ticket] in double quotes followed by the address
    in angle brackets. *)
Definition sender (env : Env) : string :=
  dquote ++ "Event Ticket" ++ dquote ++ " <" ++ EMAIL_USER env ++ ">".

Module BookingRoutes.

(** POST /booking/create *)
Definition create (env : Env) : Handler := fun req =>
  try_catch
    (let b := body req in
     let eventId := Js.prop b "eventId" in
     match file req with
     | None => respond 400 (Message "Receipt image is required")
     | Some receipt =>
         if negb (Js.truthy eventId) then respond 400 (Message "eventId is required")
         else
           uploadResult ← uploadToCloudinary env (buffer receipt) "receipts";
           r ← Math_random;
           let ticketNumber := Math_floor (Double.add 100000 (Double.mul r 900000)) in
           i ← new_id;
           let newBooking :=
             Booking.mk i
               (Js.prop b "firstName") (Js.prop b "lastName")
               (Js.prop b "contactNumber") (Js.prop b "emailAddress")
               (Js.prop b "cityName") (Js.prop b "ticketType")
               eventId ticketNumber uploadResult Booking.default_status in
           _ ← BookingDb.insert newBooking;
           respond 201 (WithBooking "Booking created successfully" newBooking)
     end)
    (fun error => respond 500 (Failure "Booking failed" error)).

(** GET /booking/:id *)
Definition get : Handler := fun req =>
  try_catch
    (found ← BookingDb.findById (param req);
     booking ← BookingDb.populate found;
     match booking with
     | None => respond 404 (Message "Booking not found")
     | Some b => respond 200 (BookingJson b)
     end)
    (fun error => respond 500 (Message "Failed to fetch booking")).

(** DELETE /booking/:id *)
Definition delete : Handler := fun req =>
  try_catch
    (found ← BookingDb.findById (param req);
     match found with
     | None => respond 404 (Message "Booking not found")
     | Some booking =>
         _ ← BookingDb.deleteOne booking;
         respond 200 (Message "Booking deleted successfully")
     end)
    (fun error => respond 500 (Message "Failed to delete booking")).

(** PUT /booking/update-status/:id *)
Definition update_status : Handler := fun req =>
  try_catch
    (let status := Js.prop (body req) "status" in
     if negb (Js.includes validStatuses status)
     then respond 400 (Message "Invalid status value")
     else
       updated ← BookingDb.findByIdAndUpdate (param req) status;
       match updated with
       | None => respond 404 (Message "Booking not found")
       | Some booking => respond 200 (WithBooking "Status updated successfully" booking)
       end)
    (fun error => respond 500 (Failure "Failed to update status" error)).

(** GET /booking/verify/:ticketNumber *)
Definition verify (env : Env) : Handler := fun req =>
  try_catch
    (let ticketNumber := param req in
     found ← BookingDb.findOne env ticketNumber;
     booking ← BookingDb.populate found;
     match booking with
     | None =>
         respond 404 (Verification false "Invalid ticket. No matching record found." None)
     | Some b => respond 200 (Verification true "Ticket is valid" (Some b))
     end)
    (fun error => respond 500 (Failure "Verification failed" error)).

(** POST /booking/send-email/:id *)
Definition send_email (env : Env) : Handler := fun req =>
  try_catch
    (let subject := Js.prop (body req) "subject" in
     let message := Js.prop (body req) "message" in
     let htmlContent := Js.prop (body req) "htmlContent" in
     if negb (Js.truthy htmlContent) then respond 400 (Message "htmlContent is required")
     else
       found ← BookingDb.findById (param req);
       match found with
       | None => respond 404 (Message "Booking not found")
       | Some booking =>
           let verificationURL :=
             "https://your-domain.com/verify-ticket/" ++ pretty (Booking.ticketNumber booking) in
           let qrCodeDataURL := toDataURL env verificationURL in
           finalHTML ← call_replace htmlContent "{{QR_CODE}}" qrCodeDataURL;
           _ ← sendMail {| from := sender env;
                           to := Booking.emailAddress booking;
                           subject := Js.or subject (VStr "Your Ticket");
                           text := Some (Js.or message (VStr "Here is your ticket"));
                           html := CallerHtml finalHTML;
                           attachments := [] |};
           respond 200 (EmailSent "Email sent successfully" (Some qrCodeDataURL))
       end)
    (fun error => respond 500 (Failure "Email sending failed" error)).

End BookingRoutes.

(** ** routes/bookingRoutes.js, second revision *)

Module BookingRoutes2.

(** POST /booking/create *)
Definition create (env : Env) : Handler := fun req =>
  try_catch
    (let b := body req in
     let eventId := Js.prop b "eventId" in
     match file req with
     | None => respond 400 (Message "Receipt image is required")
     | Some receipt =>
         if negb (Js.truthy eventId) then respond 400 (Message "eventId is required")
         else
           uploadResult ← uploadToCloudinary env (buffer receipt) "receipts";
           r ← Math_random;
           let ticketNumber := Math_floor (Double.add 100000 (Double.mul r 900000)) in
           i ← new_id;
           let newBooking :=
             Booking.mk i
               (Js.prop b "firstName") (Js.prop b "lastName")
               (Js.prop b "contactNumber") (Js.prop b "emailAddress")
               (Js.prop b "cityName") (Js.prop b "ticketType")
               eventId ticketNumber uploadResult Booking.default_status in
           _ ← BookingDb.insert newBooking;
           respond 201 (WithBooking "Booking created successfully" newBooking)
     end)
    (fun error => respond 500 (Failure "Booking failed" error)).

(** GET /booking/:id *)
Definition get : Handler := fun req =>
  try_catch
    (found ← BookingDb.findById (param req);
     booking ← BookingDb.populate found;
     match booking with
     | None => respond 404 (Message "Booking not found")
     | Some b => respond 200 (BookingJson b)
     end)
    (fun error => respond 500 (Message "Failed to fetch booking")).

(** DELETE /booking/:id *)
Definition delete : Handler := fun req =>
  try_catch
    (found ← BookingDb.findById (param req);
     match found with
     | None => respond 404 (Message "Booking not found")
     | Some booking =>
         _ ← BookingDb.deleteOne booking;
         respond 200 (Message "Booking deleted successfully")
     end)
    (fun error => respond 500 (Message "Failed to delete booking")).

(** PUT /booking/update-status/:id *)
Definition update_status : Handler := fun req =>
  try_catch
    (let status := Js.prop (body req) "status" in
     if negb (Js.includes validStatuses status)
     then respond 400 (Message "Invalid status value")
     else
       updated ← BookingDb.findByIdAndUpdate (param req) status;
       match updated with
       | None => respond 404 (Message "Booking not found")
       | Some booking => respond 200 (WithBooking "Status updated successfully" booking)
       end)
    (fun error => respond 500 (Failure "Failed to update status" error)).

(** GET /booking/verify/:ticketNumber *)
Definition verify (env : Env) : Handler := fun req =>
  try_catch
    (let ticketNumber := param req in
     found ← BookingDb.findOne env ticketNumber;
     booking ← BookingDb.populate found;
     match booking with
     | None =>
         respond 404 (Verification false "Invalid ticket. No matching record found." None)
     | Some b => respond 200 (Verification true "Ticket is valid" (Some b))
     end)
    (fun error => respond 500 (Failure "Verification failed" error)).

(** POST /booking/send-email/:id, the QR code as an inline attachment *)
Definition send_email (env : Env) : Handler := fun req =>
  try_catch
    (found ← BookingDb.findById (param req);
     booking ← BookingDb.populate found;
     match booking with
     | None => respond 404 (Message "Booking not found")
     | Some booking =>
         let subject := Js.prop (body req) "subject" in
         let verificationURL :=
           CLIENT_URI env ++ "/verify-ticket/"
             ++ pretty (Booking.ticketNumber (Booking.doc booking)) in
         let qrBuffer := toBuffer env verificationURL in
         let emailHTML := EntryPass booking in
         _ ← sendMail {| from := sender env;
                         to := Booking.emailAddress (Booking.doc booking);
                         subject := Js.or subject (VStr "Your Ticket");
                         text := None;
                         html := emailHTML;
                         attachments := [ {| filename := "qrcode.png";
                                             content := qrBuffer;
                                             cid := "qrCodeImg" |} ] |};
         respond 200 (EmailSent "Email sent successfully" None)
     end)
    (fun error => respond 500 (Failure "Email sending failed" error)).

End BookingRoutes2.

(** ** Vocabulary of the properties *)

Definition invalid_event_id : Response :=
  {| statusCode := 400; json := Message "Invalid event ID" |}.

Definition event_not_found : Response :=
  {| statusCode := 404; json := Message "Event not found" |}.

Definition invalid_status : Response :=
  {| statusCode := 400; json := Message "Invalid status value" |}.

Definition status_updated (b : Booking.t) : Response :=
  {| statusCode := 200; json := WithBooking "Status updated successfully" b |}.

(** A value of the status enumeration. *)
Definition is_status (v : value) : Prop :=
  v = VStr "Pending" \/ v = VStr "Paid" \/ v = VStr "Unpaid" \/ v = VStr "Cancelled".

Definition invalid_ticket : Response :=
  {| statusCode := 404;
     json := Verification false "Invalid ticket. No matching record found." None |}.

Definition valid_ticket (b : Booking.populated) : Response :=
  {| statusCode := 200; json := Verification true "Ticket is valid" (Some b) |}.

(** A booking with its referenced event read from the world. *)
Definition populated_in (w : World) (b : Booking.t) : Booking.populated :=
  Booking.mkPopulated b (BookingDb.reference b ≫= fun i => EventDb.lookup i (events w)).

Definition booking_created (b : Booking.t) : Response :=
  {| statusCode := 201; json := WithBooking "Booking created successfully" b |}.

(** The files a request carries under a multipart field, if any. *)
Definition attached (req : Request) (name : string) : option (list File) :=
  match files req with
  | Some fs => fs !! name
  | None => None
  end.

(** A multipart request as multer hands it on: [req.files] is an object,
    and a field that is present holds at least one file. *)
Definition multipart (req : Request) : Prop :=
  is_Some (files req) /\ forall name, attached req name <> Some [].

(** The media store keeps file [f] as object [u] of folder [dir]. *)
Definition stored (dir : string) (f : File) (u : Upload) : Prop :=
  folder u = dir /\ data u = buffer f.

(** The request with body key [k] left out. *)
Definition without (k : string) (req : Request) : Request :=
  {| param := param req; body := base.delete k (body req);
     file := file req; files := files req |}.

Definition update_failed : Response :=
  {| statusCode := 500; json := Message "Failed to update event" |}.

Definition event_answer (code : nat) (e : Event.t) : Response :=
  {| statusCode := code; json := EventJson e |}.

(** The identifiers in use are below the next one to be handed out, and
    that one still fits in 12 bytes. *)
Definition fresh_ids (w : World) : Prop :=
  (nextId w < ObjectId.limit)%N /\
  Forall (fun e => (Event._id e < nextId w)%N) (events w).

Definition email_sent (qrCode : option string) : Response :=
  {| statusCode := 200; json := EmailSent "Email sent successfully" qrCode |}.

Definition booking_not_found : Response :=
  {| statusCode := 404; json := Message "Booking not found" |}.

Definition html_required : Response :=
  {| statusCode := 400; json := Message "htmlContent is required" |}.

(** The verification URL of a booking under a site address: it ends in
    the decimal text of the ticket number. *)
Definition verification_url (site : string) (b : Booking.t) : string :=
  site ++ "/verify-ticket/" ++ pretty (Booking.ticketNumber b).

(** The inline QR image of the second revision. *)
Definition qr_attachment (env : Env) (b : Booking.t) : Attachment :=
  {| filename := "qrcode.png";
     content := toBuffer env (verification_url (CLIENT_URI env) b);
     cid := "qrCodeImg" |}.

(** ** A concrete deployment, for examples *)

Module Demo.

Fixpoint digits (s : string) (acc : Z) : option Z :=
  match s with
  | EmptyString => Some acc
  | String c s' =>
      let n := Z.of_N (N_of_ascii c) in
      if (48 <=? n) && (n <=? 57) then digits s' (10 * acc + (n - 48)) else None
  end.

(** A cast that reads decimal numerals and rejects everything else. *)
Definition decimal (s : string) : option Z :=
  match s with
  | EmptyString => None
  | _ => digits s 0
  end.

Definition env : Env := {|
  CLIENT_URI := "https://rangrez-events-front-end.vercel.app";
  EMAIL_USER := "tickets@rangrez.example";
  toDataURL := fun u => "data:image/png;base64," ++ u;
  toBuffer := fun u => "PNG " ++ u;
  cloud_url := fun dir buf k => "https://res.cloudinary.com/" ++ dir ++ "/" ++ pretty k;
  castNumber := decimal;
  authAdmin := fun _ => None;
|}.

Definition concert : Event.t :=
  Event.mk 1%N (VStr "Concert") (VStr "An evening of music") (VStr "2025-01-01")
    (VStr "Lahore") (VStr "Music") (VStr "12 Mall Road") (VStr "1500")
    (VStr "4000") (VStr "19:00") (VStr "Tea")
    "https://res.cloudinary.com/events/0" [].

Definition concert_id : string := "000000000000000000000001".

Definition sara : Booking.t :=
  Booking.mk 2%N (VStr "Sara") (VStr "Waseem") (VStr "03001234567")
    (VStr "sara@example.com") (VStr "Lahore") (VStr "VIP")
    (VStr concert_id) 123456 "https://res.cloudinary.com/receipts/1"
    (VStr "Pending").

(** A second booking that happens to carry the same ticket number. *)
Definition ali : Booking.t :=
  Booking.mk 3%N (VStr "Ali") (VStr "Khan") (VStr "03007654321")
    (VStr "ali@example.com") (VStr "Karachi") (VStr "Standard")
    (VStr concert_id) 123456 "https://res.cloudinary.com/receipts/2"
    (VStr "Paid").

Definition sara_id : string := "000000000000000000000002".

Definition world : World := {|
  events := [concert];
  bookings := [sara; ali];
  nextId := 4%N;
  media := [];
  outbox := [];
  dbLog := [];
  random := fun _ => (1 # 2)%Q;
  draws := 0;
|}.

Definition request (p : string) (b : list (string * value)) : Request :=
  {| param := p; body := list_to_map b; file := None; files := None |}.

Definition multipart (p : string) (b : list (string * value))
    (fs : list (string * list File)) : Request :=
  {| param := p; body := list_to_map b; file := None; files := Some (list_to_map fs) |}.

(** A send-email request for Sara's booking with an empty body. *)
Definition bare_send : Request := request sara_id [].

(** The same with a template for the first revision. *)
Definition templated_send : Request :=
  request sara_id [("htmlContent", VStr "<p>Your pass</p><img src={{QR_CODE}}>")].

(** A well-formed id that no document carries. *)
Definition unknown_id : string := "0000000000000000000000ff".

(** An update of the concert: a new title, an empty description and a
    new poster. *)
Definition retitle : Request :=
  multipart concert_id
    [("title", VStr "Gala"); ("description", VStr "")]
    [("imageUrl", [ {| buffer := "poster.png" |} ])].

(** The payload of the specification's scenario. *)
Definition new_concert : Request :=
  multipart "" [("title", VStr "Concert"); ("date", VStr "2025-01-01")] [].

Definition with_receipt (b : list (string * value)) : Request :=
  {| param := ""; body := list_to_map b; file := Some {| buffer := "receipt.png" |};
     files := None |}.

End Demo.

(** ** Vocabulary of the further properties *)

Definition event_deleted : Response :=
  {| statusCode := 200; json := Message "Event deleted successfully" |}.

Definition create_failed : Response :=
  {| statusCode := 500; json := Message "Failed to create event" |}.

Definition booking_deleted : Response :=
  {| statusCode := 200; json := Message "Booking deleted successfully" |}.

Definition booking_answer (b : Booking.populated) : Response :=
  {| statusCode := 200; json := BookingJson b |}.

(** No two stored events, or bookings, carry the same identifier. *)
Definition distinct_event_ids (w : World) : Prop :=
  NoDup (Event._id <$> events w).

Definition distinct_booking_ids (w : World) : Prop :=
  NoDup (Booking._id <$> bookings w).

(** A computation leaves a component of the world as it found it,
    whatever the world and whether it returns or throws. *)
Definition keeps {A B : Type} (part : World -> B) (m : M A) : Prop :=
  forall w, part (m w).2 = part w.

(** A route that only reads: collections, identifiers, media store and
    outbox are as before, for every request. *)
Definition read_only (h : M Response) : Prop :=
  keeps events h /\ keeps bookings h /\ keeps nextId h /\
  keeps media h /\ keeps outbox h.

Definition fetch_booking_failed : Response :=
  {| statusCode := 500; json := Message "Failed to fetch booking" |}.

Definition failure (message : string) (e : exn) : Response :=
  {| statusCode := 500; json := Failure message e |}.

(** [pat] occurs in [s]. *)
Definition occurs (pat s : string) : Prop :=
  exists a b, s = a ++ pat ++ b.

(** A handler that always answers and sends a mail exactly when it answers
    200: then one mail, from the configured sender, to the [emailAddress]
    of a stored booking. *)
Definition mail_iff_ok (env : Env) (h : Handler) : Prop :=
  forall req w,
  exists res w',
    h req w = (Returned res, w') /\
    ((statusCode res = 200%nat /\
      exists m b, outbox w' = (outbox w ++ [m])%list /\ from m = sender env /\
                  b ∈ bookings w /\ to m = Booking.emailAddress b) \/
     (statusCode res <> 200%nat /\ outbox w' = outbox w)).

(** The identifiers in use are distinct within each collection and below
    the next one to be handed out. *)
Definition consistent (w : World) : Prop :=
  Forall (fun e => (Event._id e < nextId w)%N) (events w) /\
  NoDup (Event._id <$> events w) /\
  Forall (fun b => (Booking._id b < nextId w)%N) (bookings w) /\
  NoDup (Booking._id <$> bookings w).

(** A handler under which [consistent] is an invariant. *)
Definition keeps_consistent (h : Handler) : Prop :=
  forall req w, consistent w -> consistent (h req w).2.

(** ** Further requests of the concrete deployment *)

Module Scenario.

(** A booking whose ticket number is the one the next draw of
    [Demo.world] gives. *)
Definition omar : Booking.t :=
  Booking.mk 5%N (VStr "Omar") (VStr "Sheikh") (VStr "03211234567")
    (VStr "omar@example.com") (VStr "Multan") (VStr "Standard")
    (VStr Demo.concert_id) 550000 "https://res.cloudinary.com/receipts/3"
    (VStr "Unpaid").

Definition omar_id : string := "000000000000000000000005".

Definition world : World := {|
  events := [Demo.concert];
  bookings := [Demo.sara; omar];
  nextId := 6%N;
  media := [];
  outbox := [];
  dbLog := [];
  random := fun _ => (1 # 2)%Q;
  draws := 0;
|}.

Definition poster : File := {| buffer := "poster.png" |}.
Definition logo1 : File := {| buffer := "bank.png" |}.
Definition logo2 : File := {| buffer := "radio.png" |}.

(** A new event with a poster and two sponsor logos. *)
Definition launch : Request :=
  Demo.multipart "" [("title", VStr "Launch"); ("venue", VStr "Karachi")]
    [("imageUrl", [poster]); ("sponsorLogos", [logo1; logo2])].

(** An update of the concert's title that attaches nothing. *)
Definition rename : Request :=
  Demo.multipart Demo.concert_id [("title", VStr "Gala")] [].

(** The same update sent as JSON. *)
Definition rename_json : Request :=
  Demo.request Demo.concert_id [("title", VStr "Gala")].

Definition book : Request :=
  Demo.with_receipt [("eventId", VStr Demo.concert_id); ("firstName", VStr "Hina")].

Definition mark (id status : string) : Request :=
  Demo.request id [("status", VStr status)].

(** Send-email requests of the first revision: a number for the HTML, a
    text without the placeholder, a text with two placeholders. *)
Definition send_number : Request :=
  Demo.request Demo.sara_id [("htmlContent", VNum 5)].

Definition send_plain : Request :=
  Demo.request Demo.sara_id [("htmlContent", VStr "Welcome")].

Definition send_twice : Request :=
  Demo.request Demo.sara_id [("htmlContent", VStr "Pass {{QR_CODE}} copy {{QR_CODE}}")].

End Scenario.

(** * Properties *)

(** ** Computations *)

Lemma bind_returned {A B : Type} (m : M A) (f : A -> M B) (w w1 : World) (a : A) :
  m w = (Returned a, w1) -> (m ≫= f) w = f a w1.
Proof. intros H. unfold mbind, M_bind. by rewrite H. Qed.

Lemma bind_thrown {A B : Type} (m : M A) (f : A -> M B) (w w1 : World) (e : exn) :
  m w = (Thrown e, w1) -> (m ≫= f) w = (Thrown e, w1).
Proof. intros H. unfold mbind, M_bind. by rewrite H. Qed.

Lemma bind_ext {A B : Type} (m : M A) (f g : A -> M B) (w : World) :
  (forall a w1, f a w1 = g a w1) -> (m ≫= f) w = (m ≫= g) w.
Proof. intros H. unfold mbind, M_bind. destruct (m w) as [[a|e] w1]; [apply H | done]. Qed.

Lemma world_eta (w : World) :
  mkWorld (events w) (bookings w) (nextId w) (media w) (outbox w) (dbLog w)
    (random w) (draws w) = w.
Proof. by destruct w. Qed.

(** ** Object identifiers *)

Lemma cast_matches (s : string) (i : ObjectId.t) :
  ObjectId.cast s = Some i -> ObjectId.matches s = true.
Proof.
  unfold ObjectId.cast. destruct (ObjectId.matches s); [done | discriminate].
Qed.

Lemma hex_value_all_hex (s : string) (acc : N) :
  ObjectId.all_hex s = true -> is_Some (ObjectId.hex_value s acc).
Proof.
  revert acc. induction s as [|c s IH]; intros acc H; simpl in *.
  - eauto.
  - apply andb_prop in H as [Hc Hs]. unfold ObjectId.is_hex in Hc.
    destruct (ObjectId.hex_val c); [|discriminate]. by apply IH.
Qed.

(** An id that passes the handlers' format check is one the query accepts. *)
Lemma matches_cast (s : string) :
  ObjectId.matches s = true -> is_Some (ObjectId.cast s).
Proof.
  intros H. unfold ObjectId.cast. rewrite H.
  apply hex_value_all_hex. unfold ObjectId.matches in H.
  by apply andb_prop in H as [_ H].
Qed.

Lemma cast_malformed (s : string) :
  ObjectId.matches s = false -> ObjectId.cast s = None.
Proof. intros H. unfold ObjectId.cast. by rewrite H. Qed.

(** ** Event routes: the id format check *)

(** C6. GET /api/events/:id: an id that is not 24 hexadecimal characters
    is answered 400 and the world, its query log included, is untouched;
    a well-formed id that no stored event carries is answered 404, the one
    lookup being the only thing that happened. *)
Theorem get_event_id_check (req : Request) (w : World) :
  (ObjectId.matches (param req) = false ->
     EventRoutes.get req w = (Returned invalid_event_id, w)) /\
  (ObjectId.matches (param req) = true ->
     (forall e, e ∈ events w -> ObjectId.cast (param req) <> Some (Event._id e)) ->
     exists i, ObjectId.cast (param req) = Some i /\
       EventRoutes.get req w = (Returned event_not_found, query (FindById Events i) w)).
Proof.
  split.
  - intros H. unfold EventRoutes.get, try_catch. by rewrite H.
  - intros H Habs. destruct (matches_cast _ H) as [i Hi]. exists i. split; [done|].
    assert (Hl : EventDb.lookup i (events w) = None).
    { unfold EventDb.lookup. destruct (find _ _) as [e|] eqn:Hf; [|done].
      apply find_some in Hf as [Hin Heq]. apply N.eqb_eq in Heq.
      destruct (Habs e); [by apply list_elem_of_In | by rewrite Hi, Heq]. }
    unfold EventRoutes.get, try_catch. rewrite H. simpl.
    unfold mbind, M_bind, EventDb.findById. rewrite Hi. simpl. by rewrite Hl.
Qed.

(** C10. PUT and DELETE /api/events/:id make the same check first: with a
    malformed id both handlers answer 400 and hand back the world as they
    found it, so no query was issued and no event record changed.  Behind
    the admin middleware the whole route leaves the world alone as well. *)
Theorem put_delete_id_check (env : Env) (req : Request) (w : World) :
  ObjectId.matches (param req) = false ->
  EventRoutes.put env req w = (Returned invalid_event_id, w) /\
  EventRoutes.delete req w = (Returned invalid_event_id, w) /\
  (EventRoutes.route_put env req w).2 = w /\
  (EventRoutes.route_delete env req w).2 = w.
Proof.
  intros H.
  assert (Hput : EventRoutes.put env req w = (Returned invalid_event_id, w)).
  { unfold EventRoutes.put, try_catch. by rewrite H. }
  assert (Hdel : EventRoutes.delete req w = (Returned invalid_event_id, w)).
  { unfold EventRoutes.delete, try_catch. by rewrite H. }
  repeat split; try done.
  - unfold EventRoutes.route_put, EventRoutes.admin_only.
    destruct (authAdmin env req); [done | by rewrite Hput].
  - unfold EventRoutes.route_delete, EventRoutes.admin_only.
    destruct (authAdmin env req); [done | by rewrite Hdel].
Qed.

(** ** Booking routes: creation guards *)

Lemma create_revisions_agree (env : Env) :
  BookingRoutes2.create env = BookingRoutes.create env.
Proof. reflexivity. Qed.

Lemma update_status_revisions_agree :
  BookingRoutes2.update_status = BookingRoutes.update_status.
Proof. reflexivity. Qed.

Lemma verify_revisions_agree (env : Env) :
  BookingRoutes2.verify env = BookingRoutes.verify env.
Proof. reflexivity. Qed.

Lemma prop_absent (b : gmap string value) (k : string) :
  b !! k = None -> Js.prop b k = VUndefined.
Proof. intros H. unfold Js.prop. by rewrite H. Qed.

(** The guard on [eventId] rejects every falsy value, the empty string
    included. *)
Lemma create_falsy_event (env : Env) (req : Request) (w : World) (receipt : File) :
  file req = Some receipt ->
  Js.truthy (Js.prop (body req) "eventId") = false ->
  BookingRoutes.create env req w
  = (Returned {| statusCode := 400; json := Message "eventId is required" |}, w).
Proof.
  intros Hf He. unfold BookingRoutes.create, try_catch. by rewrite Hf, He.
Qed.

(** C4. POST /api/booking/create without the receipt image, or without
    [eventId] in the body, is answered 400 in both revisions and the world
    is handed back as it was: nothing was uploaded to the media store and
    no booking was stored. *)
Theorem create_requires_receipt_and_event (env : Env) (req : Request) (w : World) :
  file req = None \/ body req !! "eventId" = None ->
  exists msg,
    BookingRoutes.create env req w
    = (Returned {| statusCode := 400; json := Message msg |}, w) /\
    BookingRoutes2.create env req w
    = (Returned {| statusCode := 400; json := Message msg |}, w).
Proof.
  intros H. change (BookingRoutes2.create env) with (BookingRoutes.create env).
  destruct (file req) as [receipt|] eqn:Hf.
  - destruct H as [H|H]; [discriminate|].
    exists "eventId is required". split; apply (create_falsy_event env req w receipt Hf);
      by rewrite (prop_absent _ _ H).
  - exists "Receipt image is required".
    unfold BookingRoutes.create, try_catch. by rewrite Hf.
Qed.

(** ** Booking routes: status update *)

Lemma includes_validStatuses (v : value) :
  Js.includes validStatuses v = true <-> is_status v.
Proof.
  unfold Js.includes, validStatuses, is_status. split.
  - intros H. destruct v; cbn [existsb Js.same_value_zero orb] in H; try discriminate.
    repeat (apply orb_prop in H as [H|H]); try discriminate;
      apply String.eqb_eq in H; subst; auto.
  - intros [-> | [-> | [-> | ->]]]; reflexivity.
Qed.

Lemma lookup_set_status_eq (i : ObjectId.t) (s : value) (l : list Booking.t) :
  BookingDb.lookup i (BookingDb.set_status i s l)
  = Booking.set_status s <$> BookingDb.lookup i l.
Proof.
  unfold BookingDb.lookup. induction l as [|b l IH]; simpl; [done|].
  destruct (N.eqb (Booking._id b) i) eqn:E; simpl.
  - by rewrite E.
  - by rewrite E.
Qed.

Lemma lookup_set_status_ne (i j : ObjectId.t) (s : value) (l : list Booking.t) :
  j <> i ->
  BookingDb.lookup j (BookingDb.set_status i s l) = BookingDb.lookup j l.
Proof.
  intros Hne. unfold BookingDb.lookup. induction l as [|b l IH]; simpl; [done|].
  destruct (N.eqb (Booking._id b) i) eqn:E; simpl.
  - apply N.eqb_eq in E. assert (N.eqb (Booking._id b) j = false) as ->.
    { apply N.eqb_neq. congruence. }
    done.
  - destruct (N.eqb (Booking._id b) j); [done | apply IH].
Qed.

(** C3. PUT /api/booking/update-status/:id: a [status] outside the
    enumeration (absent, "Archived", a number) is answered 400 and the
    world is handed back untouched, so no booking was read or written; a
    [status] of the enumeration sent for the id of a stored booking is
    answered with that booking carrying the new status, which is what the
    collection then holds under the id, every other booking being as
    before. *)
Theorem update_status_validated (req : Request) (w : World) :
  let status := Js.prop (body req) "status" in
  (~ is_status status ->
     BookingRoutes.update_status req w = (Returned invalid_status, w) /\
     BookingRoutes2.update_status req w = (Returned invalid_status, w)) /\
  (is_status status ->
     forall i b,
       ObjectId.cast (param req) = Some i ->
       BookingDb.lookup i (bookings w) = Some b ->
       exists w',
         BookingRoutes.update_status req w
         = (Returned (status_updated (Booking.set_status status b)), w') /\
         BookingRoutes2.update_status req w
         = (Returned (status_updated (Booking.set_status status b)), w') /\
         BookingDb.lookup i (bookings w') = Some (Booking.set_status status b) /\
         Booking.status (Booking.set_status status b) = status /\
         (forall j, j <> i ->
            BookingDb.lookup j (bookings w') = BookingDb.lookup j (bookings w)) /\
         events w' = events w).
Proof.
  intros status.
  change BookingRoutes2.update_status with BookingRoutes.update_status. split.
  - intros Hn.
    assert (Js.includes validStatuses status = false) as Hf.
    { destruct (Js.includes validStatuses status) eqn:E; [|done].
      by apply includes_validStatuses in E. }
    unfold BookingRoutes.update_status, try_catch. fold status. by rewrite Hf.
  - intros Hs i b Hc Hl. apply includes_validStatuses in Hs.
    exists (query (FindByIdAndUpdate Bookings i)
              (set_bookings (BookingDb.set_status i status (bookings w)) w)).
    assert (BookingRoutes.update_status req w
            = (Returned (status_updated (Booking.set_status status b)),
               query (FindByIdAndUpdate Bookings i)
                 (set_bookings (BookingDb.set_status i status (bookings w)) w))) as Hrun.
    { unfold BookingRoutes.update_status, try_catch. fold status. rewrite Hs. simpl.
      unfold mbind, M_bind, BookingDb.findByIdAndUpdate. rewrite Hc, Hl. reflexivity. }
    repeat split; try done.
    + simpl. by rewrite lookup_set_status_eq, Hl.
    + intros j Hj. simpl. by apply lookup_set_status_ne.
Qed.

(** ** Booking routes: ticket verification *)

Lemma find_none_ticket (n : Z) (l : list Booking.t) :
  Forall (fun b => Booking.ticketNumber b <> n) l ->
  find (fun b => Z.eqb (Booking.ticketNumber b) n) l = None.
Proof.
  induction 1 as [|b l Hb _ IH]; simpl; [done|].
  destruct (Z.eqb_spec (Booking.ticketNumber b) n); [done | exact IH].
Qed.

Lemma find_first_ticket (n : Z) (pre post : list Booking.t) (b : Booking.t) :
  Forall (fun b' => Booking.ticketNumber b' <> n) pre ->
  Booking.ticketNumber b = n ->
  find (fun b => Z.eqb (Booking.ticketNumber b) n) (pre ++ b :: post)%list = Some b.
Proof.
  intros Hpre Hb. induction Hpre as [|b' l Hb' _ IH]; simpl.
  - by rewrite Hb, Z.eqb_refl.
  - destruct (Z.eqb_spec (Booking.ticketNumber b') n); [done | exact IH].
Qed.

(** What [populate] answers for a booking that was found. *)
Lemma populate_found (b : Booking.t) (w : World) :
  exists w', BookingDb.populate (Some b) w = (Returned (Some (populated_in w b)), w') /\
    events w' = events w /\ bookings w' = bookings w /\ outbox w' = outbox w /\
    media w' = media w.
Proof.
  unfold BookingDb.populate, populated_in.
  destruct (BookingDb.reference b) as [i|]; simpl; eauto 10.
Qed.

(** C1. GET /api/booking/verify/:ticketNumber, for a path segment that
    denotes the number [n]: when no stored booking has ticket number [n]
    the answer is 404 with [valid: false]; when some booking has it, the
    answer is [valid: true] with the first such booking in the order of the
    collection, its event reference populated.  Both revisions, and the
    collections are left as they were. *)
Theorem verify_ticket (env : Env) (req : Request) (w : World) (n : Z) :
  castNumber env (param req) = Some n ->
  (Forall (fun b => Booking.ticketNumber b <> n) (bookings w) ->
     BookingRoutes.verify env req w
     = (Returned invalid_ticket, query (FindOne Bookings n) w) /\
     BookingRoutes2.verify env req w
     = (Returned invalid_ticket, query (FindOne Bookings n) w)) /\
  (forall (pre : list Booking.t) (b : Booking.t) (post : list Booking.t),
     bookings w = (pre ++ b :: post)%list ->
     Forall (fun b' => Booking.ticketNumber b' <> n) pre ->
     Booking.ticketNumber b = n ->
     exists w',
       BookingRoutes.verify env req w = (Returned (valid_ticket (populated_in w b)), w') /\
       BookingRoutes2.verify env req w = (Returned (valid_ticket (populated_in w b)), w') /\
       events w' = events w /\ bookings w' = bookings w).
Proof.
  intros Hcast. change (BookingRoutes2.verify env) with (BookingRoutes.verify env).
  split.
  - intros Hnone.
    assert (BookingRoutes.verify env req w
            = (Returned invalid_ticket, query (FindOne Bookings n) w)) as Hrun; [|done].
    unfold BookingRoutes.verify, try_catch, mbind, M_bind, BookingDb.findOne.
    rewrite Hcast. simpl. by rewrite (find_none_ticket n _ Hnone).
  - intros pre b post Hsplit Hpre Hb.
    destruct (populate_found b (query (FindOne Bookings n) w))
      as (w' & Hpop & Hev & Hbk & _ & _).
    exists w'. split; [|split; [|done]].
    + unfold BookingRoutes.verify, try_catch, mbind, M_bind, BookingDb.findOne.
      rewrite Hcast. simpl. rewrite Hsplit, (find_first_ticket n pre post b Hpre Hb).
      by rewrite Hpop.
    + unfold BookingRoutes.verify, try_catch, mbind, M_bind, BookingDb.findOne.
      rewrite Hcast. simpl. rewrite Hsplit, (find_first_ticket n pre post b Hpre Hb).
      by rewrite Hpop.
Qed.

(** ** Binary64 arithmetic *)

Section Binary64.

Local Open Scope Q_scope.

Lemma pow2_pos (k : Z) : 0 < 2 ^ k.
Proof. by apply Qpower_0_lt. Qed.

Lemma pow2_le (j k : Z) : (j <= k)%Z -> 2 ^ j <= 2 ^ k.
Proof. intros H. apply Qpower_le_compat_l; [done | discriminate]. Qed.

Lemma pow2_lt_inv (j k : Z) : 2 ^ j < 2 ^ k -> (j < k)%Z.
Proof. intros H. by apply (Qpower_lt_compat_l_inv 2). Qed.

Lemma pow2_inject (k : Z) : (0 <= k)%Z -> inject_Z (2 ^ k) == 2 ^ k.
Proof. intros H. by rewrite Zpower_Qpower. Qed.

Lemma pow2_split (j k : Z) : 2 ^ (j + k) == 2 ^ j * 2 ^ k.
Proof. by apply Qpower_plus. Qed.

Lemma ilog2_spec (x : Q) :
  0 < x -> 2 ^ Double.ilog2 x <= x /\ x < 2 ^ (Double.ilog2 x + 1).
Proof.
  intros Hx. destruct x as [a b]. unfold Double.ilog2. cbn [Qnum Qden].
  assert (Ha : (0 < a)%Z) by (unfold Qlt in Hx; simpl in Hx; lia).
  destruct (Z.log2_spec a Ha) as [Ha1 Ha2].
  destruct (Z.log2_spec (Z.pos b) eq_refl) as [Hb1 Hb2].
  pose proof (Z.log2_nonneg a) as Hda. pose proof (Z.log2_nonneg (Z.pos b)) as Hdb.
  set (da := Z.log2 a) in *. set (db := Z.log2 (Z.pos b)) in *.
  assert (Hab : a # b == inject_Z a / inject_Z (Z.pos b)) by apply Qmake_Qdiv.
  assert (Hbpos : 0 < inject_Z (Z.pos b)) by reflexivity.
  (* the numerator and the denominator between powers of two *)
  assert (Qa1 : 2 ^ da <= inject_Z a) by (rewrite <- pow2_inject by done; by rewrite <- Zle_Qle).
  assert (Qa2 : inject_Z a < 2 ^ (da + 1))
    by (rewrite <- pow2_inject by lia; by rewrite <- Zlt_Qlt).
  assert (Qb1 : 2 ^ db <= inject_Z (Z.pos b))
    by (rewrite <- pow2_inject by done; by rewrite <- Zle_Qle).
  assert (Qb2 : inject_Z (Z.pos b) < 2 ^ (db + 1))
    by (rewrite <- pow2_inject by lia; by rewrite <- Zlt_Qlt).
  assert (Hup : a # b < 2 ^ (da - db + 1)).
  { rewrite Hab. apply Qlt_shift_div_r; [done|].
    eapply Qlt_le_trans; [exact Qa2|].
    replace (da + 1)%Z with ((da - db + 1) + db)%Z by lia. rewrite pow2_split.
    apply Qmult_le_l; [apply pow2_pos | done]. }
  assert (Hlow : 2 ^ (da - db - 1) <= a # b).
  { rewrite Hab. apply Qle_shift_div_l; [done|].
    eapply Qle_trans; [|exact Qa1].
    replace da with ((da - db - 1) + (db + 1))%Z at 2 by lia. rewrite pow2_split.
    apply Qmult_le_l; [apply pow2_pos | by apply Qlt_le_weak]. }
  destruct (Qle_bool (2 ^ (da - db)) (a # b)) eqn:E.
  - apply Qle_bool_iff in E. by split.
  - split; [done|]. replace (da - db - 1 + 1)%Z with (da - db)%Z by lia.
    apply Qnot_le_lt. intros Hc. apply Qle_bool_iff in Hc. congruence.
Qed.

Lemma ilog2_le (x : Q) (k : Z) : 0 < x -> x < 2 ^ (k + 1) -> (Double.ilog2 x <= k)%Z.
Proof.
  intros Hx Hk. destruct (ilog2_spec x Hx) as [H1 _].
  assert (Double.ilog2 x < k + 1)%Z; [|lia].
  apply pow2_lt_inv. by eapply Qle_lt_trans.
Qed.

Lemma ilog2_ge (x : Q) (k : Z) : 2 ^ k <= x -> (k <= Double.ilog2 x)%Z.
Proof.
  intros Hk. assert (Hx : 0 < x) by (eapply Qlt_le_trans; [apply pow2_pos | done]).
  destruct (ilog2_spec x Hx) as [_ H2].
  assert (k < Double.ilog2 x + 1)%Z; [|lia].
  apply pow2_lt_inv. by eapply Qle_lt_trans.
Qed.

Lemma rne_cases (x : Q) :
  let f := Qfloor x in
  inject_Z f <= x /\ x < inject_Z f + 1 /\
  ((x - inject_Z f < 1 # 2 /\ Double.rne x = f) \/
   (1 # 2 <= x - inject_Z f /\ (Double.rne x = f \/ Double.rne x = (f + 1)%Z) /\
    (1 # 2 < x - inject_Z f -> Double.rne x = (f + 1)%Z))).
Proof.
  intros f. pose proof (Qfloor_le x) as H1. pose proof (Qlt_floor x) as H2.
  fold f in H1, H2. rewrite inject_Z_plus in H2. change (inject_Z 1) with 1 in H2.
  split; [done|]. split; [done|]. unfold Double.rne. fold f.
  destruct (x - inject_Z f ?= 1 # 2) eqn:E.
  - apply Qeq_alt in E. right. split; [lra|]. split; [|lra].
    destruct (Z.even f); auto.
  - apply Qlt_alt in E. left. by split.
  - apply Qgt_alt in E. right. split; [lra|]. split; auto.
Qed.

Lemma rne_le (x : Q) (n : Z) : x <= inject_Z n -> (Double.rne x <= n)%Z.
Proof.
  intros H. destruct (rne_cases x) as (H1 & H2 & [[H3 ->]|(H3 & H4 & _)]).
  - rewrite Zle_Qle. lra.
  - assert (Qfloor x + 1 <= n)%Z; [|lia].
    assert (Qfloor x < n)%Z; [|lia]. rewrite Zlt_Qlt. lra.
Qed.

Lemma rne_ge (x : Q) (n : Z) : inject_Z n <= x -> (n <= Double.rne x)%Z.
Proof.
  intros H. destruct (rne_cases x) as (H1 & H2 & Hc).
  assert (n <= Qfloor x)%Z.
  { assert (n < Qfloor x + 1)%Z; [|lia]. rewrite Zlt_Qlt, inject_Z_plus.
    change (inject_Z 1) with 1. lra. }
  destruct Hc as [[_ ->]|(_ & [-> | ->] & _)]; lia.
Qed.

Lemma rne_below_half (x : Q) (n : Z) :
  x + (1 # 2) < inject_Z n -> (Double.rne x <= n - 1)%Z.
Proof.
  intros H. destruct (rne_cases x) as (H1 & H2 & [[H3 ->]|(H3 & H4 & _)]).
  - assert (Qfloor x < n)%Z; [|lia]. rewrite Zlt_Qlt. lra.
  - assert (Qfloor x + 1 < n)%Z; [|lia]. rewrite Zlt_Qlt, inject_Z_plus.
    change (inject_Z 1) with 1. lra.
Qed.

Lemma round_pos (x : Q) :
  0 < x ->
  Double.round x = inject_Z (Double.rne (x / 2 ^ Double.ulp_exp x)) * 2 ^ Double.ulp_exp x.
Proof.
  intros H. unfold Double.round. apply Qgt_alt in H. by rewrite H.
Qed.

(** Rounding does not step over a multiple of the unit in the last place. *)
Lemma round_le (x : Q) (n E : Z) :
  0 < x -> (Double.ulp_exp x <= E)%Z -> x <= inject_Z n * 2 ^ E ->
  Double.round x <= inject_Z n * 2 ^ E.
Proof.
  intros Hx He Hb. rewrite (round_pos x Hx).
  set (e := Double.ulp_exp x) in *.
  assert (Hsplit : 2 ^ E == inject_Z (2 ^ (E - e)) * 2 ^ e).
  { rewrite pow2_inject by lia. rewrite <- pow2_split. by replace (E - e + e)%Z with E by lia. }
  rewrite Hsplit, Qmult_assoc, <- inject_Z_mult in *.
  apply Qmult_le_compat_r; [|apply Qlt_le_weak, pow2_pos].
  rewrite <- Zle_Qle. apply rne_le.
  apply Qle_shift_div_r; [apply pow2_pos | done].
Qed.

Lemma round_ge (x : Q) (n E : Z) :
  0 < x -> (Double.ulp_exp x <= E)%Z -> inject_Z n * 2 ^ E <= x ->
  inject_Z n * 2 ^ E <= Double.round x.
Proof.
  intros Hx He Hb. rewrite (round_pos x Hx).
  set (e := Double.ulp_exp x) in *.
  assert (Hsplit : 2 ^ E == inject_Z (2 ^ (E - e)) * 2 ^ e).
  { rewrite pow2_inject by lia. rewrite <- pow2_split. by replace (E - e + e)%Z with E by lia. }
  rewrite Hsplit, Qmult_assoc, <- inject_Z_mult in *.
  apply Qmult_le_compat_r; [|apply Qlt_le_weak, pow2_pos].
  rewrite <- Zle_Qle. apply rne_ge.
  apply Qle_shift_div_l; [apply pow2_pos | done].
Qed.

Lemma round_below_half (x : Q) (n : Z) :
  0 < x -> x / 2 ^ Double.ulp_exp x + (1 # 2) < inject_Z n ->
  Double.round x <= inject_Z (n - 1) * 2 ^ Double.ulp_exp x.
Proof.
  intros Hx Hb. rewrite (round_pos x Hx).
  apply Qmult_le_compat_r; [|apply Qlt_le_weak, pow2_pos].
  rewrite <- Zle_Qle. by apply rne_below_half.
Qed.

Lemma round_nonneg (x : Q) : 0 <= x -> 0 <= Double.round x.
Proof.
  intros H. destruct (Qlt_le_dec 0 x) as [Hx|Hx].
  - rewrite (round_pos x Hx).
    apply Qmult_le_0_compat; [|apply Qlt_le_weak, pow2_pos].
    change 0 with (inject_Z 0). rewrite <- Zle_Qle. apply rne_ge.
    apply Qle_shift_div_l; [apply pow2_pos|]. change (inject_Z 0) with 0. lra.
  - unfold Double.round. assert (x == 0) as E by lra. apply Qeq_alt in E. by rewrite E.
Qed.

Lemma ulp_exp_le (x : Q) (k : Z) :
  0 < x -> x < 2 ^ (k + 1) -> (- 1022 <= k)%Z -> (Double.ulp_exp x <= k - 52)%Z.
Proof.
  intros Hx Hk Hmin. unfold Double.ulp_exp.
  pose proof (ilog2_le x k Hx Hk). lia.
Qed.

Lemma ulp_exp_eq (x : Q) (k : Z) :
  2 ^ k <= x -> x < 2 ^ (k + 1) -> (- 1022 <= k)%Z -> Double.ulp_exp x = (k - 52)%Z.
Proof.
  intros Hlo Hhi Hmin. unfold Double.ulp_exp.
  assert (Hx : 0 < x) by (eapply Qlt_le_trans; [apply pow2_pos | done]).
  pose proof (ilog2_le x k Hx Hhi). pose proof (ilog2_ge x k Hlo). lia.
Qed.

Lemma representable_below_one (r : Q) :
  0 < r -> r < 1 -> Double.representable r -> r <= 1 - 2 ^ (-53).
Proof.
  intros H0 H1 Hr.
  assert (P53 : 2 ^ (-53) == 1 # 9007199254740992) by reflexivity.
  destruct (Qlt_le_dec r (1 # 2)) as [Hs|Hs]; [rewrite P53; lra|].
  assert (He : Double.ulp_exp r = (-53)%Z).
  { apply (ulp_exp_eq r (-1)); [exact Hs | exact H1 | lia]. }
  unfold Double.representable in Hr. rewrite (round_pos r H0), He in Hr.
  set (k := Double.rne (r / 2 ^ (-53))) in *.
  assert (Hk : (k <= 9007199254740991)%Z).
  { assert (k < 9007199254740992)%Z; [|lia]. rewrite Zlt_Qlt.
    rewrite P53 in Hr. unfold inject_Z at 2. lra. }
  rewrite Zle_Qle in Hk. unfold inject_Z at 2 in Hk. rewrite P53 in *. lra.
Qed.

(** The ticket number as the handler computes it, in binary64 arithmetic:
    for every binary64 draw of the unit interval it lies in the range. *)
Lemma ticket_range_double (r : Q) :
  0 <= r -> r < 1 -> Double.representable r ->
  (100000 <= Qfloor (Double.add 100000 (Double.mul r 900000)) <= 999999)%Z.
Proof.
  intros H0 H1 Hr. unfold Double.add, Double.mul.
  assert (P33 : 2 ^ (-33) == 1 # 8589934592) by reflexivity.
  assert (P53 : 2 ^ (-53) == 1 # 9007199254740992) by reflexivity.
  assert (P19 : 2 ^ 19 == 524288) by reflexivity.
  assert (P20 : 2 ^ 20 == 1048576) by reflexivity.
  assert (P0 : 2 ^ 0 == 1) by reflexivity.
  set (y := Double.round (r * 900000)).
  assert (Hy : 0 <= y /\ y <= inject_Z 7730941132799999 * 2 ^ (-33)).
  { split; [apply round_nonneg; lra|]. subst y.
    destruct (Qlt_le_dec 0 r) as [Hpos|Hzero].
    - pose proof (representable_below_one r Hpos H1 Hr) as Hmax. rewrite P53 in Hmax.
      assert (Hx : 0 < r * 900000) by lra.
      destruct (Qlt_le_dec (r * 900000) (2 ^ 19)) as [Hlow|Hhigh].
      + apply Qle_trans with (inject_Z 1 * 2 ^ 19).
        * apply round_le; [done| |rewrite P19 in *; unfold inject_Z; lra].
          pose proof (ulp_exp_le (r * 900000) 18 Hx Hlow). lia.
        * rewrite P19, P33. discriminate.
      + assert (He : Double.ulp_exp (r * 900000) = (-33)%Z).
        { apply (ulp_exp_eq _ 19); [done | rewrite P20; lra | lia]. }
        rewrite <- He. apply (round_below_half _ 7730941132800000 Hx).
        rewrite He, P33. unfold Qdiv, inject_Z.
        change (/ (1 # 8589934592)) with (8589934592 # 1). lra.
    - assert (r * 900000 == 0) as E by lra.
      unfold Double.round. apply Qeq_alt in E. rewrite E. rewrite P33. discriminate. }
  destruct Hy as [Hy0 Hy1]. rewrite P33 in Hy1. unfold inject_Z in Hy1.
  assert (Hs : 0 < 100000 + y) by lra.
  assert (He : (Double.ulp_exp (100000 + y) <= -33)%Z).
  { apply (ulp_exp_le _ 19 Hs); [rewrite P20; lra | lia]. }
  assert (Hhi : Double.round (100000 + y) <= inject_Z 8589934591999999 * 2 ^ (-33)).
  { apply round_le; [done | done |]. rewrite P33. unfold inject_Z. lra. }
  assert (Hlo : inject_Z 100000 * 2 ^ 0 <= Double.round (100000 + y)).
  { apply round_ge; [done | lia |]. rewrite P0. unfold inject_Z. lra. }
  rewrite P33 in Hhi. rewrite P0 in Hlo. unfold inject_Z in Hhi, Hlo.
  split.
  - apply Z.le_trans with (Qfloor (inject_Z 100000)); [by rewrite Qfloor_Z|].
    apply Qfloor_resp_le. unfold inject_Z. lra.
  - assert (Qfloor (Double.round (100000 + y)) < 1000000)%Z; [|lia].
    rewrite Zlt_Qlt. eapply Qle_lt_trans; [apply Qfloor_le|]. unfold inject_Z. lra.
Qed.

(** The same bound in exact arithmetic, for every rational draw of the
    unit interval. *)
Lemma ticket_range (r : Q) :
  0 <= r -> r < 1 ->
  (100000 <= Math_floor (100000 + r * 900000) <= 999999)%Z.
Proof.
  intros H0 H1. unfold Math_floor.
  assert (Hlo : inject_Z 100000 <= 100000 + r * 900000) by (unfold inject_Z; lra).
  assert (Hhi : 100000 + r * 900000 < inject_Z 1000000) by (unfold inject_Z; lra).
  split.
  - apply Z.le_trans with (Qfloor (inject_Z 100000)); [by rewrite Qfloor_Z|].
    by apply Qfloor_resp_le.
  - assert (Qfloor (100000 + r * 900000) < 1000000)%Z; [|lia].
    rewrite Zlt_Qlt. eapply Qle_lt_trans; [apply Qfloor_le | done].
Qed.

End Binary64.

(** Both ends of the range are reached: the draw 0 gives 100000 and the
    largest binary64 number below 1 gives 999999. *)
Lemma ticket_range_tight :
  Math_floor (Double.add 100000 (Double.mul 0 900000)) = 100000 /\
  Math_floor (Double.add 100000
                (Double.mul (9007199254740991 # 9007199254740992) 900000)) = 999999.
Proof. split; vm_compute; reflexivity. Qed.

(** The rounding agrees with the standard library's specification of
    IEEE 754 multiplication and addition on the handler's computation:
    here for the largest draw, for draws whose exact product is not a
    binary64 number, for the smallest normal and the smallest subnormal
    number. *)
Lemma double_agrees_with_SpecFloat :
  let c900000 := S754_finite false 7730941132800000 (-33) in
  let c100000 := S754_finite false 6871947673600000 (-36) in
  Forall (fun r =>
      valid_binary 53 1024 r = true /\
      (Double.of_spec (SFmul 53 1024 r c900000)
       == Double.mul (Double.of_spec r) 900000)%Q /\
      (Double.of_spec (SFadd 53 1024 c100000 (SFmul 53 1024 r c900000))
       == Double.add 100000 (Double.mul (Double.of_spec r) 900000))%Q)
    [ S754_finite false 9007199254740991 (-53);
      S754_finite false 4503599627370497 (-53);
      S754_finite false 6004799503160661 (-54);
      S754_finite false 4503599627370496 (-1074);
      S754_finite false 1 (-1074) ].
Proof. repeat constructor. Qed.

(** Rounding matters for the number itself: for this draw the exact
    formula gives 126370 and binary64 arithmetic, as the handler runs it,
    gives 126371.  The range is the same in both. *)
Lemma exact_and_binary64_differ :
  let r := (263920946163083 # 9007199254740992)%Q in
  Double.representable r /\
  Math_floor (100000 + r * 900000)%Q = 126370 /\
  Math_floor (Double.add 100000 (Double.mul r 900000)) = 126371 /\
  (Double.of_spec (S754_finite false 263920946163083 (-53)) == r)%Q /\
  SFadd 53 1024 (S754_finite false 6871947673600000 (-36))
    (SFmul 53 1024 (S754_finite false 263920946163083 (-53))
       (S754_finite false 7730941132800000 (-33)))
  = S754_finite false (126371 * 2 ^ 36) (-36).
Proof. repeat split. Qed.

(** ** Booking routes: ticket numbers *)

Lemma div10_bounds (x lo hi : N) :
  (10 * lo <= x < 10 * hi)%N -> (lo <= x `div` 10 < hi)%N.
Proof.
  intros [Hlo Hhi]. split.
  - apply N.div_le_lower_bound; lia.
  - apply N.Div0.div_lt_upper_bound; lia.
Qed.

Lemma pretty_N_six_digits (x : N) :
  (100000 <= x < 1000000)%N -> String.length (pretty_N_go x "") = 6%nat.
Proof.
  intros H5.
  pose proof (div10_bounds x 10000 100000 H5) as H4.
  pose proof (div10_bounds _ 1000 10000 H4) as H3.
  pose proof (div10_bounds _ 100 1000 H3) as H2.
  pose proof (div10_bounds _ 10 100 H2) as H1.
  pose proof (div10_bounds _ 1 10 H1) as H0.
  do 6 (rewrite pretty_N_go_step by lia).
  rewrite N.div_small by lia. reflexivity.
Qed.

(** The decimal text of a number of the range, as a template literal
    prints it, has six characters. *)
Lemma pretty_six_digits (n : Z) :
  100000 <= n <= 999999 -> String.length (pretty n) = 6%nat.
Proof.
  intros H. destruct n as [|p|p]; try lia.
  change (pretty (Z.pos p)) with (pretty (N.pos p)).
  unfold pretty, pretty_N. rewrite decide_False by done.
  apply pretty_N_six_digits. lia.
Qed.

(** C2. POST /api/booking/create with the receipt and [eventId] present:
    for a draw [r] of the random source, a binary64 number with
    [0 <= r < 1], the booking that is stored and returned, in both
    revisions, carries the ticket number [floor(100000 + r * 900000)] as
    binary64 arithmetic computes it; it lies in [100000, 999999] and is
    written with exactly six decimal digits.  In exact arithmetic the
    formula has the same range. *)
Theorem ticket_number_six_digits (env : Env) (req : Request) (w : World) (receipt : File) :
  let r := random w (draws w) in
  (0 <= r)%Q -> (r < 1)%Q -> Double.representable r ->
  file req = Some receipt ->
  Js.truthy (Js.prop (body req) "eventId") = true ->
  exists b w',
    BookingRoutes.create env req w = (Returned (booking_created b), w') /\
    BookingRoutes2.create env req w = (Returned (booking_created b), w') /\
    bookings w' = (bookings w ++ [b])%list /\
    Booking.ticketNumber b = Math_floor (Double.add 100000 (Double.mul r 900000)) /\
    100000 <= Booking.ticketNumber b <= 999999 /\
    String.length (pretty (Booking.ticketNumber b)) = 6%nat /\
    100000 <= Math_floor (100000 + r * 900000)%Q <= 999999.
Proof.
  intros r H0 H1 Hr Hf He.
  change (BookingRoutes2.create env) with (BookingRoutes.create env).
  pose proof (ticket_range_double r H0 H1 Hr) as Hrange.
  eexists _, _. split; [|split; [|split; [|split; [|split; [|split]]]]].
  - unfold BookingRoutes.create, try_catch. rewrite Hf, He. cbn [negb].
    erewrite bind_returned by reflexivity.
    erewrite bind_returned by reflexivity. cbv zeta.
    erewrite bind_returned by reflexivity.
    erewrite bind_returned by reflexivity. reflexivity.
  - unfold BookingRoutes.create, try_catch. rewrite Hf, He. cbn [negb].
    erewrite bind_returned by reflexivity.
    erewrite bind_returned by reflexivity. cbv zeta.
    erewrite bind_returned by reflexivity.
    erewrite bind_returned by reflexivity. reflexivity.
  - reflexivity.
  - reflexivity.
  - exact Hrange.
  - apply pretty_six_digits, Hrange.
  - by apply ticket_range.
Qed.

(** ** Event routes: update *)

Lemma lookup_event_id (i : ObjectId.t) (l : list Event.t) (e : Event.t) :
  EventDb.lookup i l = Some e -> Event._id e = i.
Proof.
  unfold EventDb.lookup. intros H. apply find_some in H as [_ H]. by apply N.eqb_eq.
Qed.

Lemma lookup_put_eq (d : Event.t) (l : list Event.t) :
  is_Some (EventDb.lookup (Event._id d) l) ->
  EventDb.lookup (Event._id d) (EventDb.put d l) = Some d.
Proof.
  unfold EventDb.lookup. induction l as [|e l IH]; simpl; intros [x Hx]; [done|].
  destruct (N.eqb (Event._id e) (Event._id d)) eqn:E; simpl.
  - by rewrite N.eqb_refl.
  - rewrite E. apply IH. eauto.
Qed.

Lemma lookup_put_ne (j : ObjectId.t) (d : Event.t) (l : list Event.t) :
  j <> Event._id d ->
  EventDb.lookup j (EventDb.put d l) = EventDb.lookup j l.
Proof.
  intros Hne. unfold EventDb.lookup. induction l as [|e l IH]; simpl; [done|].
  destruct (N.eqb (Event._id e) (Event._id d)) eqn:E; simpl.
  - apply N.eqb_eq in E.
    assert (N.eqb (Event._id e) j = false) as -> by (apply N.eqb_neq; congruence).
    assert (N.eqb (Event._id d) j = false) as -> by (apply N.eqb_neq; congruence).
    done.
  - destruct (N.eqb (Event._id e) j); [done | apply IH].
Qed.

(** The loop over the sponsor logos stores one object per file, in order,
    and yields their URLs. *)
Lemma upload_logos_run (env : Env) (l : list File) (w : World) :
  exists us,
    EventRoutes.upload_logos env l w
    = (Returned (secure_url <$> us), set_media (media w ++ us) w) /\
    Forall2 (stored "events/sponsors") l us.
Proof.
  revert w. induction l as [|f l IH]; intros w.
  - exists []. split; [|constructor]. simpl. unfold mret, M_ret, set_media.
    by rewrite app_nil_r, world_eta.
  - set (u := {| folder := "events/sponsors"; data := buffer f;
                 secure_url := cloud_url env "events/sponsors" (buffer f)
                                 (length (media w)) |}).
    destruct (IH (set_media (media w ++ [u]) w)) as (us & Hrun & Hall).
    exists (u :: us). split.
    + simpl. unfold mbind, M_bind, uploadToCloudinary. fold u. rewrite Hrun. simpl.
      unfold mret, M_ret, set_media. simpl. by rewrite <- app_assoc.
    + constructor; [by split | done].
Qed.

Lemma assign_get (b : gmap string value) (e : Event.t) (g : Event.field) :
  Event.get g (EventRoutes.assign b e) = Js.or (Js.prop b (Event.key g)) (Event.get g e).
Proof. by destruct g. Qed.

Lemma findById_run (s : string) (i : ObjectId.t) (w : World) :
  ObjectId.cast s = Some i ->
  EventDb.findById s w
  = (Returned (EventDb.lookup i (events w)), query (FindById Events i) w).
Proof. intros H. unfold EventDb.findById. by rewrite H. Qed.

(** What PUT does for a stored event: either it fails before the save and
    the collection is as before, or it saves a document made of the ten
    assignments, of the first attached image and of the attached logos. *)
Lemma put_run (env : Env) (req : Request) (w : World) (i : ObjectId.t) (e : Event.t) :
  ObjectId.cast (param req) = Some i ->
  EventDb.lookup i (events w) = Some e ->
  (exists w',
     EventRoutes.put env req w = (Returned update_failed, w') /\
     events w' = events w /\ media w' = media w /\
     (files req = None \/ attached req "imageUrl" = Some [])) \/
  (exists e' new w',
     EventRoutes.put env req w = (Returned (event_answer 200 e'), w') /\
     events w' = EventDb.put e' (events w) /\
     media w' = (media w ++ new)%list /\
     Event._id e' = i /\
     is_Some (files req) /\
     (forall g, Event.get g e' = Js.or (Js.prop (body req) (Event.key g)) (Event.get g e)) /\
     match attached req "imageUrl" with
     | Some (f0 :: _) =>
         exists u, u ∈ new /\ stored "events" f0 u /\ Event.imageUrl e' = secure_url u
     | Some [] => False
     | None => Event.imageUrl e' = Event.imageUrl e
     end /\
     match attached req "sponsorLogos" with
     | Some l =>
         exists us, us ⊆ new /\ Forall2 (stored "events/sponsors") l us /\
           Event.sponsorLogos e' = secure_url <$> us
     | None => Event.sponsorLogos e' = Event.sponsorLogos e
     end).
Proof.
  intros Hc Hl. pose proof (cast_matches _ _ Hc) as Hm.
  pose proof (lookup_event_id _ _ _ Hl) as Hid.
  unfold EventRoutes.put, try_catch. rewrite Hm. cbn [negb].
  erewrite bind_returned by (apply findById_run; exact Hc). rewrite Hl.
  unfold attached, EventRoutes.files_prop.
  destruct (files req) as [fs|] eqn:Hfs.
  2:{ erewrite bind_thrown by reflexivity. left. eexists.
      split; [reflexivity|]. split; [done|]. split; [done | by left]. }
  erewrite bind_returned by reflexivity.
  destruct (fs !! "imageUrl") as [[|f0 rest]|] eqn:Himg.
  - erewrite bind_thrown by (apply bind_thrown; reflexivity).
    left. eexists. split; [reflexivity|]. split; [done|]. split; [done | by right].
  - erewrite bind_returned
      by (erewrite bind_returned by reflexivity;
          erewrite bind_returned by reflexivity; reflexivity).
    erewrite bind_returned by reflexivity.
    destruct (fs !! "sponsorLogos") as [l|] eqn:Hlogos.
    + match goal with
      | |- context [mbind _ (mbind _ (EventRoutes.upload_logos env l)) ?w0] =>
          destruct (upload_logos_run env l w0) as (us & Hrun & Hall)
      end.
      erewrite bind_returned by (erewrite bind_returned by exact Hrun; reflexivity).
      erewrite bind_returned by reflexivity.
      right. eexists _, (_ :: us), _. split; [reflexivity|]. simpl.
      rewrite <- app_assoc. simpl.
      split; [done|]. split; [done|]. split; [done|]. split; [eauto|].
      split; [intros g; apply assign_get|]. split.
      * eexists. split; [apply list_elem_of_here|]. by split.
      * exists us. split; [|by split]. intros x Hx. by apply list_elem_of_further.
    + erewrite bind_returned by reflexivity.
      erewrite bind_returned by reflexivity.
      right. eexists _, [_], _. split; [reflexivity|]. simpl.
      split; [done|]. split; [done|]. split; [done|]. split; [eauto|].
      split; [intros g; apply assign_get|]. split; [|done].
      eexists. split; [apply list_elem_of_here|]. by split.
  - erewrite bind_returned by reflexivity.
    erewrite bind_returned by reflexivity.
    destruct (fs !! "sponsorLogos") as [l|] eqn:Hlogos.
    + match goal with
      | |- context [mbind _ (mbind _ (EventRoutes.upload_logos env l)) ?w0] =>
          destruct (upload_logos_run env l w0) as (us & Hrun & Hall)
      end.
      erewrite bind_returned by (erewrite bind_returned by exact Hrun; reflexivity).
      erewrite bind_returned by reflexivity.
      right. eexists _, us, _. split; [reflexivity|]. simpl.
      split; [done|]. split; [done|]. split; [done|]. split; [eauto|].
      split; [intros g; apply assign_get|]. split; [done|].
      exists us. by split.
    + erewrite bind_returned by reflexivity.
      erewrite bind_returned by reflexivity.
      right. eexists _, [], _. split; [reflexivity|]. simpl.
      rewrite app_nil_r.
      split; [done|]. split; [done|]. split; [done|]. split; [eauto|].
      split; [intros g; apply assign_get|]. by split.
Qed.

(** C5. PUT /api/events/:id for a stored event: whatever the request, the
    event is still stored under its id afterwards and every text field
    whose key is absent from the body has its previous value; without an
    attached image [imageUrl] is as before and without attached logos
    [sponsorLogos] is as before; an attached image replaces [imageUrl] by
    the URL under which the media store keeps the first file, and attached
    logos replace [sponsorLogos] by the URLs of the stored files, in
    order.  Every other event is as before. *)
Theorem put_partial_update (env : Env) (req : Request) (w : World)
    (i : ObjectId.t) (e : Event.t) :
  ObjectId.cast (param req) = Some i ->
  EventDb.lookup i (events w) = Some e ->
  let w' := (EventRoutes.put env req w).2 in
  exists e' new,
    EventDb.lookup i (events w') = Some e' /\
    media w' = (media w ++ new)%list /\
    (forall f, body req !! Event.key f = None -> Event.get f e' = Event.get f e) /\
    (attached req "imageUrl" = None -> Event.imageUrl e' = Event.imageUrl e) /\
    (attached req "sponsorLogos" = None -> Event.sponsorLogos e' = Event.sponsorLogos e) /\
    (forall f0 rest,
       attached req "imageUrl" = Some (f0 :: rest) ->
       exists u, u ∈ new /\ stored "events" f0 u /\ Event.imageUrl e' = secure_url u) /\
    (forall l,
       attached req "sponsorLogos" = Some l ->
       attached req "imageUrl" <> Some [] ->
       exists us, us ⊆ new /\ Forall2 (stored "events/sponsors") l us /\
         Event.sponsorLogos e' = secure_url <$> us) /\
    (forall j, j <> i -> EventDb.lookup j (events w') = EventDb.lookup j (events w)).
Proof.
  intros Hc Hl w'. subst w'.
  destruct (put_run env req w i e Hc Hl)
    as [(w' & Hrun & Hev & Hmedia & Hwhy)
       |(e' & new & w' & Hrun & Hev & Hmedia & Hid & Hfs & Hget & Himg & Hlogos)];
    rewrite Hrun; simpl.
  - exists e, []. rewrite Hev, Hmedia, app_nil_r.
    assert (Hnone : forall k, attached req k = None \/ attached req "imageUrl" = Some []).
    { intros k. destruct Hwhy as [Hn|Hn]; [left | by right].
      unfold attached. by rewrite Hn. }
    repeat split; try done.
    + intros f0 rest Ha. destruct (Hnone "imageUrl") as [Hn|Hn]; congruence.
    + intros l Ha Hne. destruct (Hnone "sponsorLogos") as [Hn|Hn]; congruence.
  - exists e', new. rewrite Hev. subst i.
    split; [apply lookup_put_eq; rewrite Hl; eauto|].
    split; [done|].
    split.
    { intros f Hf. rewrite Hget. unfold Js.or, Js.prop. by rewrite Hf. }
    split.
    { intros Ha. by rewrite Ha in Himg. }
    split.
    { intros Ha. by rewrite Ha in Hlogos. }
    split.
    { intros f0 rest Ha. by rewrite Ha in Himg. }
    split.
    { intros l Ha _. by rewrite Ha in Hlogos. }
    intros j Hj. apply lookup_put_ne. congruence.
Qed.

(** ** Event routes: falsy fields *)

Lemma or_prop_without (b : gmap string value) (k k' : string) (old : value) :
  Js.truthy (Js.prop b k) = false ->
  Js.or (Js.prop (base.delete k b) k') old = Js.or (Js.prop b k') old.
Proof.
  intros H. unfold Js.prop at 1 2. destruct (decide (k = k')) as [<-|Hne].
  - rewrite lookup_delete_eq. simpl. unfold Js.or. fold (Js.prop b k). by rewrite H.
  - by rewrite lookup_delete_ne.
Qed.

Lemma assign_without (b : gmap string value) (k : string) (e : Event.t) :
  Js.truthy (Js.prop b k) = false ->
  EventRoutes.assign (base.delete k b) e = EventRoutes.assign b e.
Proof.
  intros H. unfold EventRoutes.assign. by rewrite !(or_prop_without b k _ _ H).
Qed.

(** How PUT changes the Event collection, for any request: not at all, or
    by saving, over a stored event, a document made by the ten
    assignments. *)
Lemma put_events (env : Env) (req : Request) (w : World) :
  events (EventRoutes.put env req w).2 = events w \/
  exists i e e',
    EventDb.lookup i (events w) = Some e /\
    events (EventRoutes.put env req w).2 = EventDb.put e' (events w) /\
    Event._id e' = i /\
    forall g, Event.get g e' = Js.or (Js.prop (body req) (Event.key g)) (Event.get g e).
Proof.
  destruct (ObjectId.matches (param req)) eqn:Hm.
  - destruct (matches_cast _ Hm) as [i Hc].
    destruct (EventDb.lookup i (events w)) as [e|] eqn:Hl.
    + destruct (put_run env req w i e Hc Hl)
        as [(w' & Hrun & Hev & _)|(e' & new & w' & Hrun & Hev & _ & Hid & _ & Hget & _)];
        rewrite Hrun; simpl; [by left|].
      right. by exists i, e, e'.
    + left. unfold EventRoutes.put, try_catch. rewrite Hm. cbn [negb].
      erewrite bind_returned by (apply findById_run; exact Hc). by rewrite Hl.
  - left. unfold EventRoutes.put, try_catch. by rewrite Hm.
Qed.

Lemma or_blank (a old : value) :
  Js.or a old = VStr "" -> old = VStr "".
Proof.
  unfold Js.or. destruct (Js.truthy a) eqn:Ha; [|done].
  intros ->. discriminate.
Qed.

(** C9. PUT /api/events/:id reads a falsy body value, the empty string
    for one, exactly as it reads a missing key: the request and the same
    request without the key have one and the same effect and answer.  So
    every stored event keeps, in each text field that is sent falsy, the
    value it had, and a text field that is the empty string after the
    request was the empty string before it. *)
Theorem put_falsy_is_absent (env : Env) (req : Request) (w : World) :
  (forall f,
     Js.truthy (Js.prop (body req) (Event.key f)) = false ->
     EventRoutes.put env req w = EventRoutes.put env (without (Event.key f) req) w) /\
  (forall i e,
     EventDb.lookup i (events w) = Some e ->
     exists e',
       EventDb.lookup i (events (EventRoutes.put env req w).2) = Some e' /\
       forall f,
         (Js.truthy (Js.prop (body req) (Event.key f)) = false ->
            Event.get f e' = Event.get f e) /\
         (Event.get f e' = VStr "" -> Event.get f e = VStr "")).
Proof.
  split.
  - intros f Hf. unfold EventRoutes.put, try_catch, without. simpl.
    destruct (ObjectId.matches (param req)); [|done]. cbn [negb].
    match goal with
    | |- (let (_, _) := ?x in _) = (let (_, _) := ?y in _) =>
        assert (x = y) as Heq; [|by rewrite Heq]
    end.
    apply bind_ext. intros [event|] w1; [|done].
    by rewrite assign_without.
  - intros i e Hl.
    destruct (put_events env req w) as [Hsame|(j & e0 & e' & Hl0 & Hev & Hid & Hget)];
      rewrite ?Hsame, ?Hev.
    + exists e. split; [done|]. by intros f.
    + destruct (decide (i = j)) as [->|Hne].
      * exists e'. rewrite <- Hid, lookup_put_eq by (rewrite Hid, Hl0; eauto).
        split; [done|]. intros f. rewrite Hget.
        assert (e0 = e) as -> by congruence. split.
        -- intros Hf. unfold Js.or. by rewrite Hf.
        -- apply or_blank.
      * exists e. rewrite lookup_put_ne by congruence.
        split; [done|]. by intros f.
Qed.

(** ** Object identifiers: text and value *)

Lemma hex_val_digit (d : N) :
  (d < 16)%N -> ObjectId.hex_val (ObjectId.hex_digit d) = Some d.
Proof.
  intros H.
  do 16 (destruct d as [|d _] using N.peano_ind; [reflexivity|]).
  lia.
Qed.

Lemma hex_value_hex_of (k : nat) (n a : N) (acc : string) :
  ObjectId.hex_value (ObjectId.hex_of k n acc) a
  = ObjectId.hex_value acc (a * 16 ^ N.of_nat k + n mod 16 ^ N.of_nat k)%N.
Proof.
  revert n acc. induction k as [|k IH]; intros n acc.
  - simpl. f_equal. rewrite N.mod_1_r. lia.
  - cbn [ObjectId.hex_of]. rewrite IH. cbn [ObjectId.hex_value].
    rewrite hex_val_digit by (apply N.mod_lt; lia). f_equal.
    rewrite Nat2N.inj_succ, N.pow_succ_r'.
    rewrite (N.Div0.mod_mul_r n 16 (16 ^ N.of_nat k)). lia.
Qed.

Lemma length_hex_of (k : nat) (n : N) (acc : string) :
  String.length (ObjectId.hex_of k n acc) = (k + String.length acc)%nat.
Proof.
  revert n acc. induction k as [|k IH]; intros n acc; [done|].
  cbn [ObjectId.hex_of]. rewrite IH. simpl. lia.
Qed.

Lemma all_hex_hex_of (k : nat) (n : N) (acc : string) :
  ObjectId.all_hex acc = true -> ObjectId.all_hex (ObjectId.hex_of k n acc) = true.
Proof.
  revert n acc. induction k as [|k IH]; intros n acc H; [done|].
  cbn [ObjectId.hex_of]. apply IH. simpl. rewrite H, andb_true_r.
  unfold ObjectId.is_hex. by rewrite hex_val_digit by (apply N.mod_lt; lia).
Qed.

(** The text of an identifier passes the format check and is cast back to
    the identifier. *)
Lemma cast_to_string (i : ObjectId.t) :
  (i < ObjectId.limit)%N ->
  ObjectId.matches (ObjectId.to_string i) = true /\
  ObjectId.cast (ObjectId.to_string i) = Some i.
Proof.
  intros Hi.
  assert (Hm : ObjectId.matches (ObjectId.to_string i) = true).
  { unfold ObjectId.matches, ObjectId.to_string.
    rewrite length_hex_of, all_hex_hex_of by done. reflexivity. }
  split; [done|]. unfold ObjectId.cast. rewrite Hm.
  unfold ObjectId.to_string. rewrite hex_value_hex_of. cbn [ObjectId.hex_value].
  f_equal. rewrite N.mod_small; [lia|]. exact Hi.
Qed.

(** ** Event routes: create, then read *)

Lemma lookup_appended (e : Event.t) (l : list Event.t) :
  Forall (fun x => (Event._id x < Event._id e)%N) l ->
  EventDb.lookup (Event._id e) (l ++ [e]) = Some e.
Proof.
  unfold EventDb.lookup. induction 1 as [|x l Hx _ IH]; simpl.
  - by rewrite N.eqb_refl.
  - assert (N.eqb (Event._id x) (Event._id e) = false) as -> by (apply N.eqb_neq; lia).
    exact IH.
Qed.

(** What POST /add does with a multipart request: it stores, after the
    events already there, a document under the next identifier whose text
    fields are the body's. *)
Lemma add_run (env : Env) (req : Request) (w : World) :
  is_Some (files req) ->
  attached req "imageUrl" <> Some [] ->
  exists e w',
    EventRoutes.add env req w = (Returned (event_answer 201 e), w') /\
    events w' = (events w ++ [e])%list /\
    Event._id e = nextId w /\
    forall f, Event.get f e = Js.prop (body req) (Event.key f).
Proof.
  intros [fs Hfs] Himg. unfold attached in Himg. rewrite Hfs in Himg.
  unfold EventRoutes.add, try_catch, EventRoutes.files_prop. rewrite Hfs.
  erewrite bind_returned by reflexivity.
  destruct (fs !! "imageUrl") as [[|f0 rest]|]; [done| |].
  - erewrite bind_returned
      by (erewrite bind_returned by reflexivity; reflexivity).
    erewrite bind_returned by reflexivity.
    destruct (fs !! "sponsorLogos") as [l|].
    + match goal with
      | |- context [mbind _ (EventRoutes.upload_logos env l) ?w0] =>
          destruct (upload_logos_run env l w0) as (us & Hrun & _)
      end.
      erewrite bind_returned by exact Hrun.
      erewrite bind_returned by reflexivity.
      erewrite bind_returned by reflexivity.
      eexists _, _. split; [reflexivity|]. simpl.
      split; [done|]. split; [done|]. by intros [].
    + erewrite bind_returned by reflexivity.
      erewrite bind_returned by reflexivity.
      erewrite bind_returned by reflexivity.
      eexists _, _. split; [reflexivity|]. simpl.
      split; [done|]. split; [done|]. by intros [].
  - erewrite bind_returned by reflexivity.
    erewrite bind_returned by reflexivity.
    destruct (fs !! "sponsorLogos") as [l|].
    + match goal with
      | |- context [mbind _ (EventRoutes.upload_logos env l) ?w0] =>
          destruct (upload_logos_run env l w0) as (us & Hrun & _)
      end.
      erewrite bind_returned by exact Hrun.
      erewrite bind_returned by reflexivity.
      erewrite bind_returned by reflexivity.
      eexists _, _. split; [reflexivity|]. simpl.
      split; [done|]. split; [done|]. by intros [].
    + erewrite bind_returned by reflexivity.
      erewrite bind_returned by reflexivity.
      erewrite bind_returned by reflexivity.
      eexists _, _. split; [reflexivity|]. simpl.
      split; [done|]. split; [done|]. by intros [].
Qed.

(** C7. POST /api/events/add with a multipart payload answers 201 with
    the stored event, whose ten text fields are the values read from the
    body; GET /api/events/:id with the text of the identifier of that
    event then answers 200 with the very same event.  (The handler of
    POST /add runs once the admin middleware has let the request pass.) *)
Theorem add_then_get (env : Env) (req : Request) (w : World) :
  multipart req ->
  fresh_ids w ->
  exists e w',
    EventRoutes.add env req w = (Returned (event_answer 201 e), w') /\
    (forall f, Event.get f e = Js.prop (body req) (Event.key f)) /\
    (forall f v, body req !! Event.key f = Some v -> Event.get f e = v) /\
    forall req',
      param req' = ObjectId.to_string (Event._id e) ->
      exists w'', EventRoutes.get req' w' = (Returned (event_answer 200 e), w'').
Proof.
  intros [Hfs Himg] [Hlimit Hfresh].
  destruct (add_run env req w Hfs (Himg "imageUrl")) as (e & w' & Hrun & Hev & Hid & Hget).
  exists e, w'. split; [done|]. split; [done|]. split.
  { intros f v Hv. rewrite Hget. unfold Js.prop. by rewrite Hv. }
  intros req' Hparam.
  destruct (cast_to_string (Event._id e)) as [Hm Hc]; [by rewrite Hid|].
  unfold EventRoutes.get, try_catch. rewrite Hparam, Hm. cbn [negb].
  erewrite bind_returned by (apply findById_run; exact Hc).
  rewrite Hev, lookup_appended by (by rewrite Hid).
  eexists. reflexivity.
Qed.

(** ** Booking routes: the ticket mail *)

Lemma booking_findById_run (s : string) (i : ObjectId.t) (w : World) :
  ObjectId.cast s = Some i ->
  BookingDb.findById s w
  = (Returned (BookingDb.lookup i (bookings w)), query (FindById Bookings i) w).
Proof. intros H. unfold BookingDb.findById. by rewrite H. Qed.

Lemma truthy_string (h : string) : h <> "" -> Js.truthy (VStr h) = true.
Proof. intros H. simpl. by destruct h. Qed.

(** Without a truthy [htmlContent] the first revision answers 400 before
    it looks at the booking. *)
Lemma send_email_html_required (env : Env) (req : Request) (w : World) :
  Js.truthy (Js.prop (body req) "htmlContent") = false ->
  BookingRoutes.send_email env req w = (Returned html_required, w).
Proof. intros H. unfold BookingRoutes.send_email, try_catch. by rewrite H. Qed.

(** An id that is not the text of an ObjectId makes the lookup itself
    fail: both revisions answer 500, and no mail is sent. *)
Lemma send_email_malformed_id (env : Env) (req : Request) (w : World) :
  ObjectId.matches (param req) = false ->
  BookingRoutes2.send_email env req w
  = (Returned {| statusCode := 500;
                 json := Failure "Email sending failed" (CastError "_id" (param req)) |}, w).
Proof.
  intros H. unfold BookingRoutes2.send_email, try_catch.
  erewrite bind_thrown; [reflexivity|].
  unfold BookingDb.findById. by rewrite (cast_malformed _ H).
Qed.

Lemma append_assoc (a b c : string) : a ++ (b ++ c) = (a ++ b) ++ c.
Proof.
  induction a as [|x a IH]; [reflexivity|].
  change (String x (a ++ (b ++ c)) = String x ((a ++ b) ++ c)). by rewrite IH.
Qed.

(** The verification URL a QR code encodes contains the ticket number:
    it is the site address and path followed by the number's decimal
    text. *)
Lemma verification_url_ticket (site : string) (b : Booking.t) :
  verification_url site b
  = (site ++ "/verify-ticket/") ++ pretty (Booking.ticketNumber b).
Proof. apply append_assoc. Qed.

(** C8, as the code has it.  For the id of a stored booking the second
    revision sends exactly one mail, to the booking's [emailAddress], with
    one inline attachment: the QR image of the verification URL, which
    ends in the booking's ticket number.  The first revision does so only
    when the body carries [htmlContent]: for a non-empty string it sends
    exactly one mail to the booking's [emailAddress] whose HTML is that
    string with the first placeholder replaced by the QR data URL of the
    verification URL, and answers with that data URL; without a truthy
    [htmlContent] it answers 400 and sends nothing.  For a well-formed id
    that no booking carries the second revision answers 404, and so does
    the first when [htmlContent] is truthy; no mail is sent. *)
Theorem send_email_ticket (env : Env) (req : Request) (w : World) (i : ObjectId.t) :
  ObjectId.cast (param req) = Some i ->
  (forall b,
     BookingDb.lookup i (bookings w) = Some b ->
     (exists w' m,
        BookingRoutes2.send_email env req w = (Returned (email_sent None), w') /\
        outbox w' = (outbox w ++ [m])%list /\
        to m = Booking.emailAddress b /\
        attachments m = [qr_attachment env b] /\
        html m = EntryPass (populated_in w b)) /\
     (forall h,
        Js.prop (body req) "htmlContent" = VStr h -> h <> "" ->
        let qr := toDataURL env (verification_url "https://your-domain.com" b) in
        exists w' m,
          BookingRoutes.send_email env req w = (Returned (email_sent (Some qr)), w') /\
          outbox w' = (outbox w ++ [m])%list /\
          to m = Booking.emailAddress b /\
          html m = CallerHtml (Js.replace "{{QR_CODE}}" qr h))) /\
  (BookingDb.lookup i (bookings w) = None ->
     (exists w',
        BookingRoutes2.send_email env req w = (Returned booking_not_found, w') /\
        outbox w' = outbox w) /\
     (Js.truthy (Js.prop (body req) "htmlContent") = true ->
      exists w',
        BookingRoutes.send_email env req w = (Returned booking_not_found, w') /\
        outbox w' = outbox w)) /\
  (Js.truthy (Js.prop (body req) "htmlContent") = false ->
     BookingRoutes.send_email env req w = (Returned html_required, w)).
Proof.
  intros Hc. split; [|split].
  - intros b Hl. split.
    + destruct (populate_found b (query (FindById Bookings i) w))
        as (w1 & Hpop & Hev & Hbk & Hout & Hmedia).
      unfold BookingRoutes2.send_email, try_catch.
      erewrite bind_returned by (apply booking_findById_run; exact Hc). rewrite Hl.
      erewrite bind_returned by exact Hpop. cbv beta iota zeta.
      erewrite bind_returned by reflexivity.
      eexists _, _. split; [reflexivity|]. simpl. rewrite Hout. simpl.
      split; [reflexivity|]. split; [reflexivity|]. split; reflexivity.
    + intros h Hh Hne qr.
      unfold BookingRoutes.send_email, try_catch. rewrite Hh, (truthy_string h Hne).
      cbn [negb].
      erewrite bind_returned by (apply booking_findById_run; exact Hc). rewrite Hl.
      cbv beta iota zeta.
      erewrite bind_returned by reflexivity.
      erewrite bind_returned by reflexivity.
      eexists _, _. split; [reflexivity|]. simpl. split; [reflexivity|]. by split.
  - intros Hl. split.
    + unfold BookingRoutes2.send_email, try_catch.
      erewrite bind_returned by (apply booking_findById_run; exact Hc). rewrite Hl.
      erewrite bind_returned by reflexivity.
      eexists. split; reflexivity.
    + intros Hh. unfold BookingRoutes.send_email, try_catch. rewrite Hh. cbn [negb].
      erewrite bind_returned by (apply booking_findById_run; exact Hc). rewrite Hl.
      eexists. split; reflexivity.
  - apply send_email_html_required.
Qed.

(** * The properties on the concrete deployment *)

Lemma get_event_id_check_witness :
  EventRoutes.get (Demo.request "add" []) Demo.world
  = (Returned invalid_event_id, Demo.world) /\
  exists i,
    ObjectId.cast Demo.unknown_id = Some i /\
    EventRoutes.get (Demo.request Demo.unknown_id []) Demo.world
    = (Returned event_not_found, query (FindById Events i) Demo.world).
Proof.
  split.
  - apply (proj1 (get_event_id_check (Demo.request "add" []) Demo.world)).
    reflexivity.
  - apply (proj2 (get_event_id_check (Demo.request Demo.unknown_id []) Demo.world)).
    + reflexivity.
    + intros e He. apply list_elem_of_singleton in He. subst e.
      vm_compute. discriminate.
Defined.

Lemma put_delete_id_check_witness :
  EventRoutes.put Demo.env (Demo.request "concert" []) Demo.world
  = (Returned invalid_event_id, Demo.world) /\
  EventRoutes.delete (Demo.request "concert" []) Demo.world
  = (Returned invalid_event_id, Demo.world) /\
  (EventRoutes.route_put Demo.env (Demo.request "concert" []) Demo.world).2 = Demo.world /\
  (EventRoutes.route_delete Demo.env (Demo.request "concert" []) Demo.world).2 = Demo.world.
Proof.
  apply (put_delete_id_check Demo.env (Demo.request "concert" []) Demo.world).
  reflexivity.
Defined.

Lemma create_requires_receipt_and_event_witness :
  (exists msg,
     BookingRoutes.create Demo.env
       (Demo.request "" [("eventId", VStr Demo.concert_id)]) Demo.world
     = (Returned {| statusCode := 400; json := Message msg |}, Demo.world) /\
     BookingRoutes2.create Demo.env
       (Demo.request "" [("eventId", VStr Demo.concert_id)]) Demo.world
     = (Returned {| statusCode := 400; json := Message msg |}, Demo.world)) /\
  (exists msg,
     BookingRoutes.create Demo.env (Demo.with_receipt [("firstName", VStr "Sara")]) Demo.world
     = (Returned {| statusCode := 400; json := Message msg |}, Demo.world) /\
     BookingRoutes2.create Demo.env (Demo.with_receipt [("firstName", VStr "Sara")]) Demo.world
     = (Returned {| statusCode := 400; json := Message msg |}, Demo.world)).
Proof.
  split.
  - apply (create_requires_receipt_and_event Demo.env
             (Demo.request "" [("eventId", VStr Demo.concert_id)]) Demo.world).
    left. reflexivity.
  - apply (create_requires_receipt_and_event Demo.env
             (Demo.with_receipt [("firstName", VStr "Sara")]) Demo.world).
    right. reflexivity.
Defined.

Lemma update_status_validated_witness :
  (BookingRoutes.update_status
     (Demo.request Demo.sara_id [("status", VStr "Archived")]) Demo.world
   = (Returned invalid_status, Demo.world) /\
   BookingRoutes2.update_status
     (Demo.request Demo.sara_id [("status", VStr "Archived")]) Demo.world
   = (Returned invalid_status, Demo.world)) /\
  exists w',
    BookingRoutes.update_status
      (Demo.request Demo.sara_id [("status", VStr "Paid")]) Demo.world
    = (Returned (status_updated (Booking.set_status (VStr "Paid") Demo.sara)), w') /\
    BookingRoutes2.update_status
      (Demo.request Demo.sara_id [("status", VStr "Paid")]) Demo.world
    = (Returned (status_updated (Booking.set_status (VStr "Paid") Demo.sara)), w') /\
    BookingDb.lookup 2%N (bookings w') = Some (Booking.set_status (VStr "Paid") Demo.sara) /\
    Booking.status (Booking.set_status (VStr "Paid") Demo.sara) = VStr "Paid" /\
    (forall j, j <> 2%N ->
       BookingDb.lookup j (bookings w') = BookingDb.lookup j (bookings Demo.world)) /\
    events w' = events Demo.world.
Proof.
  split.
  - apply (proj1 (update_status_validated
                    (Demo.request Demo.sara_id [("status", VStr "Archived")]) Demo.world)).
    intros [H|[H|[H|H]]]; vm_compute in H; discriminate.
  - apply (proj2 (update_status_validated
                    (Demo.request Demo.sara_id [("status", VStr "Paid")]) Demo.world)).
    + right. left. reflexivity.
    + reflexivity.
    + reflexivity.
Defined.

Lemma verify_ticket_witness :
  (BookingRoutes.verify Demo.env (Demo.request "654321" []) Demo.world
   = (Returned invalid_ticket, query (FindOne Bookings 654321) Demo.world) /\
   BookingRoutes2.verify Demo.env (Demo.request "654321" []) Demo.world
   = (Returned invalid_ticket, query (FindOne Bookings 654321) Demo.world)) /\
  exists w',
    BookingRoutes.verify Demo.env (Demo.request "123456" []) Demo.world
    = (Returned (valid_ticket (populated_in Demo.world Demo.sara)), w') /\
    BookingRoutes2.verify Demo.env (Demo.request "123456" []) Demo.world
    = (Returned (valid_ticket (populated_in Demo.world Demo.sara)), w') /\
    events w' = events Demo.world /\ bookings w' = bookings Demo.world.
Proof.
  split.
  - apply (proj1 (verify_ticket Demo.env (Demo.request "654321" []) Demo.world 654321
                    eq_refl)).
    repeat constructor; vm_compute; discriminate.
  - apply (proj2 (verify_ticket Demo.env (Demo.request "123456" []) Demo.world 123456
                    eq_refl) [] Demo.sara [Demo.ali]).
    + reflexivity.
    + constructor.
    + reflexivity.
Defined.

Lemma ticket_number_six_digits_witness :
  exists b w',
    BookingRoutes.create Demo.env
      (Demo.with_receipt [("eventId", VStr Demo.concert_id)]) Demo.world
    = (Returned (booking_created b), w') /\
    BookingRoutes2.create Demo.env
      (Demo.with_receipt [("eventId", VStr Demo.concert_id)]) Demo.world
    = (Returned (booking_created b), w') /\
    bookings w' = (bookings Demo.world ++ [b])%list /\
    Booking.ticketNumber b
    = Math_floor (Double.add 100000 (Double.mul (1 # 2) 900000)) /\
    100000 <= Booking.ticketNumber b <= 999999 /\
    String.length (pretty (Booking.ticketNumber b)) = 6%nat /\
    100000 <= Math_floor (100000 + (1 # 2) * 900000)%Q <= 999999.
Proof.
  apply (ticket_number_six_digits Demo.env
           (Demo.with_receipt [("eventId", VStr Demo.concert_id)]) Demo.world
           {| buffer := "receipt.png" |}).
  - vm_compute. discriminate.
  - reflexivity.
  - vm_compute. reflexivity.
  - reflexivity.
  - reflexivity.
Defined.


Lemma put_partial_update_witness :
  exists e' new,
    EventDb.lookup 1%N (events (EventRoutes.put Demo.env Demo.retitle Demo.world).2)
    = Some e' /\
    media (EventRoutes.put Demo.env Demo.retitle Demo.world).2
    = (media Demo.world ++ new)%list /\
    (forall f, body Demo.retitle !! Event.key f = None ->
       Event.get f e' = Event.get f Demo.concert) /\
    (attached Demo.retitle "imageUrl" = None ->
       Event.imageUrl e' = Event.imageUrl Demo.concert) /\
    (attached Demo.retitle "sponsorLogos" = None ->
       Event.sponsorLogos e' = Event.sponsorLogos Demo.concert) /\
    (forall f0 rest,
       attached Demo.retitle "imageUrl" = Some (f0 :: rest) ->
       exists u, u ∈ new /\ stored "events" f0 u /\ Event.imageUrl e' = secure_url u) /\
    (forall l,
       attached Demo.retitle "sponsorLogos" = Some l ->
       attached Demo.retitle "imageUrl" <> Some [] ->
       exists us, us ⊆ new /\ Forall2 (stored "events/sponsors") l us /\
         Event.sponsorLogos e' = secure_url <$> us) /\
    (forall j, j <> 1%N ->
       EventDb.lookup j (events (EventRoutes.put Demo.env Demo.retitle Demo.world).2)
       = EventDb.lookup j (events Demo.world)).
Proof.
  apply (put_partial_update Demo.env Demo.retitle Demo.world 1%N Demo.concert).
  - reflexivity.
  - reflexivity.
Defined.

Lemma put_falsy_is_absent_witness :
  EventRoutes.put Demo.env Demo.retitle Demo.world
  = EventRoutes.put Demo.env (without "description" Demo.retitle) Demo.world /\
  exists e',
    EventDb.lookup 1%N (events (EventRoutes.put Demo.env Demo.retitle Demo.world).2)
    = Some e' /\
    forall f,
      (Js.truthy (Js.prop (body Demo.retitle) (Event.key f)) = false ->
         Event.get f e' = Event.get f Demo.concert) /\
      (Event.get f e' = VStr "" -> Event.get f Demo.concert = VStr "").
Proof.
  split.
  - apply (proj1 (put_falsy_is_absent Demo.env Demo.retitle Demo.world) Event.Description).
    reflexivity.
  - apply (proj2 (put_falsy_is_absent Demo.env Demo.retitle Demo.world) 1%N Demo.concert).
    reflexivity.
Defined.

Lemma add_then_get_witness :
  exists e w',
    EventRoutes.add Demo.env Demo.new_concert Demo.world
    = (Returned (event_answer 201 e), w') /\
    (forall f, Event.get f e = Js.prop (body Demo.new_concert) (Event.key f)) /\
    (forall f v, body Demo.new_concert !! Event.key f = Some v -> Event.get f e = v) /\
    forall req',
      param req' = ObjectId.to_string (Event._id e) ->
      exists w'', EventRoutes.get req' w' = (Returned (event_answer 200 e), w'').
Proof.
  apply (add_then_get Demo.env Demo.new_concert Demo.world).
  - split; [eexists; reflexivity | discriminate].
  - split; [reflexivity|]. repeat constructor.
Defined.

(** With the scenario's payload the stored event has the title and the
    date that were sent, under the identifier the world had next. *)
Lemma add_scenario :
  exists e w',
    EventRoutes.add Demo.env Demo.new_concert Demo.world
    = (Returned (event_answer 201 e), w') /\
    Event.title e = VStr "Concert" /\ Event.date e = VStr "2025-01-01" /\
    ObjectId.to_string (Event._id e) = "000000000000000000000004" /\
    EventRoutes.get (Demo.request "000000000000000000000004" []) w'
    = (Returned (event_answer 200 e), query (FindById Events 4%N) w').
Proof. eexists _, _. split; [reflexivity|]. repeat split. Qed.

Lemma send_email_ticket_witness :
  (exists w' m,
     BookingRoutes2.send_email Demo.env Demo.templated_send Demo.world
     = (Returned (email_sent None), w') /\
     outbox w' = (outbox Demo.world ++ [m])%list /\
     to m = Booking.emailAddress Demo.sara /\
     attachments m = [qr_attachment Demo.env Demo.sara] /\
     html m = EntryPass (populated_in Demo.world Demo.sara)) /\
  (exists w' m,
     BookingRoutes.send_email Demo.env Demo.templated_send Demo.world
     = (Returned (email_sent (Some (toDataURL Demo.env
                     (verification_url "https://your-domain.com" Demo.sara)))), w') /\
     outbox w' = (outbox Demo.world ++ [m])%list /\
     to m = Booking.emailAddress Demo.sara /\
     html m = CallerHtml
                (Js.replace "{{QR_CODE}}"
                   (toDataURL Demo.env (verification_url "https://your-domain.com" Demo.sara))
                   "<p>Your pass</p><img src={{QR_CODE}}>")) /\
  (exists w',
     BookingRoutes2.send_email Demo.env (Demo.request Demo.unknown_id []) Demo.world
     = (Returned booking_not_found, w') /\
     outbox w' = outbox Demo.world) /\
  BookingRoutes.send_email Demo.env Demo.bare_send Demo.world
  = (Returned html_required, Demo.world).
Proof.
  split; [|split; [|split]].
  - apply (proj1 (proj1 (send_email_ticket Demo.env Demo.templated_send Demo.world 2%N
                           eq_refl) Demo.sara eq_refl)).
  - apply (proj2 (proj1 (send_email_ticket Demo.env Demo.templated_send Demo.world 2%N
                           eq_refl) Demo.sara eq_refl)
             "<p>Your pass</p><img src={{QR_CODE}}>").
    + reflexivity.
    + discriminate.
  - apply (proj1 (proj1 (proj2 (send_email_ticket Demo.env
                                  (Demo.request Demo.unknown_id []) Demo.world 255%N
                                  eq_refl)) eq_refl)).
  - apply (proj2 (proj2 (send_email_ticket Demo.env Demo.bare_send Demo.world 2%N eq_refl))).
    reflexivity.
Defined.

(** The mail the first revision sends for Sara's booking carries the QR
    data URL where the placeholder stood. *)
Lemma send_email_template_filled :
  Js.replace "{{QR_CODE}}"
    (toDataURL Demo.env (verification_url "https://your-domain.com" Demo.sara))
    "<p>Your pass</p><img src={{QR_CODE}}>"
  = "<p>Your pass</p><img src=data:image/png;base64,https://your-domain.com/verify-ticket/123456>".
Proof. reflexivity. Qed.

(** C8 as stated fails on the first revision: for the id of a stored
    booking and a body without [htmlContent] the answer is 400 and no mail
    is sent. *)
Lemma send_email_needs_html :
  ObjectId.cast (param Demo.bare_send) = Some 2%N /\
  BookingDb.lookup 2%N (bookings Demo.world) = Some Demo.sara /\
  BookingRoutes.send_email Demo.env Demo.bare_send Demo.world
  = (Returned html_required, Demo.world) /\
  ~ (exists m,
       outbox (BookingRoutes.send_email Demo.env Demo.bare_send Demo.world).2
       = (outbox Demo.world ++ [m])%list).
Proof.
  split; [reflexivity|]. split; [reflexivity|]. split; [reflexivity|].
  intros [m Hm]. vm_compute in Hm. discriminate.
Qed.

(** * Further properties of the routes *)

(** ** What a computation leaves alone *)

Section Keeps.

Context {B : Type} (part : World -> B).

Lemma keeps_ret {A : Type} (a : A) : keeps part (mret a).
Proof. by intros w. Qed.

Lemma keeps_throw {A : Type} (e : exn) : keeps part (@throw A e).
Proof. by intros w. Qed.

Lemma keeps_bind {A C : Type} (m : M A) (f : A -> M C) :
  keeps part m -> (forall a, keeps part (f a)) -> keeps part (m ≫= f).
Proof.
  intros Hm Hf w. unfold mbind, M_bind. specialize (Hm w).
  destruct (m w) as [[a|e] w1]; simpl in *; [|done].
  by rewrite (Hf a w1).
Qed.

Lemma keeps_try {A : Type} (body : M A) (handler : exn -> M A) :
  keeps part body -> (forall e, keeps part (handler e)) ->
  keeps part (try_catch body handler).
Proof.
  intros Hm Hh w. unfold try_catch. specialize (Hm w).
  destruct (body w) as [[a|e] w1]; simpl in *; [done|].
  by rewrite (Hh e w1).
Qed.

End Keeps.

Lemma keeps_upload_logos {B : Type} (part : World -> B) (env : Env) (l : list File) :
  (forall buf dir, keeps part (uploadToCloudinary env buf dir)) ->
  keeps part (EventRoutes.upload_logos env l).
Proof.
  intros Hup. induction l as [|f l IH]; simpl; [apply keeps_ret|].
  apply keeps_bind; [apply Hup|]. intros url.
  apply keeps_bind; [exact IH|]. intros urls. apply keeps_ret.
Qed.

Ltac keeps_step :=
  match goal with
  | |- forall _, _ => intro
  | |- keeps _ (try_catch _ _) => apply keeps_try
  | |- keeps _ (mbind _ _) => apply keeps_bind
  | |- keeps _ (mret _) => apply keeps_ret
  | |- keeps _ (throw _) => apply keeps_throw
  | |- keeps _ (respond _ _) => apply keeps_ret
  | |- keeps _ (EventRoutes.upload_logos _ _) =>
      apply keeps_upload_logos; by intros ???
  | |- keeps _ (match ?x with _ => _ end) => destruct x
  | |- keeps _ _ => by intros ?
  end.

Ltac keeps_tac := cbv zeta; repeat (keeps_step; cbv zeta).

(** X1. The routes that read, GET /api/events/:id, GET
    /api/booking/:id and GET /api/booking/verify/:ticketNumber in both
    revisions, change nothing but the log of database calls, whatever the
    request and whatever they answer. *)
Theorem reading_routes_change_nothing (env : Env) (req : Request) :
  read_only (EventRoutes.get req) /\
  read_only (BookingRoutes.get req) /\ read_only (BookingRoutes2.get req) /\
  read_only (BookingRoutes.verify env req) /\ read_only (BookingRoutes2.verify env req).
Proof.
  unfold read_only, EventRoutes.get, BookingRoutes.get, BookingRoutes2.get,
    BookingRoutes.verify, BookingRoutes2.verify,
    EventDb.findById, BookingDb.findById, BookingDb.findOne, BookingDb.populate.
  repeat split; keeps_tac.
Qed.

(** X2. The event routes, with or without the admin middleware in front,
    never change a booking and never send a mail: deleting or updating an
    event leaves every booking that refers to it as it was. *)
Theorem event_routes_leave_bookings (env : Env) (req : Request) :
  (keeps bookings (EventRoutes.add env req) /\ keeps outbox (EventRoutes.add env req)) /\
  (keeps bookings (EventRoutes.put env req) /\ keeps outbox (EventRoutes.put env req)) /\
  (keeps bookings (EventRoutes.delete req) /\ keeps outbox (EventRoutes.delete req)) /\
  (keeps bookings (EventRoutes.route_add env req) /\
   keeps bookings (EventRoutes.route_put env req) /\
   keeps bookings (EventRoutes.route_delete env req)).
Proof.
  unfold EventRoutes.route_add, EventRoutes.route_put, EventRoutes.route_delete,
    EventRoutes.admin_only, EventRoutes.add, EventRoutes.put, EventRoutes.delete,
    EventDb.findById, EventRoutes.files_prop, EventRoutes.first_buffer.
  repeat split; keeps_tac.
Qed.

(** X3. The booking routes never change an event.  Creating a booking,
    updating its status and deleting it send no mail; sending the ticket
    mail, in either revision, changes no booking, stores nothing in the
    media store and hands out no identifier. *)
Theorem booking_routes_leave_events (env : Env) (req : Request) :
  (keeps events (BookingRoutes.create env req) /\ keeps outbox (BookingRoutes.create env req) /\
   keeps events (BookingRoutes2.create env req) /\ keeps outbox (BookingRoutes2.create env req)) /\
  (keeps events (BookingRoutes.update_status req) /\ keeps outbox (BookingRoutes.update_status req) /\
   keeps media (BookingRoutes.update_status req) /\
   keeps events (BookingRoutes2.update_status req) /\ keeps outbox (BookingRoutes2.update_status req) /\
   keeps media (BookingRoutes2.update_status req)) /\
  (keeps events (BookingRoutes.delete req) /\ keeps outbox (BookingRoutes.delete req) /\
   keeps media (BookingRoutes.delete req) /\
   keeps events (BookingRoutes2.delete req) /\ keeps outbox (BookingRoutes2.delete req) /\
   keeps media (BookingRoutes2.delete req)) /\
  (keeps events (BookingRoutes.send_email env req) /\
   keeps bookings (BookingRoutes.send_email env req) /\
   keeps media (BookingRoutes.send_email env req) /\
   keeps nextId (BookingRoutes.send_email env req) /\
   keeps events (BookingRoutes2.send_email env req) /\
   keeps bookings (BookingRoutes2.send_email env req) /\
   keeps media (BookingRoutes2.send_email env req) /\
   keeps nextId (BookingRoutes2.send_email env req)).
Proof.
  unfold BookingRoutes.create, BookingRoutes2.create,
    BookingRoutes.update_status, BookingRoutes2.update_status,
    BookingRoutes.delete, BookingRoutes2.delete,
    BookingRoutes.send_email, BookingRoutes2.send_email,
    BookingDb.findById, BookingDb.findByIdAndUpdate, BookingDb.populate, call_replace.
  repeat split; keeps_tac.
Qed.

(** ** Event routes: delete, unknown ids, bodies that are not multipart *)

Lemma lookup_not_in (i : ObjectId.t) (l : list Event.t) :
  i ∉ Event._id <$> l -> EventDb.lookup i l = None.
Proof.
  unfold EventDb.lookup. induction l as [|e l IH]; simpl; [done|].
  intros Hn. apply not_elem_of_cons in Hn as [Hne Hn].
  destruct (N.eqb_spec (Event._id e) i); [congruence | by apply IH].
Qed.

Lemma lookup_remove_ne (i j : ObjectId.t) (l : list Event.t) :
  j <> i -> EventDb.lookup j (EventDb.remove i l) = EventDb.lookup j l.
Proof.
  intros Hne. unfold EventDb.lookup. induction l as [|e l IH]; simpl; [done|].
  destruct (N.eqb_spec (Event._id e) i) as [Hi|Hi]; simpl.
  - assert (N.eqb (Event._id e) j = false) as -> by (apply N.eqb_neq; congruence). done.
  - destruct (N.eqb (Event._id e) j); [done | apply IH].
Qed.

Lemma lookup_remove_eq (i : ObjectId.t) (l : list Event.t) :
  NoDup (Event._id <$> l) -> EventDb.lookup i (EventDb.remove i l) = None.
Proof.
  induction l as [|e l IH]; simpl; [done|]. intros Hd.
  apply NoDup_cons in Hd as [Hn Hd].
  destruct (N.eqb_spec (Event._id e) i) as [Hi|Hi].
  - apply lookup_not_in. by rewrite <- Hi.
  - unfold EventDb.lookup. simpl.
    assert (N.eqb (Event._id e) i = false) as -> by (by apply N.eqb_neq).
    by apply IH.
Qed.

Lemma length_remove (i : ObjectId.t) (l : list Event.t) :
  is_Some (EventDb.lookup i l) -> S (length (EventDb.remove i l)) = length l.
Proof.
  unfold EventDb.lookup. induction l as [|e l IH]; simpl; intros [x Hx]; [done|].
  destruct (N.eqb (Event._id e) i); simpl; [done|]. f_equal. apply IH. eauto.
Qed.

Lemma delete_run (req : Request) (w : World) (i : ObjectId.t) (e : Event.t) :
  ObjectId.cast (param req) = Some i ->
  EventDb.lookup i (events w) = Some e ->
  EventRoutes.delete req w
  = (Returned event_deleted,
     query (DeleteOne Events i)
       (set_events (EventDb.remove i (events w)) (query (FindById Events i) w))).
Proof.
  intros Hc Hl. pose proof (cast_matches _ _ Hc) as Hm.
  pose proof (lookup_event_id _ _ _ Hl) as Hid.
  unfold EventRoutes.delete, try_catch. rewrite Hm. cbn [negb].
  erewrite bind_returned by (apply findById_run; exact Hc). rewrite Hl.
  erewrite bind_returned by reflexivity. simpl. by rewrite Hid.
Qed.

Lemma get_run (req : Request) (w : World) (i : ObjectId.t) :
  ObjectId.cast (param req) = Some i ->
  EventRoutes.get req w
  = (Returned match EventDb.lookup i (events w) with
              | Some e => event_answer 200 e
              | None => event_not_found
              end, query (FindById Events i) w).
Proof.
  intros Hc. pose proof (cast_matches _ _ Hc) as Hm.
  unfold EventRoutes.get, try_catch. rewrite Hm. cbn [negb].
  erewrite bind_returned by (apply findById_run; exact Hc).
  by destruct (EventDb.lookup i (events w)).
Qed.

Lemma delete_absent (req : Request) (w : World) (i : ObjectId.t) :
  ObjectId.cast (param req) = Some i ->
  EventDb.lookup i (events w) = None ->
  EventRoutes.delete req w = (Returned event_not_found, query (FindById Events i) w).
Proof.
  intros Hc Hl. pose proof (cast_matches _ _ Hc) as Hm.
  unfold EventRoutes.delete, try_catch. rewrite Hm. cbn [negb].
  erewrite bind_returned by (apply findById_run; exact Hc). by rewrite Hl.
Qed.

Lemma put_absent (env : Env) (req : Request) (w : World) (i : ObjectId.t) :
  ObjectId.cast (param req) = Some i ->
  EventDb.lookup i (events w) = None ->
  EventRoutes.put env req w = (Returned event_not_found, query (FindById Events i) w).
Proof.
  intros Hc Hl. pose proof (cast_matches _ _ Hc) as Hm.
  unfold EventRoutes.put, try_catch. rewrite Hm. cbn [negb].
  erewrite bind_returned by (apply findById_run; exact Hc). by rewrite Hl.
Qed.

(** X4. DELETE /api/events/:id for the id of a stored event answers 200
    and removes one document, the first that carries the id; every event
    under another id is as before, and when identifiers are distinct no
    event is left under the id. *)
Theorem delete_event_effect (req : Request) (w : World) (i : ObjectId.t) (e : Event.t) :
  ObjectId.cast (param req) = Some i ->
  EventDb.lookup i (events w) = Some e ->
  exists w',
    EventRoutes.delete req w = (Returned event_deleted, w') /\
    events w' = EventDb.remove i (events w) /\
    S (length (events w')) = length (events w) /\
    (forall j, j <> i -> EventDb.lookup j (events w') = EventDb.lookup j (events w)) /\
    (distinct_event_ids w -> EventDb.lookup i (events w') = None).
Proof.
  intros Hc Hl. eexists. split; [by apply (delete_run req w i e)|]. simpl.
  split; [done|]. split; [apply length_remove; rewrite Hl; eauto|].
  split; [intros j Hj; by apply lookup_remove_ne|].
  intros Hd. by apply lookup_remove_eq.
Qed.

(** X5. Once an event was deleted, and identifiers being distinct, the
    same id is unknown to all three routes: GET, PUT and a second DELETE
    answer 404 and change no event. *)
Theorem delete_then_unknown (env : Env) (req : Request) (w : World)
    (i : ObjectId.t) (e : Event.t) :
  ObjectId.cast (param req) = Some i ->
  EventDb.lookup i (events w) = Some e ->
  distinct_event_ids w ->
  let w' := (EventRoutes.delete req w).2 in
  (EventRoutes.get req w').1 = Returned event_not_found /\
  (EventRoutes.put env req w').1 = Returned event_not_found /\
  (EventRoutes.delete req w').1 = Returned event_not_found /\
  events (EventRoutes.put env req w').2 = events w' /\
  events (EventRoutes.delete req w').2 = events w'.
Proof.
  intros Hc Hl Hd w'. subst w'. rewrite (delete_run req w i e Hc Hl). cbn [snd].
  set (w' := query _ _).
  assert (Hgone : EventDb.lookup i (events w') = None) by (by apply lookup_remove_eq).
  rewrite (get_run req w' i Hc), Hgone.
  rewrite (put_absent env req w' i Hc Hgone), (delete_absent req w' i Hc Hgone).
  done.
Qed.

(** X6. PUT and DELETE /api/events/:id with a well-formed id that no
    stored event carries answer 404 after the one lookup: no event is
    changed, nothing is uploaded even when files are attached. *)
Theorem put_delete_unknown_id (env : Env) (req : Request) (w : World) (i : ObjectId.t) :
  ObjectId.cast (param req) = Some i ->
  EventDb.lookup i (events w) = None ->
  EventRoutes.put env req w = (Returned event_not_found, query (FindById Events i) w) /\
  EventRoutes.delete req w = (Returned event_not_found, query (FindById Events i) w) /\
  events (query (FindById Events i) w) = events w /\
  media (query (FindById Events i) w) = media w.
Proof.
  intros Hc Hl. split; [by apply put_absent|]. split; [by apply delete_absent|]. done.
Qed.

Lemma add_files_undefined (env : Env) (req : Request) (w : World) :
  files req = None -> EventRoutes.add env req w = (Returned create_failed, w).
Proof.
  intros Hf. unfold EventRoutes.add, try_catch, EventRoutes.files_prop. rewrite Hf.
  by erewrite bind_thrown by reflexivity.
Qed.

Lemma put_files_undefined (env : Env) (req : Request) (w : World)
    (i : ObjectId.t) (e : Event.t) :
  files req = None ->
  ObjectId.cast (param req) = Some i ->
  EventDb.lookup i (events w) = Some e ->
  EventRoutes.put env req w = (Returned update_failed, query (FindById Events i) w).
Proof.
  intros Hf Hc Hl. pose proof (cast_matches _ _ Hc) as Hm.
  unfold EventRoutes.put, try_catch. rewrite Hm. cbn [negb].
  erewrite bind_returned by (apply findById_run; exact Hc). rewrite Hl.
  unfold EventRoutes.files_prop. rewrite Hf.
  by erewrite bind_thrown by reflexivity.
Qed.

(** X7. A request that is not multipart (a JSON body, say) cannot create
    or update an event: [req.files] is undefined, the read of
    [req.files.imageUrl] throws, and the handler answers 500.  POST /add
    hands back the world untouched; PUT, for a stored event, has looked
    the event up and changes no event and uploads nothing, whatever the
    body says. *)
Theorem json_body_cannot_write_events (env : Env) (req : Request) (w : World) :
  files req = None ->
  EventRoutes.add env req w = (Returned create_failed, w) /\
  forall i e,
    ObjectId.cast (param req) = Some i ->
    EventDb.lookup i (events w) = Some e ->
    EventRoutes.put env req w = (Returned update_failed, query (FindById Events i) w).
Proof.
  intros Hf. split; [by apply add_files_undefined|].
  intros i e. by apply put_files_undefined.
Qed.

(** ** Event routes: what create and update store *)

Lemma length_stored (dir : string) (l : list File) (us : list Upload) :
  Forall2 (stored dir) l us -> length us = length l.
Proof. intros H. symmetry. by eapply Forall2_length. Qed.

(** What POST /add does once [req.files] can be read. *)
Lemma add_files_run (env : Env) (req : Request) (w : World) :
  is_Some (files req) ->
  attached req "imageUrl" <> Some [] ->
  exists e new w',
    EventRoutes.add env req w = (Returned (event_answer 201 e), w') /\
    events w' = (events w ++ [e])%list /\
    Event._id e = nextId w /\ nextId w' = N.succ (nextId w) /\
    media w' = (media w ++ new)%list /\
    length new
    = ((match attached req "imageUrl" with Some _ => 1 | None => 0 end)
       + match attached req "sponsorLogos" with Some l => length l | None => 0 end)%nat /\
    match attached req "imageUrl" with
    | Some (f0 :: _) =>
        exists u, u ∈ new /\ stored "events" f0 u /\ Event.imageUrl e = secure_url u
    | Some [] => False
    | None => Event.imageUrl e = ""
    end /\
    match attached req "sponsorLogos" with
    | Some l =>
        exists us, us ⊆ new /\ Forall2 (stored "events/sponsors") l us /\
          Event.sponsorLogos e = secure_url <$> us
    | None => Event.sponsorLogos e = []
    end.
Proof.
  intros [fs Hfs] Himg.
  unfold attached in *. rewrite Hfs in *.
  unfold EventRoutes.add, try_catch, EventRoutes.files_prop. rewrite Hfs.
  erewrite bind_returned by reflexivity.
  destruct (fs !! "imageUrl") as [[|f0 rest]|]; [done| |].
  - erewrite bind_returned
      by (erewrite bind_returned by reflexivity; reflexivity).
    erewrite bind_returned by reflexivity.
    destruct (fs !! "sponsorLogos") as [l|].
    + match goal with
      | |- context [mbind _ (EventRoutes.upload_logos env l) ?w0] =>
          destruct (upload_logos_run env l w0) as (us & Hrun & Hall)
      end.
      erewrite bind_returned by exact Hrun.
      erewrite bind_returned by reflexivity.
      erewrite bind_returned by reflexivity.
      eexists _, (_ :: us), _. split; [reflexivity|]. simpl.
      rewrite <- app_assoc. simpl.
      split; [done|]. split; [done|]. split; [done|]. split; [done|].
      split; [by rewrite (length_stored _ _ _ Hall)|]. split.
      * eexists. split; [apply list_elem_of_here|]. by split.
      * exists us. split; [|by split]. intros x Hx. by apply list_elem_of_further.
    + erewrite bind_returned by reflexivity.
      erewrite bind_returned by reflexivity.
      erewrite bind_returned by reflexivity.
      eexists _, [_], _. split; [reflexivity|]. simpl.
      split; [done|]. split; [done|]. split; [done|]. split; [done|].
      split; [done|]. split; [|done].
      eexists. split; [apply list_elem_of_here|]. by split.
  - erewrite bind_returned by reflexivity.
    erewrite bind_returned by reflexivity.
    destruct (fs !! "sponsorLogos") as [l|].
    + match goal with
      | |- context [mbind _ (EventRoutes.upload_logos env l) ?w0] =>
          destruct (upload_logos_run env l w0) as (us & Hrun & Hall)
      end.
      erewrite bind_returned by exact Hrun.
      erewrite bind_returned by reflexivity.
      erewrite bind_returned by reflexivity.
      eexists _, us, _. split; [reflexivity|]. simpl.
      split; [done|]. split; [done|]. split; [done|]. split; [done|].
      split; [by rewrite (length_stored _ _ _ Hall)|]. split; [done|].
      exists us. by split.
    + erewrite bind_returned by reflexivity.
      erewrite bind_returned by reflexivity.
      erewrite bind_returned by reflexivity.
      eexists _, [], _. split; [reflexivity|]. simpl. rewrite app_nil_r.
      by repeat split.
Qed.

(** X8. POST /api/events/add with a multipart request stores exactly one
    event, after those already there and under the next identifier, and
    one media object per attached file: the first [imageUrl] file in
    folder "events", whose URL becomes the event's [imageUrl], and each
    [sponsorLogos] file in folder "events/sponsors", whose URLs, in order,
    become [sponsorLogos].  Without an image the event's [imageUrl] is the
    empty string, without logos [sponsorLogos] is empty. *)
Theorem add_stores_files (env : Env) (req : Request) (w : World) :
  multipart req ->
  exists e new w',
    EventRoutes.add env req w = (Returned (event_answer 201 e), w') /\
    events w' = (events w ++ [e])%list /\
    Event._id e = nextId w /\ nextId w' = N.succ (nextId w) /\
    media w' = (media w ++ new)%list /\
    length new
    = ((match attached req "imageUrl" with Some _ => 1 | None => 0 end)
       + match attached req "sponsorLogos" with Some l => length l | None => 0 end)%nat /\
    match attached req "imageUrl" with
    | Some (f0 :: _) =>
        exists u, u ∈ new /\ stored "events" f0 u /\ Event.imageUrl e = secure_url u
    | Some [] => False
    | None => Event.imageUrl e = ""
    end /\
    match attached req "sponsorLogos" with
    | Some l =>
        exists us, us ⊆ new /\ Forall2 (stored "events/sponsors") l us /\
          Event.sponsorLogos e = secure_url <$> us
    | None => Event.sponsorLogos e = []
    end.
Proof. intros [Hfs Hne]. by apply add_files_run. Qed.

(** X9. PUT /api/events/:id with a multipart request for a stored event
    answers 200 with the document it saved, which is then what the
    collection holds under the id; every text field for which the body
    carries a truthy value has that value, whatever was stored before. *)
Theorem put_sets_supplied_fields (env : Env) (req : Request) (w : World)
    (i : ObjectId.t) (e : Event.t) :
  multipart req ->
  ObjectId.cast (param req) = Some i ->
  EventDb.lookup i (events w) = Some e ->
  exists e' w',
    EventRoutes.put env req w = (Returned (event_answer 200 e'), w') /\
    EventDb.lookup i (events w') = Some e' /\
    Event._id e' = i /\
    length (events w') = length (events w) /\
    forall f v,
      body req !! Event.key f = Some v -> Js.truthy v = true -> Event.get f e' = v.
Proof.
  intros [Hfs Hne] Hc Hl.
  destruct (put_run env req w i e Hc Hl)
    as [(w' & _ & _ & _ & [Hwhy|Hwhy])
       |(e' & new & w' & Hrun & Hev & _ & Hid & _ & Hget & _)].
  - rewrite Hwhy in Hfs. by destruct Hfs.
  - by destruct (Hne "imageUrl").
  - exists e', w'. split; [done|]. rewrite Hev. subst i.
    split; [apply lookup_put_eq; rewrite Hl; eauto|]. split; [done|]. split.
    + clear. induction (events w) as [|x l IH]; simpl; [done|].
      destruct (N.eqb (Event._id x) (Event._id e')); simpl; by rewrite ?IH.
    + intros f v Hv Ht. rewrite Hget. unfold Js.or, Js.prop. by rewrite Hv; simpl; rewrite Ht.
Qed.

Lemma event_ext (e1 e2 : Event.t) :
  Event._id e1 = Event._id e2 ->
  (forall g, Event.get g e1 = Event.get g e2) ->
  Event.imageUrl e1 = Event.imageUrl e2 ->
  Event.sponsorLogos e1 = Event.sponsorLogos e2 ->
  e1 = e2.
Proof.
  intros Hid Hget Himg Hlogos. destruct e1, e2. simpl in *.
  pose proof (Hget Event.Title). pose proof (Hget Event.Description).
  pose proof (Hget Event.Date). pose proof (Hget Event.Location).
  pose proof (Hget Event.Category). pose proof (Hget Event.Address).
  pose proof (Hget Event.StandardPrice). pose proof (Hget Event.VipPrice).
  pose proof (Hget Event.EventTime). pose proof (Hget Event.Refreshments).
  simpl in *. congruence.
Qed.

Lemma put_put (d : Event.t) (l : list Event.t) :
  EventDb.put d (EventDb.put d l) = EventDb.put d l.
Proof.
  induction l as [|x l IH]; simpl; [done|].
  destruct (N.eqb (Event._id x) (Event._id d)) eqn:E; simpl.
  - by rewrite N.eqb_refl.
  - by rewrite E, IH.
Qed.

Lemma or_or (a b : value) : Js.or a (Js.or a b) = Js.or a b.
Proof. unfold Js.or. by destruct (Js.truthy a) eqn:E; rewrite ?E. Qed.

Lemma put_malformed (env : Env) (req : Request) (w : World) :
  ObjectId.matches (param req) = false ->
  EventRoutes.put env req w = (Returned invalid_event_id, w).
Proof. intros H. unfold EventRoutes.put, try_catch. by rewrite H. Qed.

(** X10. A PUT /api/events/:id that attaches no file is idempotent:
    sending the same request a second time gives the same answer and
    leaves the Event collection exactly as the first one left it. *)
Theorem put_twice_is_put_once (env : Env) (req : Request) (w : World) :
  attached req "imageUrl" = None ->
  attached req "sponsorLogos" = None ->
  let w1 := (EventRoutes.put env req w).2 in
  (EventRoutes.put env req w1).1 = (EventRoutes.put env req w).1 /\
  events (EventRoutes.put env req w1).2 = events w1.
Proof.
  intros Himg Hlogos w1. subst w1.
  destruct (ObjectId.matches (param req)) eqn:Hm.
  2:{ by rewrite !(put_malformed env req _ Hm). }
  destruct (matches_cast _ Hm) as [i Hc].
  destruct (EventDb.lookup i (events w)) as [e|] eqn:Hl.
  2:{ rewrite (put_absent env req w i Hc Hl). cbn [fst snd].
      by rewrite (put_absent env req (query (FindById Events i) w) i Hc Hl). }
  destruct (put_run env req w i e Hc Hl)
    as [(w' & Hrun & Hev & _ & Hwhy)
       |(e' & new & w' & Hrun & Hev & _ & Hid & Hfs & Hget & Hi & Hlo)];
    rewrite Hrun; cbn [fst snd].
  - destruct Hwhy as [Hnone|Hbad]; [|congruence].
    assert (Hl' : EventDb.lookup i (events w') = Some e) by (by rewrite Hev).
    by rewrite (put_files_undefined env req w' i e Hnone Hc Hl').
  - rewrite Himg in Hi. rewrite Hlogos in Hlo.
    assert (Hl' : EventDb.lookup i (events w') = Some e').
    { rewrite Hev. subst i. apply lookup_put_eq. rewrite Hl. eauto. }
    destruct (put_run env req w' i e' Hc Hl')
      as [(w'' & _ & _ & _ & [Hnone|Hbad])
         |(e'' & new' & w'' & Hrun' & Hev' & _ & Hid' & _ & Hget' & Hi' & Hlo')].
    + rewrite Hnone in Hfs. by destruct Hfs.
    + congruence.
    + rewrite Himg in Hi'. rewrite Hlogos in Hlo'.
      assert (e'' = e') as ->.
      { apply event_ext; [congruence| |congruence|congruence].
        intros g. by rewrite Hget', Hget, or_or. }
      rewrite Hrun'. cbn [fst snd]. split; [done|].
      by rewrite Hev', Hev, put_put.
Qed.

(** ** Booking routes: read, delete, and the events they refer to *)

Lemma booking_get_run (req : Request) (w : World) (i : ObjectId.t) :
  ObjectId.cast (param req) = Some i ->
  exists w',
    BookingRoutes.get req w
    = (Returned match BookingDb.lookup i (bookings w) with
                | Some b => booking_answer (populated_in w b)
                | None => booking_not_found
                end, w') /\
    events w' = events w /\ bookings w' = bookings w.
Proof.
  intros Hc. unfold BookingRoutes.get, try_catch.
  erewrite bind_returned by (apply booking_findById_run; exact Hc).
  destruct (BookingDb.lookup i (bookings w)) as [b|].
  - destruct (populate_found b (query (FindById Bookings i) w))
      as (w1 & Hpop & Hev & Hbk & _ & _).
    erewrite bind_returned by exact Hpop. eexists. split; [reflexivity|]. by split.
  - erewrite bind_returned by reflexivity. eexists. split; [reflexivity|]. by split.
Qed.

(** X11. GET /api/booking/:id, in both revisions: for the id of a stored
    booking the answer is 200 with the booking and its event populated;
    for a well-formed id that no booking carries it is 404; for an id that
    is not the text of an ObjectId the lookup itself fails and the answer
    is 500, where the event routes answer 400. *)
Theorem get_booking_outcomes (req : Request) (w : World) :
  BookingRoutes2.get req w = BookingRoutes.get req w /\
  (forall i b,
     ObjectId.cast (param req) = Some i ->
     BookingDb.lookup i (bookings w) = Some b ->
     (BookingRoutes.get req w).1 = Returned (booking_answer (populated_in w b))) /\
  (forall i,
     ObjectId.cast (param req) = Some i ->
     BookingDb.lookup i (bookings w) = None ->
     (BookingRoutes.get req w).1 = Returned booking_not_found) /\
  (ObjectId.matches (param req) = false ->
     BookingRoutes.get req w = (Returned fetch_booking_failed, w)).
Proof.
  split; [reflexivity|]. split; [|split].
  - intros i b Hc Hl. destruct (booking_get_run req w i Hc) as (w' & Hrun & _).
    by rewrite Hrun, Hl.
  - intros i Hc Hl. destruct (booking_get_run req w i Hc) as (w' & Hrun & _).
    by rewrite Hrun, Hl.
  - intros Hm. unfold BookingRoutes.get, try_catch.
    erewrite bind_thrown; [reflexivity|].
    unfold BookingDb.findById. by rewrite (cast_malformed _ Hm).
Qed.

(** X12. Deleting an event does not cascade.  After DELETE
    /api/events/:id the bookings are exactly as before, and a booking that
    referred to the deleted event is served by GET /api/booking/:id with
    its event [null], identifiers of events being distinct. *)
Theorem event_delete_does_not_cascade (dreq breq : Request) (w : World)
    (i k : ObjectId.t) (e : Event.t) (b : Booking.t) :
  ObjectId.cast (param dreq) = Some i ->
  EventDb.lookup i (events w) = Some e ->
  distinct_event_ids w ->
  ObjectId.cast (param breq) = Some k ->
  BookingDb.lookup k (bookings w) = Some b ->
  BookingDb.reference b = Some i ->
  let w' := (EventRoutes.delete dreq w).2 in
  (BookingRoutes.get breq w).1
  = Returned (booking_answer (Booking.mkPopulated b (Some e))) /\
  bookings w' = bookings w /\
  (BookingRoutes.get breq w').1
  = Returned (booking_answer (Booking.mkPopulated b None)) /\
  (BookingRoutes2.get breq w').1
  = Returned (booking_answer (Booking.mkPopulated b None)).
Proof.
  intros Hc Hl Hd Hk Hb Href w'. subst w'.
  rewrite (delete_run dreq w i e Hc Hl). cbn [snd]. set (w' := query _ _).
  assert (Hgone : EventDb.lookup i (events w') = None) by (by apply lookup_remove_eq).
  change (BookingRoutes2.get breq w') with (BookingRoutes.get breq w').
  destruct (booking_get_run breq w k Hk) as (w1 & Hrun & _).
  destruct (booking_get_run breq w' k Hk) as (w2 & Hrun' & _).
  assert (Hbefore : populated_in w b = Booking.mkPopulated b (Some e)).
  { unfold populated_in. rewrite Href. f_equal. exact Hl. }
  assert (Hafter : populated_in w' b = Booking.mkPopulated b None).
  { unfold populated_in. rewrite Href. f_equal. exact Hgone. }
  rewrite Hrun, Hrun'. cbn [fst]. change (bookings w') with (bookings w). rewrite Hb.
  by rewrite Hbefore, Hafter.
Qed.

Lemma booking_lookup_not_in (i : ObjectId.t) (l : list Booking.t) :
  i ∉ Booking._id <$> l -> BookingDb.lookup i l = None.
Proof.
  unfold BookingDb.lookup. induction l as [|e l IH]; simpl; [done|].
  intros Hn. apply not_elem_of_cons in Hn as [Hne Hn].
  destruct (N.eqb_spec (Booking._id e) i); [congruence | by apply IH].
Qed.

Lemma booking_lookup_remove_ne (i j : ObjectId.t) (l : list Booking.t) :
  j <> i -> BookingDb.lookup j (BookingDb.remove i l) = BookingDb.lookup j l.
Proof.
  intros Hne. unfold BookingDb.lookup. induction l as [|e l IH]; simpl; [done|].
  destruct (N.eqb_spec (Booking._id e) i) as [Hi|Hi]; simpl.
  - assert (N.eqb (Booking._id e) j = false) as -> by (apply N.eqb_neq; congruence). done.
  - destruct (N.eqb (Booking._id e) j); [done | apply IH].
Qed.

Lemma booking_lookup_remove_eq (i : ObjectId.t) (l : list Booking.t) :
  NoDup (Booking._id <$> l) -> BookingDb.lookup i (BookingDb.remove i l) = None.
Proof.
  induction l as [|e l IH]; simpl; [done|]. intros Hd.
  apply NoDup_cons in Hd as [Hn Hd].
  destruct (N.eqb_spec (Booking._id e) i) as [Hi|Hi].
  - apply booking_lookup_not_in. by rewrite <- Hi.
  - unfold BookingDb.lookup. simpl.
    assert (N.eqb (Booking._id e) i = false) as -> by (by apply N.eqb_neq).
    by apply IH.
Qed.

Lemma booking_lookup_id (i : ObjectId.t) (l : list Booking.t) (b : Booking.t) :
  BookingDb.lookup i l = Some b -> Booking._id b = i /\ b ∈ l.
Proof.
  unfold BookingDb.lookup. intros H. apply find_some in H as [Hin H].
  split; [by apply N.eqb_eq | by apply list_elem_of_In].
Qed.

Lemma remove_sublist (i : ObjectId.t) (l : list Booking.t) :
  sublist (BookingDb.remove i l) l.
Proof.
  induction l as [|b l IH]; simpl; [constructor|].
  destruct (N.eqb (Booking._id b) i); [by apply sublist_cons | by apply sublist_skip].
Qed.

Lemma booking_delete_run (req : Request) (w : World) (i : ObjectId.t) (b : Booking.t) :
  ObjectId.cast (param req) = Some i ->
  BookingDb.lookup i (bookings w) = Some b ->
  BookingRoutes.delete req w
  = (Returned booking_deleted,
     query (DeleteOne Bookings i)
       (set_bookings (BookingDb.remove i (bookings w)) (query (FindById Bookings i) w))).
Proof.
  intros Hc Hl. destruct (booking_lookup_id _ _ _ Hl) as [Hid _].
  unfold BookingRoutes.delete, try_catch.
  erewrite bind_returned by (apply booking_findById_run; exact Hc). rewrite Hl.
  erewrite bind_returned by reflexivity. simpl. by rewrite Hid.
Qed.

(** X13. DELETE /api/booking/:id, in both revisions, for the id of a
    stored booking answers 200 and removes that one booking: bookings
    under other ids are as before, no booking is added, and, identifiers
    being distinct, GET with the same id then answers 404.  A ticket
    number that only the deleted booking carried is no longer valid. *)
Theorem delete_booking_effect (env : Env) (req vreq : Request) (w : World)
    (i : ObjectId.t) (b : Booking.t) :
  ObjectId.cast (param req) = Some i ->
  BookingDb.lookup i (bookings w) = Some b ->
  distinct_booking_ids w ->
  BookingRoutes2.delete req w = BookingRoutes.delete req w /\
  exists w',
    BookingRoutes.delete req w = (Returned booking_deleted, w') /\
    bookings w' = BookingDb.remove i (bookings w) /\
    sublist (bookings w') (bookings w) /\
    (forall j, j <> i ->
       BookingDb.lookup j (bookings w') = BookingDb.lookup j (bookings w)) /\
    (BookingRoutes.get req w').1 = Returned booking_not_found /\
    (castNumber env (param vreq) = Some (Booking.ticketNumber b) ->
     (forall b', b' ∈ bookings w -> Booking.ticketNumber b' = Booking.ticketNumber b ->
                 Booking._id b' = i) ->
     (BookingRoutes.verify env vreq w').1 = Returned invalid_ticket).
Proof.
  intros Hc Hl Hd. split; [reflexivity|]. eexists.
  split; [by apply (booking_delete_run req w i b)|]. cbn [bookings query set_dbLog set_bookings].
  split; [done|]. split; [apply remove_sublist|].
  split; [intros j Hj; by apply booking_lookup_remove_ne|].
  set (w' := query _ _).
  assert (Hgone : BookingDb.lookup i (bookings w') = None)
    by (by apply booking_lookup_remove_eq).
  split.
  - destruct (booking_get_run req w' i Hc) as (w1 & Hrun & _). by rewrite Hrun, Hgone.
  - intros Hn Honly.
    unfold BookingRoutes.verify, try_catch, BookingDb.findOne. rewrite Hn.
    erewrite bind_returned by reflexivity.
    rewrite find_none_ticket; [by erewrite bind_returned by reflexivity|].
    apply Forall_forall. intros b' Hb' Heq.
    assert (Hin : b' ∈ bookings w) by (eapply elem_of_sublist; [exact Hb' | apply remove_sublist]).
    specialize (Honly b' Hin Heq).
    unfold BookingDb.lookup in Hgone.
    pose proof (find_none _ _ Hgone b' (proj1 (list_elem_of_In _ _) Hb')) as Hf.
    simpl in Hf. apply N.eqb_neq in Hf. done.
Qed.

(** ** Booking routes: create, verify and status together *)

(** What POST /booking/create does once both guards are passed. *)
Lemma create_run (env : Env) (req : Request) (w : World) (receipt : File) :
  file req = Some receipt ->
  Js.truthy (Js.prop (body req) "eventId") = true ->
  let u := {| folder := "receipts"; data := buffer receipt;
              secure_url := cloud_url env "receipts" (buffer receipt) (length (media w)) |} in
  let b := Booking.mk (nextId w)
             (Js.prop (body req) "firstName") (Js.prop (body req) "lastName")
             (Js.prop (body req) "contactNumber") (Js.prop (body req) "emailAddress")
             (Js.prop (body req) "cityName") (Js.prop (body req) "ticketType")
             (Js.prop (body req) "eventId")
             (Math_floor (Double.add 100000 (Double.mul (random w (draws w)) 900000)))
             (secure_url u) Booking.default_status in
  BookingRoutes.create env req w
  = (Returned (booking_created b),
     query (Save Bookings (nextId w))
       (set_bookings (bookings w ++ [b])
          (set_nextId (N.succ (nextId w))
             (set_draws (S (draws w)) (set_media (media w ++ [u]) w))))).
Proof.
  intros Hf He u b. unfold BookingRoutes.create, try_catch. rewrite Hf, He. cbn [negb].
  erewrite bind_returned by reflexivity.
  erewrite bind_returned by reflexivity. cbv zeta.
  erewrite bind_returned by reflexivity.
  erewrite bind_returned by reflexivity. reflexivity.
Qed.

Lemma verify_run (env : Env) (req : Request) (w : World) (n : Z) (b : Booking.t) :
  castNumber env (param req) = Some n ->
  find (fun b => Z.eqb (Booking.ticketNumber b) n) (bookings w) = Some b ->
  (BookingRoutes.verify env req w).1 = Returned (valid_ticket (populated_in w b)).
Proof.
  intros Hn Hfind.
  destruct (populate_found b (query (FindOne Bookings n) w)) as (w' & Hpop & _).
  unfold BookingRoutes.verify, try_catch, BookingDb.findOne. rewrite Hn.
  erewrite bind_returned by reflexivity. rewrite Hfind.
  by erewrite bind_returned by exact Hpop.
Qed.

(** X14. POST /api/booking/create with the receipt and [eventId] present,
    in both revisions, uploads the receipt once, to folder "receipts", and
    stores one booking after those already there: it carries the URL of
    that upload as [receiptImage], the seven body fields as they were
    sent, absent ones undefined, and the next identifier.  One random
    number is drawn. *)
Theorem create_stores_booking (env : Env) (req : Request) (w : World) (receipt : File) :
  file req = Some receipt ->
  Js.truthy (Js.prop (body req) "eventId") = true ->
  exists b u w',
    BookingRoutes.create env req w = (Returned (booking_created b), w') /\
    BookingRoutes2.create env req w = (Returned (booking_created b), w') /\
    bookings w' = (bookings w ++ [b])%list /\
    media w' = (media w ++ [u])%list /\
    stored "receipts" receipt u /\ Booking.receiptImage b = secure_url u /\
    Booking._id b = nextId w /\ nextId w' = N.succ (nextId w) /\
    draws w' = S (draws w) /\
    Booking.firstName b = Js.prop (body req) "firstName" /\
    Booking.lastName b = Js.prop (body req) "lastName" /\
    Booking.contactNumber b = Js.prop (body req) "contactNumber" /\
    Booking.emailAddress b = Js.prop (body req) "emailAddress" /\
    Booking.cityName b = Js.prop (body req) "cityName" /\
    Booking.ticketType b = Js.prop (body req) "ticketType" /\
    Booking.eventId b = Js.prop (body req) "eventId".
Proof.
  intros Hf He. change (BookingRoutes2.create env) with (BookingRoutes.create env).
  eexists _, _, _. split; [by apply (create_run env req w receipt)|].
  split; [by apply (create_run env req w receipt)|]. by repeat split.
Qed.

(** X15. A booking that was just created is found through its ticket
    number: when no earlier booking carries the number, GET
    /api/booking/verify/ with the number answers [valid: true] with the
    new booking, its event populated. *)
Theorem create_then_verify (env : Env) (req vreq : Request) (w : World) (receipt : File) :
  file req = Some receipt ->
  Js.truthy (Js.prop (body req) "eventId") = true ->
  let n := Math_floor (Double.add 100000 (Double.mul (random w (draws w)) 900000)) in
  castNumber env (param vreq) = Some n ->
  Forall (fun b0 => Booking.ticketNumber b0 <> n) (bookings w) ->
  exists b w',
    BookingRoutes.create env req w = (Returned (booking_created b), w') /\
    Booking.ticketNumber b = n /\
    (BookingRoutes.verify env vreq w').1 = Returned (valid_ticket (populated_in w' b)) /\
    (BookingRoutes2.verify env vreq w').1 = Returned (valid_ticket (populated_in w' b)).
Proof.
  intros Hf He n Hn Hnew.
  change (BookingRoutes2.verify env) with (BookingRoutes.verify env).
  eexists _, _. split; [by apply (create_run env req w receipt)|].
  split; [reflexivity|].
  assert (Hgoal : forall A B : Prop, A -> (A -> B) -> A /\ B) by tauto.
  apply Hgoal; [|done].
  apply (verify_run env vreq _ n); [done|]. cbn [bookings query set_dbLog set_bookings].
  rewrite <- (app_nil_r [_]). apply find_first_ticket; [done | reflexivity].
Qed.

(** X16. Ticket numbers are not checked against the bookings already
    stored.  When the number drawn for a new booking is that of a stored
    one, the booking is created all the same, with the same number, and
    GET /api/booking/verify/ with the number keeps answering with the
    older booking: the new one cannot be reached by its ticket number. *)
Theorem create_may_collide (env : Env) (req vreq : Request) (w : World) (receipt : File)
    (pre post : list Booking.t) (b0 : Booking.t) :
  file req = Some receipt ->
  Js.truthy (Js.prop (body req) "eventId") = true ->
  let n := Math_floor (Double.add 100000 (Double.mul (random w (draws w)) 900000)) in
  castNumber env (param vreq) = Some n ->
  bookings w = (pre ++ b0 :: post)%list ->
  Forall (fun b' => Booking.ticketNumber b' <> n) pre ->
  Booking.ticketNumber b0 = n ->
  exists b w',
    BookingRoutes.create env req w = (Returned (booking_created b), w') /\
    bookings w' = (pre ++ b0 :: post ++ [b])%list /\
    Booking.ticketNumber b = Booking.ticketNumber b0 /\
    Booking._id b = nextId w /\
    (BookingRoutes.verify env vreq w').1 = Returned (valid_ticket (populated_in w' b0)) /\
    (BookingRoutes2.verify env vreq w').1 = Returned (valid_ticket (populated_in w' b0)).
Proof.
  intros Hf He n Hn Hsplit Hpre Hb0.
  change (BookingRoutes2.verify env) with (BookingRoutes.verify env).
  eexists _, _. split; [by apply (create_run env req w receipt)|].
  cbn [bookings query set_dbLog set_bookings].
  split; [by rewrite Hsplit, <- app_assoc|]. split; [by rewrite Hb0|]. split; [done|].
  assert (Hgoal : forall A : Prop, A -> A /\ A) by tauto. apply Hgoal.
  apply (verify_run env vreq _ n); [done|]. cbn [bookings query set_dbLog set_bookings].
  rewrite Hsplit, <- app_assoc. simpl. by apply find_first_ticket.
Qed.

Lemma set_status_absent (i : ObjectId.t) (s : value) (l : list Booking.t) :
  BookingDb.lookup i l = None -> BookingDb.set_status i s l = l.
Proof.
  unfold BookingDb.lookup. induction l as [|b l IH]; simpl; [done|].
  destruct (N.eqb (Booking._id b) i); [done|]. intros H. by rewrite IH.
Qed.

Lemma update_status_run (req : Request) (w : World) (i : ObjectId.t) :
  is_status (Js.prop (body req) "status") ->
  ObjectId.cast (param req) = Some i ->
  BookingRoutes.update_status req w
  = (Returned match BookingDb.lookup i (bookings w) with
              | Some b => status_updated (Booking.set_status (Js.prop (body req) "status") b)
              | None => booking_not_found
              end,
     query (FindByIdAndUpdate Bookings i)
       (set_bookings (BookingDb.set_status i (Js.prop (body req) "status") (bookings w)) w)).
Proof.
  intros Hs Hc. apply includes_validStatuses in Hs.
  unfold BookingRoutes.update_status, try_catch. rewrite Hs. cbn [negb].
  unfold mbind, M_bind, BookingDb.findByIdAndUpdate. rewrite Hc.
  by destruct (BookingDb.lookup i (bookings w)).
Qed.

(** X17. PUT /api/booking/update-status/:id with a status of the
    enumeration, in both revisions: for a well-formed id that no booking
    carries the answer is 404 and every booking is as before; for an id
    that is not the text of an ObjectId the update itself fails, the
    answer is 500 and the world is untouched. *)
Theorem update_status_unknown_id (req : Request) (w : World) :
  is_status (Js.prop (body req) "status") ->
  BookingRoutes2.update_status req w = BookingRoutes.update_status req w /\
  (forall i,
     ObjectId.cast (param req) = Some i ->
     BookingDb.lookup i (bookings w) = None ->
     exists w',
       BookingRoutes.update_status req w = (Returned booking_not_found, w') /\
       bookings w' = bookings w) /\
  (ObjectId.matches (param req) = false ->
   BookingRoutes.update_status req w
   = (Returned (failure "Failed to update status" (CastError "_id" (param req))), w)).
Proof.
  intros Hs. split; [reflexivity|]. split.
  - intros i Hc Hl. rewrite (update_status_run req w i Hs Hc), Hl.
    eexists. split; [reflexivity|]. simpl. by apply set_status_absent.
  - intros Hm. apply includes_validStatuses in Hs.
    unfold BookingRoutes.update_status, try_catch. rewrite Hs. cbn [negb].
    erewrite bind_thrown; [reflexivity|].
    unfold BookingDb.findByIdAndUpdate. by rewrite (cast_malformed _ Hm).
Qed.

Lemma set_status_set_status (i : ObjectId.t) (s1 s2 : value) (l : list Booking.t) :
  BookingDb.set_status i s2 (BookingDb.set_status i s1 l) = BookingDb.set_status i s2 l.
Proof.
  induction l as [|b l IH]; simpl; [done|].
  destruct (N.eqb (Booking._id b) i) eqn:E; simpl; rewrite E; [done | by rewrite IH].
Qed.

(** X18. The status is the only thing a status update changes, and the
    last update wins: after two updates of one booking the Booking
    collection is what the second update alone would have made it, the
    booking carries the second status and all its other fields are as at
    the start.  GET /api/booking/:id then shows the booking with that
    status. *)
Theorem update_status_last_wins (req1 req2 : Request) (w : World)
    (i : ObjectId.t) (b : Booking.t) :
  is_status (Js.prop (body req1) "status") ->
  is_status (Js.prop (body req2) "status") ->
  ObjectId.cast (param req1) = Some i ->
  ObjectId.cast (param req2) = Some i ->
  BookingDb.lookup i (bookings w) = Some b ->
  let s2 := Js.prop (body req2) "status" in
  let w2 := (BookingRoutes.update_status req2 (BookingRoutes.update_status req1 w).2).2 in
  bookings w2 = bookings (BookingRoutes.update_status req2 w).2 /\
  BookingDb.lookup i (bookings w2) = Some (Booking.set_status s2 b) /\
  (BookingRoutes.get req2 w2).1
  = Returned (booking_answer (populated_in w2 (Booking.set_status s2 b))).
Proof.
  intros Hs1 Hs2 Hc1 Hc2 Hl s2 w2. subst w2.
  rewrite (update_status_run req1 w i Hs1 Hc1). cbn [snd].
  rewrite !(update_status_run req2 _ i Hs2 Hc2). cbn [snd].
  cbn [bookings query set_dbLog set_bookings].
  rewrite set_status_set_status.
  assert (Hl2 : BookingDb.lookup i (BookingDb.set_status i s2 (bookings w))
                = Some (Booking.set_status s2 b)).
  { by rewrite lookup_set_status_eq, Hl. }
  split; [done|]. split; [exact Hl2|].
  match goal with |- (BookingRoutes.get req2 ?w0).1 = _ =>
    destruct (booking_get_run req2 w0 i Hc2) as (w3 & Hrun & _); rewrite Hrun;
    change (bookings w0) with (BookingDb.set_status i s2 (bookings w)) end.
  by rewrite Hl2.
Qed.

(** ** Booking routes: when a mail is sent *)

Lemma prefix_split (p s : string) :
  String.prefix p s = true -> exists r, s = p ++ r.
Proof.
  revert s. induction p as [|c p IH]; intros s H.
  - by exists s.
  - destruct s as [|d s]; [done|]. simpl in H.
    destruct (ascii_dec c d) as [->|]; [|done].
    destruct (IH s H) as [r ->]. by exists r.
Qed.

(** Where the pattern does not occur, [replace] returns the string. *)
Lemma replace_absent (pat rep s : string) :
  ~ occurs pat s -> Js.replace pat rep s = s.
Proof.
  induction s as [|c s IH]; intros Hn.
  - cbn [Js.replace]. destruct (String.prefix pat "") eqn:E; [|done].
    destruct (prefix_split _ _ E) as [r Hr]. destruct Hn. by exists "", r.
  - cbn [Js.replace]. destruct (String.prefix pat (String c s)) eqn:E.
    + destruct (prefix_split _ _ E) as [r Hr]. destruct Hn. by exists "", r.
    + f_equal. apply IH. intros (a & b & ->). apply Hn. by exists (String c a), b.
Qed.

(** X19. POST /api/booking/send-email/:id always answers, and a mail
    leaves exactly when the answer is 200: then one mail was handed to the
    transport, from the configured sender and to the [emailAddress] of a
    stored booking; with any other answer (400, 404, 500) the outbox is as
    before.  Both revisions. *)
Theorem mail_sent_iff_ok (env : Env) :
  mail_iff_ok env (BookingRoutes.send_email env) /\
  mail_iff_ok env (BookingRoutes2.send_email env).
Proof.
  split; intros req w.
  - unfold BookingRoutes.send_email, try_catch.
    destruct (Js.truthy (Js.prop (body req) "htmlContent")) eqn:Hh; cbn [negb].
    2:{ eexists _, _. split; [reflexivity|]. right. by split. }
    destruct (ObjectId.cast (param req)) as [i|] eqn:Hc.
    2:{ erewrite bind_thrown
          by (unfold BookingDb.findById; rewrite Hc; reflexivity).
        eexists _, _. split; [reflexivity|]. right. by split. }
    erewrite bind_returned by (apply booking_findById_run; exact Hc).
    destruct (BookingDb.lookup i (bookings w)) as [b|] eqn:Hl.
    2:{ eexists _, _. split; [reflexivity|]. right. by split. }
    cbv beta iota zeta.
    destruct (Js.prop (body req) "htmlContent") as [| |?|?|html|] eqn:Hv;
      try (erewrite bind_thrown by reflexivity;
           eexists _, _; split; [reflexivity|]; right; by split).
    erewrite bind_returned by reflexivity.
    erewrite bind_returned by reflexivity.
    eexists _, _. split; [reflexivity|]. left. split; [done|].
    eexists _, b. split; [reflexivity|]. split; [done|].
    split; [by apply (booking_lookup_id i)|done].
  - unfold BookingRoutes2.send_email, try_catch.
    destruct (ObjectId.cast (param req)) as [i|] eqn:Hc.
    2:{ erewrite bind_thrown
          by (unfold BookingDb.findById; rewrite Hc; reflexivity).
        eexists _, _. split; [reflexivity|]. right. by split. }
    erewrite bind_returned by (apply booking_findById_run; exact Hc).
    destruct (BookingDb.lookup i (bookings w)) as [b|] eqn:Hl.
    2:{ erewrite bind_returned by reflexivity.
        eexists _, _. split; [reflexivity|]. right. by split. }
    destruct (populate_found b (query (FindById Bookings i) w))
      as (w1 & Hpop & _ & _ & Hout & _).
    erewrite bind_returned by exact Hpop. cbv beta iota zeta.
    erewrite bind_returned by reflexivity.
    eexists _, _. split; [reflexivity|]. left. split; [done|].
    eexists _, b. split; [simpl; by rewrite Hout|]. split; [done|].
    split; [by apply (booking_lookup_id i)|done].
Qed.

(** X20. In the first revision the HTML of the mail is the caller's.  A
    truthy [htmlContent] that is not a string (a number, [true], an array)
    has no [replace] method: for a stored booking the answer is 500 and no
    mail is sent.  A string in which the placeholder does not occur is
    sent as it is, so that the mail carries no QR code, while the answer
    still returns the QR data URL. *)
Theorem caller_html_is_sent_as_is (env : Env) (req : Request) (w : World)
    (i : ObjectId.t) (b : Booking.t) :
  ObjectId.cast (param req) = Some i ->
  BookingDb.lookup i (bookings w) = Some b ->
  Js.truthy (Js.prop (body req) "htmlContent") = true ->
  ((forall h, Js.prop (body req) "htmlContent" <> VStr h) ->
   exists what w',
     BookingRoutes.send_email env req w
     = (Returned (failure "Email sending failed" (TypeError what)), w') /\
     outbox w' = outbox w) /\
  (forall h,
     Js.prop (body req) "htmlContent" = VStr h ->
     ~ occurs "{{QR_CODE}}" h ->
     exists w' m,
       BookingRoutes.send_email env req w
       = (Returned (email_sent (Some (toDataURL env
                      (verification_url "https://your-domain.com" b)))), w') /\
       outbox w' = (outbox w ++ [m])%list /\
       html m = CallerHtml h).
Proof.
  intros Hc Hl Ht. split.
  - intros Hns. unfold BookingRoutes.send_email, try_catch. rewrite Ht. cbn [negb].
    erewrite bind_returned by (apply booking_findById_run; exact Hc). rewrite Hl.
    cbv beta iota zeta.
    destruct (Js.prop (body req) "htmlContent") as [| |?|?|h|] eqn:Hv;
      try (erewrite bind_thrown by reflexivity;
           eexists _, _; split; [reflexivity | done]).
    by destruct (Hns h).
  - intros h Hh Hno. unfold BookingRoutes.send_email, try_catch. rewrite Ht. cbn [negb].
    erewrite bind_returned by (apply booking_findById_run; exact Hc). rewrite Hl.
    cbv beta iota zeta. rewrite Hh.
    erewrite bind_returned by reflexivity.
    erewrite bind_returned by reflexivity.
    eexists _, _. split; [reflexivity|]. split; [reflexivity|]. simpl.
    by rewrite replace_absent.
Qed.

Lemma substring_all (s : string) : String.substring 0 (String.length s) s = s.
Proof. induction s as [|c s IH]; [done|]. simpl. by rewrite IH. Qed.

Lemma substring_after (p b : string) :
  String.substring (String.length p) (String.length (p ++ b) - String.length p) (p ++ b) = b.
Proof.
  induction p as [|c p IH].
  - change ("" ++ b) with b. simpl. rewrite Nat.sub_0_r. apply substring_all.
  - change (String c p ++ b) with (String c (p ++ b)). simpl. exact IH.
Qed.

Lemma prefix_app (p b : string) : String.prefix p (p ++ b) = true.
Proof.
  induction p as [|c p IH]; [by destruct b|].
  change (String c p ++ b) with (String c (p ++ b)). simpl.
  destruct (ascii_dec c c); [exact IH | done].
Qed.

(** Only the first occurrence is replaced: what follows it is kept, further
    occurrences included. *)
Lemma replace_first (c : ascii) (p rep a b : string) :
  ~ occurs (String c EmptyString) a ->
  Js.replace (String c p) rep (a ++ String c p ++ b) = a ++ rep ++ b.
Proof.
  intros Hn. induction a as [|d a IH].
  - change ("" ++ String c p ++ b) with (String c p ++ b).
    change ("" ++ rep ++ b) with (rep ++ b).
    destruct (String c p ++ b) as [|x s] eqn:E; [done|].
    cbn [Js.replace]. rewrite <- E, prefix_app. f_equal. apply substring_after.
  - change (String d a ++ String c p ++ b) with (String d (a ++ String c p ++ b)).
    change (String d a ++ rep ++ b) with (String d (a ++ rep ++ b)).
    cbn [Js.replace]. cbn [String.prefix].
    destruct (ascii_dec c d) as [->|Hne].
    + destruct Hn. by exists "", a.
    + f_equal. apply IH. intros (x & y & ->). apply Hn. by exists (String d x), y.
Qed.

(** X21. Only the first placeholder of the caller's HTML receives the QR
    code.  When [htmlContent] is [a] followed by the placeholder and [b],
    and no opening brace occurs in [a], the mail the first revision sends
    for a stored booking has the HTML [a], the QR data URL of the
    booking's verification URL, and [b] unchanged, whatever placeholders
    [b] still holds. *)
Theorem first_placeholder_only (env : Env) (req : Request) (w : World)
    (i : ObjectId.t) (b : Booking.t) (before after : string) :
  ObjectId.cast (param req) = Some i ->
  BookingDb.lookup i (bookings w) = Some b ->
  Js.prop (body req) "htmlContent" = VStr (before ++ "{{QR_CODE}}" ++ after) ->
  ~ occurs "{" before ->
  let qr := toDataURL env (verification_url "https://your-domain.com" b) in
  exists w' m,
    BookingRoutes.send_email env req w = (Returned (email_sent (Some qr)), w') /\
    outbox w' = (outbox w ++ [m])%list /\
    html m = CallerHtml (before ++ qr ++ after).
Proof.
  intros Hc Hl Hh Hno qr.
  assert (Ht : Js.truthy (VStr (before ++ "{{QR_CODE}}" ++ after)) = true).
  { apply truthy_string. by destruct before. }
  unfold BookingRoutes.send_email, try_catch. rewrite Hh, Ht. cbn [negb].
  erewrite bind_returned by (apply booking_findById_run; exact Hc). rewrite Hl.
  cbv beta iota zeta.
  erewrite bind_returned by reflexivity.
  erewrite bind_returned by reflexivity.
  eexists _, _. split; [reflexivity|]. split; [reflexivity|]. simpl.
  f_equal. by apply (replace_first "{" "{QR_CODE}}").
Qed.

(** ** Identifiers stay distinct *)

Section Ids.

Context {D : Type} (id : D -> ObjectId.t).

Lemma ids_same_world (l : list D) (n n' : N) :
  (n <= n')%N ->
  Forall (fun d => (id d < n)%N) l -> Forall (fun d => (id d < n')%N) l.
Proof.
  intros Hn Hf. eapply Forall_impl; [exact Hf|]. intros d Hd. simpl in *. lia.
Qed.

Lemma ids_sub (l l' : list D) (n : N) :
  sublist l' l ->
  Forall (fun d => (id d < n)%N) l /\ NoDup (id <$> l) ->
  Forall (fun d => (id d < n)%N) l' /\ NoDup (id <$> l').
Proof.
  intros Hs [Hf Hd]. split.
  - rewrite Forall_forall in *. intros x Hx. apply Hf.
    by eapply elem_of_sublist.
  - eapply sublist_NoDup; [exact Hd | by apply fmap_sublist].

Qed.

Lemma ids_append (l : list D) (d : D) (n : N) :
  id d = n ->
  Forall (fun d => (id d < n)%N) l /\ NoDup (id <$> l) ->
  Forall (fun d => (id d < N.succ n)%N) (l ++ [d])%list /\ NoDup (id <$> (l ++ [d])%list).
Proof.
  intros Hid [Hf Hd]. split.
  - apply Forall_app. split; [eapply ids_same_world; [|exact Hf]; lia|].
    constructor; [lia | constructor].
  - rewrite fmap_app. apply NoDup_app. split; [done|]. split; [|apply NoDup_singleton].
    intros x Hx Hx'. apply list_elem_of_singleton in Hx'. subst x.
    apply list_elem_of_fmap in Hx as (d' & Heq & Hin).
    rewrite Forall_forall in Hf. specialize (Hf d' Hin). lia.
Qed.

Lemma ids_pointwise (l l' : list D) (n : N) :
  id <$> l' = id <$> l ->
  Forall (fun d => (id d < n)%N) l /\ NoDup (id <$> l) ->
  Forall (fun d => (id d < n)%N) l' /\ NoDup (id <$> l').
Proof.
  intros Heq [Hf Hd]. rewrite Heq. split; [|done].
  apply (proj1 (Forall_fmap id (fun i => (i < n)%N) l')). rewrite Heq.
  by apply (proj2 (Forall_fmap id (fun i => (i < n)%N) l)).
Qed.

End Ids.

Lemma event_remove_sublist (i : ObjectId.t) (l : list Event.t) :
  sublist (EventDb.remove i l) l.
Proof.
  induction l as [|b l IH]; simpl; [constructor|].
  destruct (N.eqb (Event._id b) i); [by apply sublist_cons | by apply sublist_skip].
Qed.

Lemma ids_put (d : Event.t) (l : list Event.t) :
  Event._id <$> EventDb.put d l = Event._id <$> l.
Proof.
  induction l as [|x l IH]; [done|]. cbn [EventDb.put].
  destruct (N.eqb_spec (Event._id x) (Event._id d)) as [He|He]; rewrite !fmap_cons.
  - by rewrite He.
  - by rewrite IH.
Qed.

Lemma ids_set_status (i : ObjectId.t) (s : value) (l : list Booking.t) :
  Booking._id <$> BookingDb.set_status i s l = Booking._id <$> l.
Proof.
  induction l as [|x l IH]; [done|]. cbn [BookingDb.set_status].
  destruct (N.eqb (Booking._id x) i); rewrite !fmap_cons; [|by rewrite IH].
  by destruct x.
Qed.

(** A handler that hands out no identifier and leaves both collections
    alone keeps them consistent. *)
Lemma consistent_kept (h : M Response) (w : World) :
  keeps events h -> keeps bookings h -> keeps nextId h ->
  consistent w -> consistent (h w).2.
Proof.
  intros He Hb Hn. unfold consistent. by rewrite (He w), (Hb w), (Hn w).
Qed.

Lemma add_keeps_consistent (env : Env) : keeps_consistent (EventRoutes.add env).
Proof.
  intros req w (He & Hde & Hb & Hdb).
  assert (Hbk : keeps bookings (EventRoutes.add env req)).
  { unfold EventRoutes.add, EventRoutes.files_prop, EventRoutes.first_buffer. keeps_tac. }
  destruct (files req) as [fs|] eqn:Hfs.
  2:{ by rewrite (add_files_undefined env req w Hfs). }
  assert (Hcases : attached req "imageUrl" = Some [] \/ attached req "imageUrl" <> Some []).
  { destruct (attached req "imageUrl") as [[|f0 l]|]; [by left | by right | by right]. }
  destruct Hcases as [Hbad|Hok].
  - assert (Hrun : EventRoutes.add env req w = (Returned create_failed, w)).
    { unfold attached in Hbad. rewrite Hfs in Hbad.
      unfold EventRoutes.add, try_catch, EventRoutes.files_prop. rewrite Hfs.
      erewrite bind_returned by reflexivity. rewrite Hbad.
      by erewrite bind_thrown by (apply bind_thrown; reflexivity). }
    by rewrite Hrun.
  - destruct (add_files_run env req w) as (e & new & w' & Hrun & Hev & Hid & Hn & _);
      [by rewrite Hfs | done |].
    specialize (Hbk w). rewrite Hrun in Hbk |- *. cbn [snd] in *.
    unfold consistent. rewrite Hev, Hn, Hbk.
    destruct (ids_append Event._id (events w) e (nextId w) Hid (conj He Hde)) as [H1 H2].
    split; [done|]. split; [done|]. split; [|done].
    eapply ids_same_world; [|exact Hb]. lia.
Qed.

Lemma put_keeps_consistent (env : Env) : keeps_consistent (EventRoutes.put env).
Proof.
  intros req w (He & Hde & Hb & Hdb).
  assert (Hbk : keeps bookings (EventRoutes.put env req) /\ keeps nextId (EventRoutes.put env req)).
  { unfold EventRoutes.put, EventDb.findById, EventRoutes.files_prop, EventRoutes.first_buffer.
    split; keeps_tac. }
  destruct Hbk as [Hbk Hn]. unfold consistent. rewrite (Hbk w), (Hn w).
  split; [|split]; [| |done].
  - destruct (put_events env req w) as [->|(i & e & e' & _ & -> & _)]; [done|].
    by apply (ids_pointwise Event._id (events w)); [apply ids_put|].
  - destruct (put_events env req w) as [->|(i & e & e' & _ & -> & _)]; [done|].
    by rewrite ids_put.
Qed.

Lemma delete_keeps_consistent : keeps_consistent EventRoutes.delete.
Proof.
  intros req w (He & Hde & Hb & Hdb).
  assert (Hbk : keeps bookings (EventRoutes.delete req) /\ keeps nextId (EventRoutes.delete req)).
  { unfold EventRoutes.delete, EventDb.findById. split; keeps_tac. }
  destruct Hbk as [Hbk Hn]. unfold consistent. rewrite (Hbk w), (Hn w).
  assert (Hsub : sublist (events (EventRoutes.delete req w).2) (events w)).
  { destruct (ObjectId.matches (param req)) eqn:Hm.
    - destruct (matches_cast _ Hm) as [i Hc].
      destruct (EventDb.lookup i (events w)) as [e|] eqn:Hl.
      + rewrite (delete_run req w i e Hc Hl). apply event_remove_sublist.
      + by rewrite (delete_absent req w i Hc Hl).
    - unfold EventRoutes.delete, try_catch. by rewrite Hm. }
  destruct (ids_sub Event._id _ _ (nextId w) Hsub (conj He Hde)) as [H1 H2].
  by repeat split.
Qed.

Lemma create_keeps_consistent (env : Env) : keeps_consistent (BookingRoutes.create env).
Proof.
  intros req w (He & Hde & Hb & Hdb).
  destruct (file req) as [receipt|] eqn:Hf.
  2:{ unfold BookingRoutes.create, try_catch. by rewrite Hf. }
  destruct (Js.truthy (Js.prop (body req) "eventId")) eqn:Ht.
  2:{ by rewrite (create_falsy_event env req w receipt Hf Ht). }
  pose proof (create_run env req w receipt Hf Ht) as Hrun. cbv zeta in Hrun.
  rewrite Hrun. clear Hrun.
  match goal with |- context [(bookings w ++ [?d])%list] => set (b := d) end.
  destruct (ids_append Booking._id (bookings w) b (nextId w) eq_refl (conj Hb Hdb))
    as [H1 H2].
  unfold consistent.
  cbn [snd events bookings nextId query set_dbLog set_bookings set_nextId set_draws set_media].
  split; [eapply ids_same_world; [|exact He]; lia|]. split; [done|]. by split.
Qed.

Lemma update_status_keeps_consistent : keeps_consistent BookingRoutes.update_status.
Proof.
  intros req w (He & Hde & Hb & Hdb).
  assert (Hk : keeps events (BookingRoutes.update_status req) /\
               keeps nextId (BookingRoutes.update_status req)).
  { unfold BookingRoutes.update_status, BookingDb.findByIdAndUpdate. split; keeps_tac. }
  destruct Hk as [Hev Hn]. unfold consistent. rewrite (Hev w), (Hn w).
  split; [done|]. split; [done|].
  assert (Hids : Booking._id <$> bookings (BookingRoutes.update_status req w).2
                 = Booking._id <$> bookings w).
  { unfold BookingRoutes.update_status, try_catch.
    destruct (Js.includes validStatuses (Js.prop (body req) "status")); [|done].
    cbn [negb]. unfold mbind, M_bind, BookingDb.findByIdAndUpdate.
    destruct (ObjectId.cast (param req)) as [i|]; [|done].
    destruct (BookingDb.lookup i (bookings w)); simpl; apply ids_set_status. }
  by apply (ids_pointwise Booking._id (bookings w)).
Qed.

Lemma booking_delete_keeps_consistent : keeps_consistent BookingRoutes.delete.
Proof.
  intros req w (He & Hde & Hb & Hdb).
  assert (Hk : keeps events (BookingRoutes.delete req) /\
               keeps nextId (BookingRoutes.delete req)).
  { unfold BookingRoutes.delete, BookingDb.findById. split; keeps_tac. }
  destruct Hk as [Hev Hn]. unfold consistent. rewrite (Hev w), (Hn w).
  split; [done|]. split; [done|].
  assert (Hsub : sublist (bookings (BookingRoutes.delete req w).2) (bookings w)).
  { destruct (ObjectId.cast (param req)) as [i|] eqn:Hc.
    - destruct (BookingDb.lookup i (bookings w)) as [b|] eqn:Hl.
      + rewrite (booking_delete_run req w i b Hc Hl). apply remove_sublist.
      + unfold BookingRoutes.delete, try_catch.
        erewrite bind_returned by (apply booking_findById_run; exact Hc). by rewrite Hl.
    - unfold BookingRoutes.delete, try_catch.
      by erewrite bind_thrown by (unfold BookingDb.findById; rewrite Hc; reflexivity). }
  by apply (ids_sub Booking._id (bookings w)).
Qed.

(** X22. Every route keeps the identifiers consistent: if, before a
    request, the identifiers of the stored events and of the stored
    bookings are distinct and below the next identifier, they are so after
    it, whatever the request and whatever the answer.  Create appends one
    document under the next identifier, update and status update change
    no identifier and no order, delete removes documents only. *)
Theorem routes_keep_ids_consistent (env : Env) :
  keeps_consistent (EventRoutes.add env) /\
  keeps_consistent EventRoutes.get /\
  keeps_consistent (EventRoutes.put env) /\
  keeps_consistent EventRoutes.delete /\
  keeps_consistent (BookingRoutes.create env) /\
  keeps_consistent (BookingRoutes2.create env) /\
  keeps_consistent BookingRoutes.get /\
  keeps_consistent BookingRoutes2.get /\
  keeps_consistent BookingRoutes.delete /\
  keeps_consistent BookingRoutes2.delete /\
  keeps_consistent BookingRoutes.update_status /\
  keeps_consistent BookingRoutes2.update_status /\
  keeps_consistent (BookingRoutes.verify env) /\
  keeps_consistent (BookingRoutes2.verify env) /\
  keeps_consistent (BookingRoutes.send_email env) /\
  keeps_consistent (BookingRoutes2.send_email env).
Proof.
  change (BookingRoutes2.create env) with (BookingRoutes.create env).
  change BookingRoutes2.get with BookingRoutes.get.
  change BookingRoutes2.delete with BookingRoutes.delete.
  change BookingRoutes2.update_status with BookingRoutes.update_status.
  change (BookingRoutes2.verify env) with (BookingRoutes.verify env).
  repeat apply conj;
    try apply add_keeps_consistent; try apply put_keeps_consistent;
    try apply delete_keeps_consistent; try apply create_keeps_consistent;
    try apply update_status_keeps_consistent; try apply booking_delete_keeps_consistent;
    intros req w; apply consistent_kept;
    unfold EventRoutes.get, BookingRoutes.get, BookingRoutes.verify,
      BookingRoutes.send_email, BookingRoutes2.send_email,
      EventDb.findById, BookingDb.findById, BookingDb.findOne, BookingDb.populate,
      call_replace;
    keeps_tac.
Qed.

(** * The further properties on the concrete deployment *)

Lemma multipart_launch : multipart Scenario.launch.
Proof.
  split; [eexists; reflexivity|]. intros name H. unfold attached in H. cbn in H.
  apply lookup_insert_Some in H as [[_ H]|[_ H]]; [discriminate|].
  apply lookup_insert_Some in H as [[_ H]|[_ H]]; [discriminate|].
  by rewrite lookup_empty in H.
Qed.

Lemma multipart_retitle : multipart Demo.retitle.
Proof.
  split; [eexists; reflexivity|]. intros name H. unfold attached in H. cbn in H.
  apply lookup_insert_Some in H as [[_ H]|[_ H]]; [discriminate|].
  by rewrite lookup_empty in H.
Qed.

Lemma distinct_events_demo : distinct_event_ids Demo.world.
Proof. exact (NoDup_singleton 1%N). Qed.

Lemma distinct_bookings_scenario : distinct_booking_ids Scenario.world.
Proof. apply (bool_decide_unpack _). by vm_compute. Qed.

Lemma consistent_demo : consistent Demo.world.
Proof.
  split; [|split; [|split]].
  - repeat constructor.
  - exact (NoDup_singleton 1%N).
  - repeat constructor.
  - apply (bool_decide_unpack _). by vm_compute.
Qed.

Lemma delete_event_effect_witness :
  exists w',
    EventRoutes.delete (Demo.request Demo.concert_id []) Demo.world
    = (Returned event_deleted, w') /\
    events w' = EventDb.remove 1%N (events Demo.world) /\
    S (length (events w')) = length (events Demo.world) /\
    (forall j, j <> 1%N ->
       EventDb.lookup j (events w') = EventDb.lookup j (events Demo.world)) /\
    (distinct_event_ids Demo.world -> EventDb.lookup 1%N (events w') = None).
Proof.
  apply (delete_event_effect (Demo.request Demo.concert_id []) Demo.world 1%N Demo.concert).
  - reflexivity.
  - reflexivity.
Defined.

Lemma delete_then_unknown_witness :
  let w' := (EventRoutes.delete (Demo.request Demo.concert_id []) Demo.world).2 in
  (EventRoutes.get (Demo.request Demo.concert_id []) w').1 = Returned event_not_found /\
  (EventRoutes.put Demo.env (Demo.request Demo.concert_id []) w').1
  = Returned event_not_found /\
  (EventRoutes.delete (Demo.request Demo.concert_id []) w').1 = Returned event_not_found /\
  events (EventRoutes.put Demo.env (Demo.request Demo.concert_id []) w').2 = events w' /\
  events (EventRoutes.delete (Demo.request Demo.concert_id []) w').2 = events w'.
Proof.
  apply (delete_then_unknown Demo.env (Demo.request Demo.concert_id []) Demo.world
           1%N Demo.concert).
  - reflexivity.
  - reflexivity.
  - exact distinct_events_demo.
Defined.

Lemma put_delete_unknown_id_witness :
  EventRoutes.put Demo.env Demo.retitle
    (EventRoutes.delete (Demo.request Demo.concert_id []) Demo.world).2
  = (Returned event_not_found,
     query (FindById Events 1%N)
       (EventRoutes.delete (Demo.request Demo.concert_id []) Demo.world).2) /\
  EventRoutes.delete Demo.retitle
    (EventRoutes.delete (Demo.request Demo.concert_id []) Demo.world).2
  = (Returned event_not_found,
     query (FindById Events 1%N)
       (EventRoutes.delete (Demo.request Demo.concert_id []) Demo.world).2) /\
  events (query (FindById Events 1%N)
            (EventRoutes.delete (Demo.request Demo.concert_id []) Demo.world).2)
  = events (EventRoutes.delete (Demo.request Demo.concert_id []) Demo.world).2 /\
  media (query (FindById Events 1%N)
           (EventRoutes.delete (Demo.request Demo.concert_id []) Demo.world).2)
  = media (EventRoutes.delete (Demo.request Demo.concert_id []) Demo.world).2.
Proof.
  apply (put_delete_unknown_id Demo.env Demo.retitle
           (EventRoutes.delete (Demo.request Demo.concert_id []) Demo.world).2 1%N).
  - reflexivity.
  - reflexivity.
Defined.

Lemma json_body_cannot_write_events_witness :
  EventRoutes.add Demo.env Scenario.rename_json Demo.world
  = (Returned create_failed, Demo.world) /\
  forall i e,
    ObjectId.cast (param Scenario.rename_json) = Some i ->
    EventDb.lookup i (events Demo.world) = Some e ->
    EventRoutes.put Demo.env Scenario.rename_json Demo.world
    = (Returned update_failed, query (FindById Events i) Demo.world).
Proof.
  apply (json_body_cannot_write_events Demo.env Scenario.rename_json Demo.world).
  reflexivity.
Defined.

Lemma add_stores_files_witness :
  exists e new w',
    EventRoutes.add Demo.env Scenario.launch Demo.world
    = (Returned (event_answer 201 e), w') /\
    events w' = (events Demo.world ++ [e])%list /\
    Event._id e = nextId Demo.world /\ nextId w' = N.succ (nextId Demo.world) /\
    media w' = (media Demo.world ++ new)%list /\
    length new
    = ((match attached Scenario.launch "imageUrl" with Some _ => 1 | None => 0 end)
       + match attached Scenario.launch "sponsorLogos" with
         | Some l => length l | None => 0 end)%nat /\
    match attached Scenario.launch "imageUrl" with
    | Some (f0 :: _) =>
        exists u, u ∈ new /\ stored "events" f0 u /\ Event.imageUrl e = secure_url u
    | Some [] => False
    | None => Event.imageUrl e = ""
    end /\
    match attached Scenario.launch "sponsorLogos" with
    | Some l =>
        exists us, us ⊆ new /\ Forall2 (stored "events/sponsors") l us /\
          Event.sponsorLogos e = secure_url <$> us
    | None => Event.sponsorLogos e = []
    end.
Proof.
  apply (add_stores_files Demo.env Scenario.launch Demo.world).
  exact multipart_launch.
Defined.

Lemma put_sets_supplied_fields_witness :
  exists e' w',
    EventRoutes.put Demo.env Demo.retitle Demo.world
    = (Returned (event_answer 200 e'), w') /\
    EventDb.lookup 1%N (events w') = Some e' /\
    Event._id e' = 1%N /\
    length (events w') = length (events Demo.world) /\
    forall f v,
      body Demo.retitle !! Event.key f = Some v -> Js.truthy v = true ->
      Event.get f e' = v.
Proof.
  apply (put_sets_supplied_fields Demo.env Demo.retitle Demo.world 1%N Demo.concert).
  - exact multipart_retitle.
  - reflexivity.
  - reflexivity.
Defined.

Lemma put_twice_is_put_once_witness :
  let w1 := (EventRoutes.put Demo.env Scenario.rename Demo.world).2 in
  (EventRoutes.put Demo.env Scenario.rename w1).1
  = (EventRoutes.put Demo.env Scenario.rename Demo.world).1 /\
  events (EventRoutes.put Demo.env Scenario.rename w1).2 = events w1.
Proof.
  apply (put_twice_is_put_once Demo.env Scenario.rename Demo.world).
  - reflexivity.
  - reflexivity.
Defined.

Lemma get_booking_outcomes_witness :
  (BookingRoutes.get (Demo.request Demo.sara_id []) Demo.world).1
  = Returned (booking_answer (populated_in Demo.world Demo.sara)) /\
  (BookingRoutes.get (Demo.request Demo.unknown_id []) Demo.world).1
  = Returned booking_not_found /\
  BookingRoutes.get (Demo.request "verify" []) Demo.world
  = (Returned fetch_booking_failed, Demo.world).
Proof.
  split; [|split].
  - apply (proj1 (proj2 (get_booking_outcomes (Demo.request Demo.sara_id []) Demo.world))
             2%N Demo.sara).
    + reflexivity.
    + reflexivity.
  - apply (proj1 (proj2 (proj2
             (get_booking_outcomes (Demo.request Demo.unknown_id []) Demo.world))) 255%N).
    + reflexivity.
    + reflexivity.
  - apply (proj2 (proj2 (proj2
             (get_booking_outcomes (Demo.request "verify" []) Demo.world)))).
    reflexivity.
Defined.

Lemma event_delete_does_not_cascade_witness :
  let w' := (EventRoutes.delete (Demo.request Demo.concert_id []) Demo.world).2 in
  (BookingRoutes.get (Demo.request Demo.sara_id []) Demo.world).1
  = Returned (booking_answer (Booking.mkPopulated Demo.sara (Some Demo.concert))) /\
  bookings w' = bookings Demo.world /\
  (BookingRoutes.get (Demo.request Demo.sara_id []) w').1
  = Returned (booking_answer (Booking.mkPopulated Demo.sara None)) /\
  (BookingRoutes2.get (Demo.request Demo.sara_id []) w').1
  = Returned (booking_answer (Booking.mkPopulated Demo.sara None)).
Proof.
  apply (event_delete_does_not_cascade (Demo.request Demo.concert_id [])
           (Demo.request Demo.sara_id []) Demo.world 1%N 2%N Demo.concert Demo.sara).
  - reflexivity.
  - reflexivity.
  - exact distinct_events_demo.
  - reflexivity.
  - reflexivity.
  - reflexivity.
Defined.

Lemma delete_booking_effect_witness :
  exists w',
    BookingRoutes.delete (Demo.request Scenario.omar_id []) Scenario.world
    = (Returned booking_deleted, w') /\
    BookingRoutes2.delete (Demo.request Scenario.omar_id []) Scenario.world
    = (Returned booking_deleted, w') /\
    bookings w' = [Demo.sara] /\
    (BookingRoutes.get (Demo.request Scenario.omar_id []) w').1
    = Returned booking_not_found /\
    (BookingRoutes.verify Demo.env (Demo.request "550000" []) w').1
    = Returned invalid_ticket.
Proof.
  destruct (delete_booking_effect Demo.env (Demo.request Scenario.omar_id [])
              (Demo.request "550000" []) Scenario.world 5%N Scenario.omar)
    as (Hrev & w' & Hrun & Hb & _ & _ & Hget & Hver).
  - reflexivity.
  - reflexivity.
  - exact distinct_bookings_scenario.
  - exists w'. split; [exact Hrun|]. split; [by rewrite Hrev|].
    split; [by rewrite Hb|]. split; [exact Hget|].
    apply Hver; [reflexivity|].
    intros b' Hin Ht.
    apply elem_of_cons in Hin as [->|Hin]; [vm_compute in Ht; discriminate|].
    apply list_elem_of_singleton in Hin. by subst b'.
Defined.

Lemma create_stores_booking_witness :
  exists b u w',
    BookingRoutes.create Demo.env Scenario.book Demo.world
    = (Returned (booking_created b), w') /\
    BookingRoutes2.create Demo.env Scenario.book Demo.world
    = (Returned (booking_created b), w') /\
    bookings w' = (bookings Demo.world ++ [b])%list /\
    media w' = (media Demo.world ++ [u])%list /\
    stored "receipts" {| buffer := "receipt.png" |} u /\
    Booking.receiptImage b = secure_url u /\
    Booking._id b = nextId Demo.world /\ nextId w' = N.succ (nextId Demo.world) /\
    draws w' = S (draws Demo.world) /\
    Booking.firstName b = Js.prop (body Scenario.book) "firstName" /\
    Booking.lastName b = Js.prop (body Scenario.book) "lastName" /\
    Booking.contactNumber b = Js.prop (body Scenario.book) "contactNumber" /\
    Booking.emailAddress b = Js.prop (body Scenario.book) "emailAddress" /\
    Booking.cityName b = Js.prop (body Scenario.book) "cityName" /\
    Booking.ticketType b = Js.prop (body Scenario.book) "ticketType" /\
    Booking.eventId b = Js.prop (body Scenario.book) "eventId".
Proof.
  apply (create_stores_booking Demo.env Scenario.book Demo.world
           {| buffer := "receipt.png" |}).
  - reflexivity.
  - reflexivity.
Defined.

Lemma create_then_verify_witness :
  exists b w',
    BookingRoutes.create Demo.env Scenario.book Demo.world
    = (Returned (booking_created b), w') /\
    Booking.ticketNumber b
    = Math_floor (Double.add 100000 (Double.mul (random Demo.world (draws Demo.world)) 900000)) /\
    (BookingRoutes.verify Demo.env (Demo.request "550000" []) w').1
    = Returned (valid_ticket (populated_in w' b)) /\
    (BookingRoutes2.verify Demo.env (Demo.request "550000" []) w').1
    = Returned (valid_ticket (populated_in w' b)).
Proof.
  apply (create_then_verify Demo.env Scenario.book (Demo.request "550000" []) Demo.world
           {| buffer := "receipt.png" |}).
  - reflexivity.
  - reflexivity.
  - by vm_compute.
  - repeat constructor; by vm_compute.
Defined.

Lemma create_may_collide_witness :
  exists b w',
    BookingRoutes.create Demo.env Scenario.book Scenario.world
    = (Returned (booking_created b), w') /\
    bookings w' = ([Demo.sara] ++ Scenario.omar :: [] ++ [b])%list /\
    Booking.ticketNumber b = Booking.ticketNumber Scenario.omar /\
    Booking._id b = nextId Scenario.world /\
    (BookingRoutes.verify Demo.env (Demo.request "550000" []) w').1
    = Returned (valid_ticket (populated_in w' Scenario.omar)) /\
    (BookingRoutes2.verify Demo.env (Demo.request "550000" []) w').1
    = Returned (valid_ticket (populated_in w' Scenario.omar)).
Proof.
  apply (create_may_collide Demo.env Scenario.book (Demo.request "550000" [])
           Scenario.world {| buffer := "receipt.png" |} [Demo.sara] [] Scenario.omar).
  - reflexivity.
  - reflexivity.
  - by vm_compute.
  - reflexivity.
  - repeat constructor; by vm_compute.
  - by vm_compute.
Defined.

Lemma update_status_unknown_id_witness :
  (exists w',
     BookingRoutes.update_status (Scenario.mark Demo.unknown_id "Paid") Demo.world
     = (Returned booking_not_found, w') /\
     bookings w' = bookings Demo.world) /\
  BookingRoutes.update_status (Scenario.mark "sara" "Paid") Demo.world
  = (Returned (failure "Failed to update status" (CastError "_id" "sara")), Demo.world).
Proof.
  split.
  - apply (proj1 (proj2 (update_status_unknown_id
                           (Scenario.mark Demo.unknown_id "Paid") Demo.world
                           (or_intror (or_introl eq_refl)))) 255%N).
    + reflexivity.
    + reflexivity.
  - apply (proj2 (proj2 (update_status_unknown_id
                           (Scenario.mark "sara" "Paid") Demo.world
                           (or_intror (or_introl eq_refl))))).
    reflexivity.
Defined.

Lemma update_status_last_wins_witness :
  let w2 := (BookingRoutes.update_status (Scenario.mark Demo.sara_id "Cancelled")
               (BookingRoutes.update_status (Scenario.mark Demo.sara_id "Paid")
                  Demo.world).2).2 in
  bookings w2
  = bookings (BookingRoutes.update_status (Scenario.mark Demo.sara_id "Cancelled")
                Demo.world).2 /\
  BookingDb.lookup 2%N (bookings w2)
  = Some (Booking.set_status (VStr "Cancelled") Demo.sara) /\
  (BookingRoutes.get (Scenario.mark Demo.sara_id "Cancelled") w2).1
  = Returned (booking_answer
                (populated_in w2 (Booking.set_status (VStr "Cancelled") Demo.sara))).
Proof.
  apply (update_status_last_wins (Scenario.mark Demo.sara_id "Paid")
           (Scenario.mark Demo.sara_id "Cancelled") Demo.world 2%N Demo.sara).
  - right. left. reflexivity.
  - right. right. right. reflexivity.
  - reflexivity.
  - reflexivity.
  - reflexivity.
Defined.

Lemma welcome_has_no_placeholder : ~ occurs "{{QR_CODE}}" "Welcome".
Proof.
  intros (a & b & H).
  do 7 (destruct a as [|? a]; [discriminate H | injection H as _ H]).
  destruct a; discriminate H.
Qed.

Lemma pass_has_no_brace : ~ occurs "{" "Pass ".
Proof.
  intros (a & b & H).
  do 5 (destruct a as [|? a]; [discriminate H | injection H as _ H]).
  destruct a; discriminate H.
Qed.

Lemma caller_html_is_sent_as_is_witness :
  (exists what w',
     BookingRoutes.send_email Demo.env Scenario.send_number Demo.world
     = (Returned (failure "Email sending failed" (TypeError what)), w') /\
     outbox w' = outbox Demo.world) /\
  (exists w' m,
     BookingRoutes.send_email Demo.env Scenario.send_plain Demo.world
     = (Returned (email_sent (Some (toDataURL Demo.env
                    (verification_url "https://your-domain.com" Demo.sara)))), w') /\
     outbox w' = (outbox Demo.world ++ [m])%list /\
     html m = CallerHtml "Welcome").
Proof.
  split.
  - apply (proj1 (caller_html_is_sent_as_is Demo.env Scenario.send_number Demo.world
                    2%N Demo.sara eq_refl eq_refl eq_refl)).
    intros h H. vm_compute in H. discriminate.
  - apply (proj2 (caller_html_is_sent_as_is Demo.env Scenario.send_plain Demo.world
                    2%N Demo.sara eq_refl eq_refl eq_refl) "Welcome").
    + reflexivity.
    + exact welcome_has_no_placeholder.
Defined.

Lemma first_placeholder_only_witness :
  let qr := toDataURL Demo.env (verification_url "https://your-domain.com" Demo.sara) in
  exists w' m,
    BookingRoutes.send_email Demo.env Scenario.send_twice Demo.world
    = (Returned (email_sent (Some qr)), w') /\
    outbox w' = (outbox Demo.world ++ [m])%list /\
    html m = CallerHtml ("Pass " ++ qr ++ " copy {{QR_CODE}}").
Proof.
  apply (first_placeholder_only Demo.env Scenario.send_twice Demo.world 2%N Demo.sara
           "Pass " " copy {{QR_CODE}}").
  - reflexivity.
  - reflexivity.
  - reflexivity.
  - exact pass_has_no_brace.
Defined.

Lemma routes_keep_ids_consistent_witness :
  consistent (EventRoutes.add Demo.env Scenario.launch Demo.world).2 /\
  consistent (BookingRoutes.create Demo.env Scenario.book Demo.world).2 /\
  consistent (EventRoutes.delete (Demo.request Demo.concert_id []) Demo.world).2.
Proof.
  split; [|split].
  - apply (proj1 (routes_keep_ids_consistent Demo.env) Scenario.launch Demo.world).
    exact consistent_demo.
  - apply (proj1 (proj2 (proj2 (proj2 (proj2 (routes_keep_ids_consistent Demo.env)))))
             Scenario.book Demo.world).
    exact consistent_demo.
  - apply (proj1 (proj2 (proj2 (proj2 (routes_keep_ids_consistent Demo.env))))
             (Demo.request Demo.concert_id []) Demo.world).
    exact consistent_demo.
Defined.
